(** * Financial tracker: the defensive parsing pipeline

    A shallow embedding of the parsing core of the repository
    (amount and currency parsing, the per-row strategy ladder, the
    validator, the structural gate of the CSV processor and the data
    sanitizer) together with the properties its specification states.

    Python strings are sequences of Unicode code points; they are modelled
    as lists of code points ([N]).  Literals are written [u "..."], which
    decodes the UTF-8 bytes of a Rocq string. *)

From Stdlib Require Import String Ascii DecimalString.
From Stdlib Require Import List NArith ZArith Bool Lia.
Import ListNotations.

Set Implicit Arguments.

(* ================================================================= *)
(** * Part I.  The model *)
(* ================================================================= *)

(** ** Strings *)

Abbreviation char := N (only parsing).
Abbreviation str := (list N) (only parsing).

Fixpoint utf8_decode (bs : list N) : str :=
  match bs with
  | [] => []
  | b :: rest =>
      if (b <? 128)%N then b :: utf8_decode rest
      else if (b <? 224)%N then
        match rest with
        | b1 :: r1 =>
            (N.land b 31 * 64 + N.land b1 63)%N :: utf8_decode r1
        | _ => [b]
        end
      else if (b <? 240)%N then
        match rest with
        | b1 :: b2 :: r2 =>
            (N.land b 15 * 4096 + N.land b1 63 * 64 + N.land b2 63)%N
              :: utf8_decode r2
        | _ => [b]
        end
      else
        match rest with
        | b1 :: b2 :: b3 :: r3 =>
            (N.land b 7 * 262144 + N.land b1 63 * 4096
             + N.land b2 63 * 64 + N.land b3 63)%N :: utf8_decode r3
        | _ => [b]
        end
  end.

Definition u (s : string) : str :=
  utf8_decode (map N_of_ascii (list_ascii_of_string s)).
Arguments u s%_string.

(** The character written as a one-character literal. *)
Definition ch (s : string) : char := hd 0%N (u s).
Arguments ch s%_string.

Fixpoint str_eqb (a b : str) : bool :=
  match a, b with
  | [], [] => true
  | x :: a', y :: b' => (x =? y)%N && str_eqb a' b'
  | _, _ => false
  end.

Fixpoint starts_with (p s : str) : bool :=
  match p, s with
  | [], _ => true
  | a :: p', b :: s' => (a =? b)%N && starts_with p' s'
  | _ :: _, [] => false
  end.

(** [sub in s] for strings. *)
Fixpoint contains (sub s : str) : bool :=
  starts_with sub s ||
  match s with
  | [] => false
  | _ :: s' => contains sub s'
  end.

(** [c in s] for a single character. *)
Definition has_char (c : char) (s : str) : bool :=
  existsb (N.eqb c) s.

(** [s.replace(c, new)] for a one-character [c]. *)
Definition replace_char (c : char) (new : str) (s : str) : str :=
  flat_map (fun x => if (x =? c)%N then new else [x]) s.

(** [s.rfind(c)] for a one-character [c]: the last index, or -1. *)
Fixpoint rfind_from (c : char) (s : str) (i : Z) (found : Z) : Z :=
  match s with
  | [] => found
  | x :: s' => rfind_from c s' (i + 1) (if (x =? c)%N then i else found)
  end.

Definition rfind (c : char) (s : str) : Z := rfind_from c s 0 (-1).

(** [s[i:]] for a non-negative [i]. *)
Definition slice_from (i : Z) (s : str) : str := skipn (Z.to_nat i) s.

(** [sep.join(parts)]. *)
Fixpoint join (sep : str) (parts : list str) : str :=
  match parts with
  | [] => []
  | [p] => p
  | p :: ps => p ++ sep ++ join sep ps
  end.

(** ** The Unicode tables the code relies on *)

(** Code points of the digit zero of every decimal-digit block (general
    category Nd); each is followed by the digits one to nine.  This is
    what [\d] matches in a [str] pattern and what [int] and [float]
    accept. *)
Definition digit_zeros : list N :=
  [48; 1632; 1776; 1984; 2406; 2534; 2662; 2790; 2918; 3046; 3174; 3302;
   3430; 3558; 3664; 3792; 3872; 4160; 4240; 6112; 6160; 6470; 6608; 6784;
   6800; 6992; 7088; 7232; 7248; 42528; 43216; 43264; 43472; 43504; 43600;
   44016; 65296; 66720; 68912; 69734; 69872; 69942; 70096; 70384; 70736;
   70864; 71248; 71360; 71472; 71904; 72016; 72784; 73040; 73120; 92768;
   92864; 93008; 120782; 120792; 120802; 120812; 120822; 123200; 123632;
   125264; 130032]%N.

Fixpoint digit_value_in (zeros : list N) (c : char) : option N :=
  match zeros with
  | [] => None
  | z :: zs =>
      if ((z <=? c) && (c <? z + 10))%N then Some (c - z)%N
      else digit_value_in zs c
  end.

Definition digit_value (c : char) : option N := digit_value_in digit_zeros c.

Definition is_digit (c : char) : bool :=
  match digit_value c with Some _ => true | None => false end.

(** [str.isspace], which is also [\s] and what [strip] removes. *)
Definition is_space (c : char) : bool :=
  ((9 <=? c) && (c <=? 13) || (28 <=? c) && (c <=? 32)
   || (c =? 133) || (c =? 160) || (c =? 5760)
   || (8192 <=? c) && (c <=? 8202)
   || (c =? 8232) || (c =? 8233) || (c =? 8239) || (c =? 8287)
   || (c =? 12288))%N.

Definition is_ascii_upper (c : char) : bool := ((65 <=? c) && (c <=? 90))%N.
Definition is_ascii_lower (c : char) : bool := ((97 <=? c) && (c <=? 122))%N.
Definition is_ascii_alpha (c : char) : bool :=
  is_ascii_upper c || is_ascii_lower c.

(** [str.lower].  Exact on ASCII and on the two other characters whose
    lower case contains an ASCII letter (U+0130 and the Kelvin sign
    U+212A); every other character is kept, so comparisons of a lowered
    string with the ASCII words of the code are exact, while the lowered
    text of other cased letters is not. *)
Definition lower_char (c : char) : str :=
  if is_ascii_upper c then [c + 32]%N
  else if (c =? 304)%N then [105; 775]%N
  else if (c =? 8490)%N then [107]%N
  else [c].

Definition lower (s : str) : str := flat_map lower_char s.

Fixpoint drop_while (p : char -> bool) (s : str) : str :=
  match s with
  | [] => []
  | c :: s' => if p c then drop_while p s' else s
  end.

(** [s.strip()]. *)
Definition strip (s : str) : str :=
  rev (drop_while is_space (rev (drop_while is_space s))).

(** ** Regular expressions

    The patterns of the code are kept as syntax trees and run by a
    backtracking matcher with Python's priorities: alternatives from left
    to right, greedy repetition.  The matcher threads the character before
    the current position (for [^] and [\b]) and the capture groups. *)

Inductive regex : Type :=
| Eps
| Cls (p : char -> bool)
| Seq (a b : regex)
| Alt (a b : regex)
| Star (a : regex)
| Bol
| Eol
| Wordb (w : char -> bool)
| Grp (name : N) (a : regex).

Definition captures := list (N * str).

Definition at_eol (s : str) : bool :=
  match s with
  | [] => true
  | [c] => (c =? 10)%N
  | _ => false
  end.

Definition word_before (w : char -> bool) (prev : option char) : bool :=
  match prev with Some c => w c | None => false end.

Definition word_after (w : char -> bool) (s : str) : bool :=
  match s with c :: _ => w c | [] => false end.

Fixpoint rx {A : Type} (r : regex) (prev : option char) (s : str)
    (caps : captures)
    (k : option char -> str -> captures -> option A) : option A :=
  match r with
  | Eps => k prev s caps
  | Cls p =>
      match s with
      | c :: s' => if p c then k (Some c) s' caps else None
      | [] => None
      end
  | Seq a b => rx a prev s caps (fun p' s' c' => rx b p' s' c' k)
  | Alt a b =>
      match rx a prev s caps k with
      | Some x => Some x
      | None => rx b prev s caps k
      end
  | Star a =>
      (fix loop (n : nat) (prev : option char) (s : str) (caps : captures)
         {struct n} : option A :=
         match n with
         | O => k prev s caps
         | S n' =>
             match rx a prev s caps
                     (fun p' s' c' =>
                        if (List.length s' <? List.length s)%nat
                        then loop n' p' s' c' else None) with
             | Some x => Some x
             | None => k prev s caps
             end
         end) (List.length s) prev s caps
  | Bol => match prev with None => k prev s caps | Some _ => None end
  | Eol => if at_eol s then k prev s caps else None
  | Wordb w =>
      if xorb (word_before w prev) (word_after w s) then k prev s caps
      else None
  | Grp name a =>
      rx a prev s caps
         (fun p' s' c' =>
            k p' s' ((name, firstn (List.length s - List.length s') s) :: c'))
  end.

(** Pattern syntax. *)
Definition chr (c : char) : regex := Cls (N.eqb c).
Definition plus (a : regex) : regex := Seq a (Star a).
Definition opt (a : regex) : regex := Alt a Eps.
Fixpoint times (n : nat) (a : regex) : regex :=
  match n with
  | O => Eps
  | S O => a
  | S n' => Seq a (times n' a)
  end.
Definition at_least (n : nat) (a : regex) : regex := Seq (times n a) (Star a).
Definition one_of (cs : str) : regex := Cls (fun c => has_char c cs).
Definition none_of (p : char -> bool) : regex := Cls (fun c => negb (p c)).
Definition range (lo hi : N) (c : char) : bool := ((lo <=? c) && (c <=? hi))%N.
Fixpoint lit (s : str) : regex :=
  match s with
  | [] => Eps
  | [c] => chr c
  | c :: s' => Seq (chr c) (lit s')
  end.
Fixpoint alts (rs : list regex) : regex :=
  match rs with
  | [] => Cls (fun _ => false)
  | [r] => r
  | r :: rs' => Alt r (alts rs')
  end.

(** A character of a pattern compiled with [re.IGNORECASE]: an ASCII
    letter also matches its other case and the few non-ASCII characters
    that case-fold to it. *)
Definition ci_eqb (p c : char) : bool :=
  (c =? p)%N
  || (is_ascii_lower p && (c =? p - 32)%N)
  || ((p =? 105) && ((c =? 304) || (c =? 305)))%N
  || ((p =? 107) && (c =? 8490))%N
  || ((p =? 115) && (c =? 383))%N.

Fixpoint ilit (s : str) : regex :=
  match s with
  | [] => Eps
  | [c] => Cls (ci_eqb c)
  | c :: s' => Seq (Cls (ci_eqb c)) (ilit s')
  end.

Record rmatch : Type := mk_rmatch {
  m_before : str;      (* text before the match *)
  m_text : str;        (* group 0 *)
  m_after : str;       (* text after the match *)
  m_last : option char;(* character before [m_after] *)
  m_groups : captures
}.

Definition match_here (r : regex) (prev : option char) (s : str)
    (before : str) : option rmatch :=
  rx r prev s []
     (fun p' s' c' =>
        Some (mk_rmatch before (firstn (List.length s - List.length s') s)
                        s' p' c')).

(** [re.match(r, s)]. *)
Definition re_match (r : regex) (s : str) : option rmatch :=
  match_here r None s [].

Fixpoint search_from (r : regex) (prev : option char) (s : str)
    (before_rev : str) : option rmatch :=
  match match_here r prev s (rev before_rev) with
  | Some m => Some m
  | None =>
      match s with
      | [] => None
      | c :: s' => search_from r (Some c) s' (c :: before_rev)
      end
  end.

(** [re.search(r, s)]. *)
Definition re_search (r : regex) (s : str) : option rmatch :=
  search_from r None s [].

Definition is_match (m : option rmatch) : bool :=
  match m with Some _ => true | None => false end.

Fixpoint sub_loop (fuel : nat) (r : regex) (repl : str)
    (prev : option char) (s : str) : str :=
  match fuel with
  | O => s
  | S fuel' =>
      match match_here r prev s [] with
      | Some m =>
          if (List.length (m_after m) <? List.length s)%nat
          then repl ++ sub_loop fuel' r repl (m_last m) (m_after m)
          else
            match s with
            | [] => repl
            | c :: s' => repl ++ c :: sub_loop fuel' r repl (Some c) s'
            end
      | None =>
          match s with
          | [] => []
          | c :: s' => c :: sub_loop fuel' r repl (Some c) s'
          end
      end
  end.

(** [re.sub(r, repl, s)] for a replacement without group references. *)
Definition re_sub (r : regex) (repl : str) (s : str) : str :=
  sub_loop (S (List.length s)) r repl None s.

Definition digit : regex := Cls is_digit.

(** The class [[lo-hi]]. *)
Definition rng (lo hi : string) : regex := Cls (range (ch lo) (ch hi)).

Fixpoint seqs (rs : list regex) : regex :=
  match rs with
  | [] => Eps
  | [r] => r
  | r :: rs' => Seq r (seqs rs')
  end.

Fixpoint capture (name : N) (caps : captures) : option str :=
  match caps with
  | [] => None
  | (n, s) :: rest => if (n =? name)%N then Some s else capture name rest
  end.

(** [m.group(name)] for a group that took part in the match. *)
Definition group (name : N) (m : rmatch) : str :=
  match capture name (m_groups m) with Some s => s | None => [] end.

(** ** Python values

    A float is a binary64 number: a sign, a mantissa and a binary
    exponent, [(-1)^neg * m * 2^e], or an infinity, or NaN.  The numbers
    that [float], the literals and the operations give are normalised
    (53 bits of mantissa, or the exponent -1074); zero has mantissa 0,
    and its sign is kept. *)

Inductive pyfloat : Type :=
| Fin (neg : bool) (m : N) (e : Z)
| Inf (neg : bool)
| NaN.

Inductive pyval : Type :=
| PNone
| PBool (b : bool)
| PInt (z : Z)
| PFloat (f : pyfloat)
| PStr (s : str).

(** [n / d] rounded to the nearest integer, ties to the even one. *)
Definition round_half_even (n d : N) : N :=
  let q := (n / d)%N in
  match (2 * (n mod d) ?= d)%N with
  | Lt => q
  | Gt => (q + 1)%N
  | Eq => if N.even q then q else (q + 1)%N
  end.

(** [n * 2^k] for a positive [k], and [n] otherwise. *)
Definition shift_up (n : N) (k : Z) : N :=
  if (0 <? k)%Z then N.shiftl n (Z.to_N k) else n.

(** The binary64 number nearest to [(-1)^neg * n / d], for [d > 0]:
    53 bits of mantissa, exponents from -1074 to 971, ties to the even
    mantissa, and infinity beyond the largest finite number.  This is the
    rounding of [float] and of the literals. *)
Definition binary64 (neg : bool) (n d : N) : pyfloat :=
  if (n =? 0)%N then Fin neg 0 0
  else
    let l := (Z.of_N (N.log2 n) - Z.of_N (N.log2 d))%Z in
    let t := if (shift_up d l <=? shift_up n (- l))%N then l
             else (l - 1)%Z in
    let k := Z.max (t - 52) (-1074) in
    let q := round_half_even (shift_up n (- k)) (shift_up d k) in
    let '(q, k) := if (q =? 2 ^ 53)%N then (2 ^ 52, k + 1)%Z
                   else (Z.of_N q, k) in
    if (971 <? k)%Z then Inf neg
    else if (q =? 0)%Z then Fin neg 0 0
    else Fin neg (Z.to_N q) k.

(** The float that the decimal numeral [m * 10^e] denotes: the value of
    the literal and of [float] on that numeral. *)
Definition dec (m e : Z) : pyfloat :=
  let n := Z.abs_N m in
  if (0 <=? e)%Z then binary64 (m <? 0)%Z (n * 10 ^ Z.to_N e) 1
  else binary64 (m <? 0)%Z n (10 ^ Z.to_N (- e)).
Arguments dec : simpl never.

Definition float_neg (f : pyfloat) : pyfloat :=
  match f with
  | Fin neg m e => Fin (negb neg) m e
  | Inf neg => Inf (negb neg)
  | NaN => NaN
  end.

Definition float_abs (f : pyfloat) : pyfloat :=
  match f with
  | Fin _ m e => Fin false m e
  | Inf _ => Inf false
  | NaN => NaN
  end.

(** Comparison of [(-1)^n1 * m1 * 2^e1] with [(-1)^n2 * m2 * 2^e2]. *)
Definition fin_compare (n1 : bool) (m1 : N) (e1 : Z) (n2 : bool) (m2 : N)
    (e2 : Z) : comparison :=
  let e := Z.min e1 e2 in
  let z1 := Z.of_N (N.shiftl m1 (Z.to_N (e1 - e))) in
  let z2 := Z.of_N (N.shiftl m2 (Z.to_N (e2 - e))) in
  ((if n1 then - z1 else z1) ?= (if n2 then - z2 else z2))%Z.

(** [f < g], [f > g], [f != 0]; every comparison with NaN is false. *)
Definition float_ltb (f g : pyfloat) : bool :=
  match f, g with
  | NaN, _ | _, NaN => false
  | Inf true, Inf true => false
  | Inf true, _ => true
  | _, Inf true => false
  | Inf false, _ => false
  | _, Inf false => true
  | Fin n1 m1 e1, Fin n2 m2 e2 =>
      match fin_compare n1 m1 e1 n2 m2 e2 with Lt => true | _ => false end
  end.

Definition float_gtb (f g : pyfloat) : bool := float_ltb g f.

Definition float_nonzero (f : pyfloat) : bool :=
  match f with
  | Fin _ m _ => negb (m =? 0)%N
  | _ => true
  end.

(** The exact value of an integer, for comparisons. *)
Definition float_of_Z (z : Z) : pyfloat := Fin (z <? 0)%Z (Z.abs_N z) 0.

(** Decimal digits of a natural number. *)
Definition str_of_N (n : N) : str :=
  map N_of_ascii (list_ascii_of_string (NilEmpty.string_of_uint (N.to_uint n))).

Definition str_of_Z (z : Z) : str :=
  if (z <? 0)%Z then ch "-" :: str_of_N (Z.to_N (- z)) else str_of_N (Z.to_N z).

Definition zeros (n : nat) : str := repeat (ch "0") n.

(** Significant digits of [m * 10^e] without trailing zeros, and the
    position of the decimal point counted from their start. *)
Definition sig_digits (m : N) (e : Z) : str * Z :=
  let ds := str_of_N m in
  let kept := rev (drop_while (N.eqb (ch "0")) (rev ds)) in
  (kept, Z.of_nat (List.length ds) + e)%Z.

(** [repr] of a finite non-zero magnitude: fixed notation when the
    decimal point falls within the digits or close to them, scientific
    notation otherwise. *)
Definition repr_magnitude (m : N) (e : Z) : str :=
  let '(ds, decpt) := sig_digits m e in
  let n := Z.of_nat (List.length ds) in
  if ((decpt <=? -4) || (16 <? decpt))%Z then
    let x := (decpt - 1)%Z in
    let xs := str_of_N (Z.to_N (Z.abs x)) in
    let xs2 := if (List.length xs <? 2)%nat then ch "0" :: xs else xs in
    firstn 1 ds
    ++ (match skipn 1 ds with [] => [] | t => ch "." :: t end)
    ++ ch "e" :: (if (x <? 0)%Z then ch "-" else ch "+") :: xs2
  else if (decpt <=? 0)%Z then
    u "0." ++ zeros (Z.to_nat (- decpt)) ++ ds
  else if (n <=? decpt)%Z then
    ds ++ zeros (Z.to_nat (decpt - n)) ++ u ".0"
  else
    firstn (Z.to_nat decpt) ds ++ ch "." :: skipn (Z.to_nat decpt) ds.

(** The exact decimal of [m * 2^e]: the pair [(M, E)] with
    [m * 2^e = M * 10^E]. *)
Definition exact_decimal (m : N) (e : Z) : N * Z :=
  if (0 <=? e)%Z then (N.shiftl m (Z.to_N e), 0%Z)
  else ((m * 5 ^ Z.to_N (- e))%N, e).

(** The shortest decimal that [float] reads back as [f], and among those
    of that length the nearest to [f] (the even one on a tie): the
    lengths are tried from [p] digits on, [M * 10^E] being the exact
    decimal and [L] the number of its digits. *)
Fixpoint shortest (fuel p : nat) (f : pyfloat) (M : N) (E : Z) (L : nat)
    : N * Z :=
  match fuel with
  | O => (M, E)
  | S fuel' =>
      if (L <=? p)%nat then (M, E)
      else
        let cut := N.of_nat (L - p) in
        let lo := (M / 10 ^ cut)%N in
        let hi := (lo + 1)%N in
        let X := (E + Z.of_N cut)%Z in
        let reads c :=
          match dec (Z.of_N c) X, f with
          | Fin _ m1 e1, Fin _ m2 e2 => (m1 =? m2)%N && (e1 =? e2)%Z
          | _, _ => false
          end in
        let below := (M - lo * 10 ^ cut)%N in
        let above := (hi * 10 ^ cut - M)%N in
        match reads lo, reads hi with
        | true, true =>
            match (below ?= above)%N with
            | Lt => (lo, X)
            | Gt => (hi, X)
            | Eq => if N.even lo then (lo, X) else (hi, X)
            end
        | true, false => (lo, X)
        | false, true => (hi, X)
        | false, false => shortest fuel' (S p) f M E L
        end
  end.

(** Seventeen digits always read back. *)
Definition shortest_decimal (m : N) (e : Z) : N * Z :=
  let '(M, E) := exact_decimal m e in
  shortest 17 1 (Fin false m e) M E (List.length (str_of_N M)).

(** [repr(f)], which is also [str(f)]. *)
Definition repr_float (f : pyfloat) : str :=
  match f with
  | NaN => u "nan"
  | Inf neg => if neg then u "-inf" else u "inf"
  | Fin neg m e =>
      (if neg then [ch "-"] else [])
      ++ (if (m =? 0)%N then u "0.0"
          else let '(D, X) := shortest_decimal m e in repr_magnitude D X)
  end.

(** [str(v)]. *)
Definition py_str (v : pyval) : str :=
  match v with
  | PNone => u "None"
  | PBool b => if b then u "True" else u "False"
  | PInt z => str_of_Z z
  | PFloat f => repr_float f
  | PStr s => s
  end.

(** Truth value of [v], as tested by [not v] and [if v]. *)
Definition truthy (v : pyval) : bool :=
  match v with
  | PNone => false
  | PBool b => b
  | PInt z => negb (z =? 0)%Z
  | PFloat f => float_nonzero f
  | PStr s => match s with [] => false | _ => true end
  end.

(** [pd.isna(v)] and [pd.notna(v)] for a scalar. *)
Definition isna (v : pyval) : bool :=
  match v with
  | PNone => true
  | PFloat NaN => true
  | _ => false
  end.

Definition notna (v : pyval) : bool := negb (isna v).

(** [f == g] for two floats that are not NaN. *)
Definition pyfloat_eqb (f g : pyfloat) : bool :=
  match f, g with
  | Fin n1 m1 e1, Fin n2 m2 e2 =>
      match fin_compare n1 m1 e1 n2 m2 e2 with Eq => true | _ => false end
  | Inf a, Inf b => Bool.eqb a b
  | _, _ => false
  end.

(** Equality of two labels or keys of the same kind. *)
Definition pyval_eqb (a b : pyval) : bool :=
  match a, b with
  | PNone, PNone => true
  | PBool x, PBool y => Bool.eqb x y
  | PInt x, PInt y => (x =? y)%Z
  | PFloat x, PFloat y => pyfloat_eqb x y
  | PStr x, PStr y => str_eqb x y
  | _, _ => false
  end.

(** *** [float(s)] for a string *)

Definition is_adigit (c : char) : bool := range 48 57 c.

Fixpoint span (p : char -> bool) (s : str) : str * str :=
  match s with
  | [] => ([], [])
  | c :: s' =>
      if p c then let '(a, b) := span p s' in (c :: a, b) else ([], s)
  end.

Definition digits_N (ds : str) : N :=
  fold_left (fun a c => (a * 10 + (c - 48))%N) ds 0%N.

(** Digits and Unicode spaces are brought to ASCII, any other non-ASCII
    character to a question mark. *)
Definition to_ascii_numeral (c : char) : char :=
  if (c <? 127)%N then c
  else if is_space c then 32%N
  else match digit_value c with
       | Some d => (48 + d)%N
       | None => 63%N
       end.

Definition is_c_space (c : char) : bool := (range 9 13 c || (c =? 32))%N.

Definition c_strip (s : str) : str :=
  rev (drop_while is_c_space (rev (drop_while is_c_space s))).

(** Underscores are allowed between two digits only. *)
Fixpoint drop_underscores (prev : option char) (s : str) : option str :=
  match s with
  | [] => match prev with
          | Some 95%N => None
          | _ => Some []
          end
  | c :: s' =>
      if (c =? 95)%N then
        match prev with
        | Some p => if is_adigit p then drop_underscores (Some c) s' else None
        | None => None
        end
      else
        match prev with
        | Some 95%N =>
            if is_adigit c
            then option_map (cons c) (drop_underscores (Some c) s')
            else None
        | _ => option_map (cons c) (drop_underscores (Some c) s')
        end
  end.

Definition split_sign (s : str) : bool * str :=
  match s with
  | c :: s' =>
      if (c =? 45)%N then (true, s')
      else if (c =? 43)%N then (false, s')
      else (false, s)
  | [] => (false, [])
  end.

(** An unsigned decimal numeral with an optional fraction and exponent;
    the result is the pair of mantissa and decimal exponent. *)
Definition parse_number (s : str) : option (Z * Z) :=
  let '(ip, r1) := span is_adigit s in
  let '(fp, r2) :=
    match r1 with
    | c :: t => if (c =? 46)%N then span is_adigit t else ([], r1)
    | [] => ([], r1)
    end in
  match ip ++ fp with
  | [] => None
  | ds =>
      let m := Z.of_N (digits_N ds) in
      let fl := Z.of_nat (List.length fp) in
      match r2 with
      | [] => Some (m, - fl)%Z
      | c :: t =>
          if ((c =? 101) || (c =? 69))%N then
            let '(eneg, t') := split_sign t in
            let '(ed, r3) := span is_adigit t' in
            match ed, r3 with
            | _ :: _, [] =>
                let x := Z.of_N (digits_N ed) in
                Some (m, (if eneg then - x else x) - fl)%Z
            | _, _ => None
            end
          else None
      end
  end.

(** [float(s)]; [None] stands for [ValueError]. *)
Definition py_float (s : str) : option pyfloat :=
  match drop_underscores None (c_strip (map to_ascii_numeral s)) with
  | None => None
  | Some t =>
      let '(neg, body) := split_sign t in
      let word := lower body in
      if str_eqb word (u "inf") || str_eqb word (u "infinity")
      then Some (Inf neg)
      else if str_eqb word (u "nan") then Some NaN
      else
        match parse_number body with
        | Some (m, e) =>
            Some (if neg then float_neg (dec m e) else dec m e)
        | None => None
        end
  end.

(** ** Exceptions

    Code that can raise returns a [res]; [try_except] is the [try] block
    with one [except Exception] handler. *)

Inductive exn : Type :=
| TypeError (msg : str)
| KeyError (msg : str)
| IndexError (msg : str)
| AttributeError (msg : str)
| ValueError (msg : str)
| ValidationError (msg : str)
| CSVCorruptionError (msg : str).

(** [str(e)]. *)
Definition exn_str (e : exn) : str :=
  match e with
  | TypeError m | KeyError m | IndexError m | AttributeError m
  | ValueError m | ValidationError m | CSVCorruptionError m => m
  end.

Inductive res (A : Type) : Type :=
| Ok (a : A)
| Raise (e : exn).
Arguments Ok {A} a.
Arguments Raise {A} e.

Definition bind {A B : Type} (x : res A) (f : A -> res B) : res B :=
  match x with
  | Ok a => f a
  | Raise e => Raise e
  end.

Notation "x <- c ;; k" := (bind c (fun x => k))
  (at level 61, c at next level, right associativity).

Definition try_except {A : Type} (body : res A) (handler : exn -> res A)
    : res A :=
  match body with
  | Ok a => Ok a
  | Raise e => handler e
  end.

(** ** Dictionaries

    A dictionary keeps its keys in insertion order; assigning to a key
    that is present replaces the value in place. *)

Section Dict.
Variables (K V : Type) (eqb : K -> K -> bool).

Fixpoint dict_get (d : list (K * V)) (k : K) : option V :=
  match d with
  | [] => None
  | (k', v) :: rest => if eqb k k' then Some v else dict_get rest k
  end.

Definition dict_has (d : list (K * V)) (k : K) : bool :=
  match dict_get d k with Some _ => true | None => false end.

Definition dict_get_default (d : list (K * V)) (k : K) (default : V) : V :=
  match dict_get d k with Some v => v | None => default end.

Fixpoint dict_set (d : list (K * V)) (k : K) (v : V) : list (K * V) :=
  match d with
  | [] => [(k, v)]
  | (k', v') :: rest =>
      if eqb k k' then (k', v) :: rest else (k', v') :: dict_set rest k v
  end.

Definition dict_of_items (items : list (K * V)) : list (K * V) :=
  fold_left (fun d kv => dict_set d (fst kv) (snd kv)) items [].
End Dict.

(** Dictionaries with text keys, as the transactions are. *)
Definition record := list (str * pyval).
Definition get (d : record) (k : string) : option pyval :=
  dict_get str_eqb d (u k).
Definition has (d : record) (k : string) : bool := dict_has str_eqb d (u k).
Definition set (d : record) (k : string) (v : pyval) : record :=
  dict_set str_eqb d (u k) v.

(** ** Dates *)

Record datetime : Type := mk_datetime {
  year : N; month : N; day : N; hour : N; minute : N; second : N
}.

Inductive directive : Type :=
| DY | Dy | Dm | Dd | DH | DM | DS    (* %Y %y %m %d %H %M %S *)
| DLit (c : char)
| DSpace.

(** The group that records a directive. *)
Definition gY : N := 0.
Definition gy : N := 1.
Definition gm : N := 2.
Definition gd : N := 3.
Definition gH : N := 4.
Definition gM : N := 5.
Definition gS : N := 6.

(** The regular expression of each directive, as [_strptime] has them. *)
Definition directive_regex (d : directive) : regex :=
  match d with
  | DY => Grp gY (times 4 digit)
  | Dy => Grp gy (times 2 digit)
  | Dm => Grp gm (alts [Seq (chr (ch "1")) (rng "0" "2");
                        Seq (chr (ch "0")) (rng "1" "9"); rng "1" "9"])
  | Dd => Grp gd (alts [Seq (chr (ch "3")) (rng "0" "1");
                        Seq (rng "1" "2") digit;
                        Seq (chr (ch "0")) (rng "1" "9"); rng "1" "9";
                        Seq (chr (ch " ")) (rng "1" "9")])
  | DH => Grp gH (alts [Seq (chr (ch "2")) (rng "0" "3");
                        Seq (rng "0" "1") digit; digit])
  | DM => Grp gM (alts [Seq (rng "0" "5") digit; digit])
  | DS => Grp gS (alts [Seq (chr (ch "6")) (rng "0" "1");
                        Seq (rng "0" "5") digit; digit])
  | DLit c => chr c
  | DSpace => plus (Cls is_space)
  end.

Definition format_regex (fmt : list directive) : regex :=
  seqs (map directive_regex fmt).

(** [int(s)] for a run of digits, possibly after a space. *)
Definition int_of (s : str) : N :=
  fold_left (fun a c => match digit_value c with
                        | Some d => (a * 10 + d)%N
                        | None => a
                        end) s 0%N.

Definition is_leap (y : N) : bool :=
  ((y mod 4 =? 0) && (negb (y mod 100 =? 0) || (y mod 400 =? 0)))%N.

Definition days_in_month (y m : N) : N :=
  if (m =? 2)%N then (if is_leap y then 29 else 28)%N
  else if ((m =? 4) || (m =? 6) || (m =? 9) || (m =? 11))%N then 30%N
  else 31%N.

Definition valid_datetime (t : datetime) : bool :=
  ((1 <=? year t) && (year t <=? 9999)
   && (1 <=? month t) && (month t <=? 12)
   && (1 <=? day t) && (day t <=? days_in_month (year t) (month t))
   && (hour t <=? 23) && (minute t <=? 59) && (second t <=? 59))%N.

(** [datetime.strptime(s, fmt)]; [None] stands for [ValueError].  The
    whole string must be matched; a missing year is 1900, a two-digit
    year below 69 is in the 2000s. *)
Definition strptime (s : str) (fmt : list directive) : option datetime :=
  match re_match (format_regex fmt) s with
  | None => None
  | Some m =>
      match m_after m with
      | _ :: _ => None
      | [] =>
          let field := fun g default =>
            match capture g (m_groups m) with
            | Some t => int_of t
            | None => default
            end in
          let y :=
            match capture gY (m_groups m), capture gy (m_groups m) with
            | Some t, _ => int_of t
            | None, Some t =>
                let yy := int_of t in
                if (yy <=? 68)%N then (2000 + yy)%N else (1900 + yy)%N
            | None, None => 1900%N
            end in
          let t := mk_datetime y (field gm 1%N) (field gd 1%N)
                               (field gH 0%N) (field gM 0%N) (field gS 0%N) in
          if valid_datetime t then Some t else None
      end
  end.

(** A format string read into its directives; a run of white space is
    one [\s+]. *)
Fixpoint parse_format (s : str) : list directive :=
  match s with
  | [] => []
  | c :: s' =>
      if (c =? 37)%N then
        match s' with
        | d :: s'' =>
            (if (d =? ch "Y")%N then DY else if (d =? ch "y")%N then Dy
             else if (d =? ch "m")%N then Dm else if (d =? ch "d")%N then Dd
             else if (d =? ch "H")%N then DH else if (d =? ch "M")%N then DM
             else if (d =? ch "S")%N then DS else DLit d)
            :: parse_format s''
        | [] => []
        end
      else if is_space c then
        match parse_format s' with
        | DSpace :: rest => DSpace :: rest
        | rest => DSpace :: rest
        end
      else DLit c :: parse_format s'
  end.

Definition fmt (s : string) : list directive := parse_format (u s).

Definition pad (width : nat) (n : N) : str :=
  let ds := str_of_N n in
  zeros (width - List.length ds) ++ ds.

(** [t.strftime('%Y-%m-%d')], with the year written on four digits as
    the language reference gives it (some C libraries do not pad a year
    below 1000). *)
Definition strftime_ymd (t : datetime) : str :=
  pad 4 (year t) ++ u "-" ++ pad 2 (month t) ++ u "-" ++ pad 2 (day t).

(** ** Amount and currency parsing *)

(** The pattern [[^\d\.,\-\+]]: every character that is not a digit, a
    separator or a sign. *)
Definition numeric_char (c : char) : bool :=
  is_digit c || has_char c (u ".,-+").

Definition not_numeric : regex := none_of numeric_char.

(** Outcome of [parse_amount_with_currency]: the dictionary with
    [success], [amount] and [currency], or with [success] and [error]. *)
Inductive amount_result : Type :=
| AmountOk (amount : pyfloat) (currency : str)
| AmountErr (error : str).

Module DefensiveTransactionParser.

(** [self.currency_symbols], in the order the dictionary is written and
    iterated. *)
Definition currency_symbols : list (str * str) :=
  [(u "€", u "EUR"); (u "$", u "USD"); (u "₹", u "INR"); (u "£", u "GBP");
   (u "¥", u "JPY"); (u "₽", u "RUB"); (u "₱", u "PHP"); (u "₩", u "KRW");
   (u "฿", u "THB"); (u "₿", u "BTC"); (u "C$", u "CAD"); (u "A$", u "AUD");
   (u "R$", u "BRL"); (u "RM", u "MYR"); (u "S$", u "SGD");
   (u "HK$", u "HKD"); (u "NZ$", u "NZD"); (u "Rp", u "IDR")].

(** The loop over [currency_symbols.items()] with its [break]. *)
Fixpoint detect_currency (table : list (str * str)) (amount_str : str)
    (default : str) : str :=
  match table with
  | [] => default
  | (symbol, curr_code) :: rest =>
      if contains symbol amount_str then curr_code
      else detect_currency rest amount_str default
  end.

(** The separator block of [parse_amount_with_currency]. *)
Definition resolve_separators (cleaned : str) : str :=
  if has_char (ch ",") cleaned && has_char (ch ".") cleaned then
    let last_comma := rfind (ch ",") cleaned in
    let last_dot := rfind (ch ".") cleaned in
    if (last_dot <? last_comma)%Z then
      replace_char (ch ",") (u ".") (replace_char (ch ".") [] cleaned)
    else
      replace_char (ch ",") [] cleaned
  else if has_char (ch ",") cleaned then
    let comma_pos := rfind (ch ",") cleaned in
    let after_comma := slice_from (comma_pos + 1) cleaned in
    if (List.length after_comma <=? 2)%nat then
      replace_char (ch ",") (u ".") cleaned
    else
      replace_char (ch ",") [] cleaned
  else cleaned.

Definition parse_amount_with_currency (amount_str : str) : amount_result :=
  if negb (truthy (PStr amount_str)) || str_eqb (lower amount_str) (u "nan")
  then AmountErr (u "Empty amount string")
  else
    let amount_str := strip amount_str in
    let currency := detect_currency currency_symbols amount_str (u "USD") in
    let cleaned := re_sub not_numeric [] amount_str in
    match cleaned with
    | [] => AmountErr (u "No numeric value found")
    | _ =>
        let cleaned := resolve_separators cleaned in
        match py_float cleaned with
        | Some amount => AmountOk amount currency
        | None => AmountErr (u "Could not convert to float: " ++ cleaned)
        end
    end.


(** [self.date_formats]. *)
Definition date_formats : list (list directive) :=
  [fmt "%Y-%m-%d"; fmt "%m/%d/%Y"; fmt "%d/%m/%Y"; fmt "%Y/%m/%d";
   fmt "%d-%m-%Y"; fmt "%m-%d-%Y"; fmt "%Y-%m-%d %H:%M:%S";
   fmt "%m/%d/%Y %H:%M:%S"; fmt "%d/%m/%Y %H:%M:%S"].

Fixpoint first_format (formats : list (list directive)) (date_str : str)
    : option datetime :=
  match formats with
  | [] => None
  | f :: rest =>
      match strptime date_str f with
      | Some parsed_date => Some parsed_date
      | None => first_format rest date_str
      end
  end.

Definition parse_date (date_str : pyval) : option datetime :=
  if negb (truthy date_str) || str_eqb (lower (py_str date_str)) (u "nan")
  then None
  else first_format date_formats (strip (py_str date_str)).

(** The patterns of the class. *)
Definition currency_sign : regex := one_of (u "€$₹£¥₽₱₩").
Definition iso_date : regex :=
  seqs [times 4 digit; chr (ch "-"); times 2 digit; chr (ch "-");
        times 2 digit].
Definition slash_date : regex :=
  seqs [times 2 digit; chr (ch "/"); times 2 digit; chr (ch "/");
        times 4 digit].
Definition dash_date : regex :=
  seqs [times 2 digit; chr (ch "-"); times 2 digit; chr (ch "-");
        times 4 digit].
Definition any_date : regex := alts [iso_date; slash_date; dash_date].
Definition money : regex :=
  seqs [opt currency_sign; plus digit; one_of (u ".,"); times 2 digit].

Definition looks_like_date (value : str) : bool :=
  existsb (fun pattern => is_match (re_match pattern value))
          [iso_date; slash_date; dash_date].

Definition looks_like_amount (value : str) : bool :=
  existsb (fun pattern => is_match (re_match pattern value))
          [Seq currency_sign (plus digit);
           seqs [plus digit; chr (ch "."); times 2 digit];
           seqs [plus digit; chr (ch ","); times 2 digit];
           plus digit].

Definition looks_like_description (value : str) : bool :=
  (3 <? List.length value)%nat
  && is_match (re_search (Cls is_ascii_alpha) value)
  && negb (is_match (re_match (seqs [Bol; plus digit; Eol]) value)).

(** A row handed to the parser: a pandas [Series] (labels and values in
    order, the labels distinct), a dictionary, or an object that is no
    mapping at all. *)
Inductive row : Type :=
| Series (items : list (pyval * pyval))
| Dict (items : list (pyval * pyval))
| Other.

(** [row.to_dict()] and [dict(row)]. *)
Definition to_dict (r : row) : res (list (pyval * pyval)) :=
  match r with
  | Series items | Dict items => Ok (dict_of_items pyval_eqb items)
  | Other => Raise (TypeError (u "object is not iterable"))
  end.

(** [row.values]: the array of a [Series]; on a dictionary it is the
    bound method, which cannot be iterated. *)
Definition row_values (r : row) : res (list pyval) :=
  match r with
  | Series items => Ok (map snd items)
  | Dict _ =>
      Raise (TypeError
               (u "'builtin_function_or_method' object is not iterable"))
  | Other => Raise (AttributeError (u "object has no attribute 'values'"))
  end.

Record ParsingResult : Type := mk_result {
  success : bool;
  transaction : option record;
  strategy_used : str;
  confidence : pyfloat;
  error_message : option str
}.

Definition failure (strategy : string) (message : str) : ParsingResult :=
  mk_result false None (u strategy) (dec 0 0) (Some message).

Definition succeeded (strategy : string) (t : record) (score : pyfloat)
    : ParsingResult :=
  mk_result true (Some t) (u strategy) score None.

(** The dictionary literal every strategy builds. *)
Definition make_transaction (date description : str) (amount : pyfloat)
    (currency type category : str) (score : pyfloat) : record :=
  [(u "date", PStr date); (u "description", PStr description);
   (u "amount", PFloat amount); (u "currency", PStr currency);
   (u "type", PStr type); (u "category", PStr category);
   (u "confidence_score", PFloat score)].

Definition sign_type (amount : pyfloat) : str :=
  if float_ltb amount (dec 0 0) then u "debit" else u "credit".

Definition standard_parsing (r : row) (index : option Z)
    : res ParsingResult :=
  try_except
    (row_data <- to_dict r ;;
     let normalized_data :=
       fold_left
         (fun d kv =>
            dict_set str_eqb d (strip (lower (py_str (fst kv)))) (snd kv))
         row_data [] in
     let field := dict_get_default str_eqb normalized_data in
     let date_str := field (u "date") (PStr []) in
     let description := field (u "description") (PStr []) in
     let amount_str := py_str (field (u "amount") (PStr [])) in
     let trans_type := field (u "type") (PStr (u "Debit")) in
     let category := field (u "category") (PStr (u "Other")) in
     if negb (truthy date_str) || negb (truthy description)
        || negb (truthy (PStr amount_str))
     then Ok (failure "standard_parsing" (u "Missing required fields"))
     else
       match parse_date date_str with
       | None =>
           Ok (failure "standard_parsing"
                       (u "Could not parse date: " ++ py_str date_str))
       | Some date_obj =>
           match parse_amount_with_currency amount_str with
           | AmountErr _ =>
               Ok (failure "standard_parsing"
                           (u "Could not parse amount: " ++ amount_str))
           | AmountOk amount currency =>
               let type :=
                 if existsb (str_eqb (lower (py_str trans_type)))
                            [u "debit"; u "expense"; u "withdrawal"]
                 then u "debit" else u "credit" in
               Ok (succeeded "standard_parsing"
                     (make_transaction
                        (strftime_ymd date_obj) (strip (py_str description))
                        amount currency type
                        (lower (strip (py_str category))) (dec 9 (-1)))
                     (dec 9 (-1)))
           end
       end)
    (fun e => Ok (failure "standard_parsing" (exn_str e))).

(** The loop of [fuzzy_column_matching] over the cells of the row. *)
Definition detect_fields (row_data : list (pyval * pyval))
    : list (str * str) :=
  fold_left
    (fun detected_fields kv =>
       let value_str := strip (py_str (snd kv)) in
       if looks_like_date value_str
          && negb (dict_has str_eqb detected_fields (u "date"))
       then dict_set str_eqb detected_fields (u "date") value_str
       else if looks_like_amount value_str
               && negb (dict_has str_eqb detected_fields (u "amount"))
       then dict_set str_eqb detected_fields (u "amount") value_str
       else if looks_like_description value_str
               && negb (dict_has str_eqb detected_fields (u "description"))
       then dict_set str_eqb detected_fields (u "description") value_str
       else detected_fields)
    row_data [].

(** [d[key]], raising [KeyError] on a missing key. *)
Definition index_key (d : list (str * str)) (key : string) : res str :=
  match dict_get str_eqb d (u key) with
  | Some v => Ok v
  | None => Raise (KeyError (u "'" ++ u key ++ u "'"))
  end.

Definition fuzzy_column_matching (r : row) (index : option Z)
    : res ParsingResult :=
  try_except
    (row_data <- to_dict r ;;
     let detected_fields := detect_fields row_data in
     if (List.length detected_fields <? 3)%nat
     then Ok (failure "fuzzy_column_matching"
                      (u "Could not identify required fields"))
     else
       date_str <- index_key detected_fields "date" ;;
       match parse_date (PStr date_str) with
       | None =>
           Ok (failure "fuzzy_column_matching"
                       (u "Could not parse detected date"))
       | Some date_obj =>
           amount_str <- index_key detected_fields "amount" ;;
           match parse_amount_with_currency amount_str with
           | AmountErr _ =>
               Ok (failure "fuzzy_column_matching"
                           (u "Could not parse detected amount"))
           | AmountOk amount currency =>
               description <- index_key detected_fields "description" ;;
               Ok (succeeded "fuzzy_column_matching"
                     (make_transaction
                        (strftime_ymd date_obj) description amount currency
                        (sign_type amount) (u "other") (dec 7 (-1)))
                     (dec 7 (-1)))
           end
       end)
    (fun e => Ok (failure "fuzzy_column_matching" (exn_str e))).

(** [' '.join(str(val) for val in row.values if pd.notna(val))]. *)
Definition row_text (r : row) : res str :=
  values <- row_values r ;;
  Ok (join (u " ") (map py_str (filter notna values))).

Definition pattern_based_extraction (r : row) (index : option Z)
    : res ParsingResult :=
  try_except
    (row_str <- row_text r ;;
     match re_search (Grp 1 any_date) row_str with
     | None =>
         Ok (failure "pattern_based_extraction" (u "No date pattern found"))
     | Some date_match =>
         let date_str := group 1 date_match in
         match parse_date (PStr date_str) with
         | None =>
             Ok (failure "pattern_based_extraction"
                         (u "Could not parse extracted date"))
         | Some date_obj =>
             match re_search (Grp 1 money) row_str with
             | None =>
                 Ok (failure "pattern_based_extraction"
                             (u "No amount pattern found"))
             | Some amount_match =>
                 let amount_str := group 1 amount_match in
                 match parse_amount_with_currency amount_str with
                 | AmountErr _ =>
                     Ok (failure "pattern_based_extraction"
                                 (u "Could not parse extracted amount"))
                 | AmountOk amount currency =>
                     let description :=
                       strip (re_sub money []
                                (re_sub any_date [] row_str)) in
                     let description :=
                       match description with
                       | [] => u "Unknown transaction"
                       | _ => description
                       end in
                     Ok (succeeded "pattern_based_extraction"
                           (make_transaction
                              (strftime_ymd date_obj) description amount
                              currency (sign_type amount) (u "other")
                              (dec 6 (-1)))
                           (dec 6 (-1)))
                 end
             end
         end
     end)
    (fun e => Ok (failure "pattern_based_extraction" (exn_str e))).

(** The three candidate lists of [manual_field_detection]. *)
Definition candidates (row_data : list (pyval * pyval))
    : list (pyval * str) * list (pyval * str) * list (pyval * str) :=
  fold_left
    (fun acc kv =>
       let '(dates, amounts, descriptions) := acc in
       let value_str := strip (py_str (snd kv)) in
       if looks_like_date value_str
       then (dates ++ [(fst kv, value_str)], amounts, descriptions)
       else if looks_like_amount value_str
       then (dates, amounts ++ [(fst kv, value_str)], descriptions)
       else if looks_like_description value_str
       then (dates, amounts, descriptions ++ [(fst kv, value_str)])
       else acc)
    row_data ([], [], []).

(** [l[0][1]], raising [IndexError] on an empty list. *)
Definition first_value (l : list (pyval * str)) : res str :=
  match l with
  | (_, v) :: _ => Ok v
  | [] => Raise (IndexError (u "list index out of range"))
  end.

Definition manual_field_detection (r : row) (index : option Z)
    : res ParsingResult :=
  try_except
    (row_data <- to_dict r ;;
     let '(date_candidates, amount_candidates, description_candidates) :=
       candidates row_data in
     match date_candidates, amount_candidates with
     | [], _ | _, [] =>
         Ok (failure "manual_field_detection"
                     (u "Could not find date or amount candidates"))
     | _ :: _, _ :: _ =>
         date_str <- first_value date_candidates ;;
         amount_str <- first_value amount_candidates ;;
         match parse_date (PStr date_str),
               parse_amount_with_currency amount_str with
         | Some date_obj, AmountOk amount currency =>
             description <-
               match description_candidates with
               | [] => Ok (u "Unknown transaction")
               | _ :: _ => first_value description_candidates
               end ;;
             Ok (succeeded "manual_field_detection"
                   (make_transaction
                      (strftime_ymd date_obj) description amount currency
                      (sign_type amount) (u "other") (dec 5 (-1)))
                   (dec 5 (-1)))
         | _, _ =>
             Ok (failure "manual_field_detection"
                         (u "Could not parse detected fields"))
         end
     end)
    (fun e => Ok (failure "manual_field_detection" (exn_str e))).

(** [now] is what [datetime.now()] returns. *)
Definition emergency_fallback (now : datetime) (r : row) (index : option Z)
    : res ParsingResult :=
  try_except
    (row_str <- row_text r ;;
     let date_str :=
       match re_search (Grp 1 iso_date) row_str with
       | None => strftime_ymd now
       | Some date_match => group 1 date_match
       end in
     match re_search (Grp 1 (seqs [plus digit; opt (one_of (u ".,"));
                                   Star digit])) row_str with
     | None => Ok (failure "emergency_fallback" (u "No amount found"))
     | Some amount_match =>
         let amount_str := group 1 amount_match in
         match parse_amount_with_currency amount_str with
         | AmountErr _ =>
             Ok (failure "emergency_fallback"
                         (u "Could not parse emergency amount"))
         | AmountOk amount currency =>
             Ok (succeeded "emergency_fallback"
                   (make_transaction
                      date_str (u "Unknown transaction") amount currency
                      (sign_type amount) (u "other") (dec 2 (-1)))
                   (dec 2 (-1)))
         end
     end)
    (fun e => Ok (failure "emergency_fallback" (exn_str e))).

Definition strategy : Type := row -> option Z -> res ParsingResult.

Definition strategies (now : datetime) : list (str * strategy) :=
  [(u "standard_parsing", standard_parsing);
   (u "fuzzy_column_matching", fuzzy_column_matching);
   (u "pattern_based_extraction", pattern_based_extraction);
   (u "manual_field_detection", manual_field_detection);
   (u "emergency_fallback", emergency_fallback now)].

(** One turn of the loop: the [try] block around the call of a
    strategy.  [Some result] leaves the loop, [None] goes on. *)
Definition attempt (strategy_func : strategy) (r : row) (index : option Z)
    : res (option ParsingResult) :=
  try_except
    (result <- strategy_func r index ;;
     Ok (if success result then Some result else None))
    (fun e => Ok None).

Definition all_failed : ParsingResult :=
  mk_result false None (u "all_failed") (dec 0 0)
            (Some (u "All parsing strategies failed")).

Fixpoint try_strategies (ss : list (str * strategy)) (r : row)
    (index : option Z) : res ParsingResult :=
  match ss with
  | [] => Ok all_failed
  | (strategy_name, strategy_func) :: rest =>
      step <- attempt strategy_func r index ;;
      match step with
      | Some result => Ok result
      | None => try_strategies rest r index
      end
  end.

(** [parse_transaction_row]; the calls of the logger are left out. *)
Definition parse_transaction_row (now : datetime) (r : row)
    (index : option Z) : res ParsingResult :=
  try_strategies (strategies now) r index.

(** *** [validate_transaction]

    The function returns its verdict, or lets through an exception that
    its handlers do not name: the [OverflowError] of [float] on an
    integer beyond the floats, and the [TypeError] of [strptime] on a
    date that is no text. *)
Inductive outcome : Type :=
| Returns (valid : bool)
| RaisesOverflowError
| RaisesTypeError.

(** The second [try] block: [datetime.strptime(date, '%Y-%m-%d')]. *)
Definition validate_date (date : pyval) : outcome :=
  match date with
  | PStr s =>
      match strptime s (fmt "%Y-%m-%d") with
      | Some _ => Returns true
      | None => Returns false
      end
  | _ => RaisesTypeError
  end.

Definition validate_transaction (transaction : record) : outcome :=
  let value := fun field =>
    dict_get_default str_eqb transaction (u field) PNone in
  if existsb (fun field => negb (has transaction field)
                           || negb (truthy (value field)))
             ["date"; "description"; "amount"; "currency"]%string
  then Returns false
  else
    match value "amount"%string with
    | PNone => Returns false
    | PStr s =>
        match py_float s with
        | Some _ => validate_date (value "date"%string)
        | None => Returns false
        end
    | PInt z =>
        match binary64 (z <? 0)%Z (Z.abs_N z) 1 with
        | Inf _ => RaisesOverflowError
        | _ => validate_date (value "date"%string)
        end
    | PBool _ | PFloat _ => validate_date (value "date"%string)
    end.

End DefensiveTransactionParser.

(** [f >= g]; false when one of them is NaN. *)
Definition float_geb (f g : pyfloat) : bool :=
  match f, g with
  | NaN, _ | _, NaN => false
  | _, _ => negb (float_ltb f g)
  end.

Module TransactionProcessor.

Section Currency.

(** What [\w] matches (the alphanumeric characters of the Unicode
    database and the underscore); only [\b] depends on it. *)
Variable is_word : char -> bool.

Definition symbol (s : string) : regex := lit (u s).
Definition code (s : string) : regex :=
  Seq (Wordb is_word) (Seq (lit (u s)) (Wordb is_word)).

(** [currency_patterns], group by group in the order of the list.
    First the specific prefixes. *)
Definition prefix_table : list (string * string) :=
  [("C$", "CAD"); ("A$", "AUD"); ("R$", "BRL"); ("RM", "MYR");
   ("S$", "SGD"); ("HK$", "HKD"); ("NZ$", "NZD"); ("Rp", "IDR")]%string.

Definition prefix_patterns : list (regex * str) :=
  map (fun pc => (symbol (fst pc), u (snd pc))) prefix_table.

(** The single symbols, the dollar at the start of the text and the
    yen symbols; they are the character sequences the source file
    holds. *)
Definition symbol_patterns : list (regex * str) :=
  [(symbol "â‚¹", u "INR"); (symbol "â‚¬", u "EUR"); (symbol "Â£", u "GBP");
   (symbol "â‚±", u "PHP"); (symbol "â‚½", u "RUB"); (symbol "â‚©", u "KRW");
   (symbol "à¸¿", u "THB"); (symbol "â‚¿", u "BTC");
   (Seq Bol (chr (ch "$")), u "USD");
   (symbol "Â¥", u "JPY"); (symbol "ï¿¥", u "CNY")].

(** The text codes, each between word boundaries. *)
Definition code_patterns : list (regex * str) :=
  map (fun c => (code c, u c))
      ["USD"; "INR"; "EUR"; "GBP"; "JPY"; "CAD"; "AUD"; "CHF"; "CNY";
       "SEK"; "NOK"; "DKK"; "PLN"; "CZK"; "HUF"; "RUB"; "BRL"; "MXN";
       "ZAR"; "KRW"; "SGD"; "HKD"; "NZD"; "THB"; "MYR"; "IDR";
       "PHP"]%string.

Definition currency_patterns : list (regex * str) :=
  prefix_patterns ++ symbol_patterns ++ code_patterns.

Fixpoint first_pattern (patterns : list (regex * str)) (amount_str : str)
    (default : str) : str :=
  match patterns with
  | [] => default
  | (pattern, currency) :: rest =>
      if is_match (re_search pattern amount_str) then currency
      else first_pattern rest amount_str default
  end.

Definition detect_currency_from_amount (amount_str : str) : str :=
  if negb (truthy (PStr amount_str)) then u "USD"
  else
    let amount_str := strip amount_str in
    first_pattern currency_patterns amount_str (u "USD").

(** [month_mapping] and the formats of [_parse_date]. *)
Definition month_mapping : list (string * string) :=
  [("jan", "01"); ("feb", "02"); ("mar", "03"); ("apr", "04");
   ("may", "05"); ("jun", "06"); ("jul", "07"); ("aug", "08");
   ("sep", "09"); ("oct", "10"); ("nov", "11"); ("dec", "12")]%string.

Definition month_word (month : string) : regex :=
  Seq (Wordb is_word) (Seq (ilit (u month)) (Wordb is_word)).

Definition date_formats : list string :=
  ["%Y-%m-%d"; "%m/%d/%Y"; "%d/%m/%Y"; "%Y/%m/%d"; "%d-%m-%Y";
   "%m-%d-%Y"; "%Y-%m-%d %H:%M:%S"; "%m/%d/%Y %H:%M:%S";
   "%d/%m/%Y %H:%M:%S"; "%m/%d/%y"; "%m-%d-%y"; "%d/%m/%y"; "%d-%m-%y";
   "%m/%d"; "%m-%d"]%string.

Definition without_year (f : string) : bool :=
  (String.eqb f "%m/%d" || String.eqb f "%m-%d")%string.

(** The loop over the formats; [now] is [datetime.now()].  The
    result is the date without the time of day. *)
Fixpoint first_format (now : datetime) (formats : list string)
    (date_str : str) : option datetime :=
  match formats with
  | [] => None
  | f :: rest =>
      match strptime date_str (fmt f) with
      | Some parsed_date =>
          let parsed_date :=
            if without_year f
            then mk_datetime (year now) (month parsed_date)
                             (day parsed_date) (hour parsed_date)
                             (minute parsed_date) (second parsed_date)
            else parsed_date in
          if valid_datetime parsed_date
          then Some (mk_datetime (year parsed_date) (month parsed_date)
                                 (day parsed_date) 0 0 0)
          else first_format now rest date_str
      | None => first_format now rest date_str
      end
  end.

Definition _parse_date (now : datetime) (date_str : pyval)
    : option datetime :=
  if negb (truthy date_str) || str_eqb (lower (py_str date_str)) (u "nan")
  then None
  else
    let date_str := strip (py_str date_str) in
    let date_str :=
      fold_left (fun d mn => re_sub (month_word (fst mn)) (u (snd mn)) d)
                month_mapping date_str in
    first_format now date_formats date_str.

(** The separator block of [_parse_amount]. *)
Definition resolve_separators (cleaned : str) : str :=
  if has_char (ch ",") cleaned && has_char (ch ".") cleaned then
    let last_comma := rfind (ch ",") cleaned in
    let last_dot := rfind (ch ".") cleaned in
    if (last_dot <? last_comma)%Z then
      replace_char (ch ",") (u ".") (replace_char (ch ".") [] cleaned)
    else
      replace_char (ch ",") [] cleaned
  else if has_char (ch ",") cleaned then
    let comma_pos := rfind (ch ",") cleaned in
    let after_comma := slice_from (comma_pos + 1) cleaned in
    if (List.length after_comma <=? 2)%nat
       && (0 <? List.length after_comma)%nat then
      replace_char (ch ",") (u ".") cleaned
    else
      replace_char (ch ",") [] cleaned
  else cleaned.

(** The bound of [_parse_amount]: above 1000000000, or non-zero and
    below 0.000001. *)
Definition out_of_range (amount : pyfloat) : bool :=
  float_gtb (float_abs amount) (dec 1000000000 0)
  || (float_ltb (float_abs amount) (dec 1 (-6)) && float_nonzero amount).

(** [_parse_amount]: the pair of the amount ([None] on failure) and
    the currency.  A [ValueError] of [float] is caught and leads to the
    final [return None, 'USD']. *)
Definition _parse_amount (amount_str : str) : option pyfloat * str :=
  if negb (truthy (PStr amount_str)) || str_eqb (lower amount_str) (u "nan")
  then (None, u "USD")
  else
    let amount_str := strip amount_str in
    let currency := detect_currency_from_amount amount_str in
    let cleaned := re_sub not_numeric [] amount_str in
    match cleaned with
    | [] => (None, currency)
    | _ =>
        let cleaned := resolve_separators cleaned in
        let is_negative := starts_with (u "-") cleaned in
        let cleaned :=
          replace_char (ch "+") [] (replace_char (ch "-") [] cleaned) in
        match cleaned with
        | [] => (None, u "USD")
        | _ =>
            match py_float cleaned with
            | None => (None, u "USD")
            | Some amount =>
                let amount :=
                  if is_negative then float_neg amount else amount in
                if out_of_range amount then (None, currency)
                else (Some amount, currency)
            end
        end
    end.

End Currency.


(** *** The validator

    The loop assigns to the dictionaries it is handed and returns those
    it keeps.  The dictionaries of the list are taken to be distinct
    objects, so that a turn of the loop is a function from the record
    handed in to the record kept. *)

Inductive level : Type := Warning | Info.

Record validation : Type := mk_validation {
  logged : list (level * str);
  returned : res (list record)
}.

(** [repr] of a list of plain words. *)
Definition repr_words (l : list str) : str :=
  u "[" ++ join (u ", ") (map (fun w => u "'" ++ w ++ u "'") l) ++ u "]".

Definition required_fields : list string :=
  ["date"; "description"; "amount"]%string.

Definition missing_fields (transaction : record) : list str :=
  map u
    (filter (fun field =>
               negb (has transaction field)
               || negb (truthy (dict_get_default str_eqb transaction
                                                 (u field) PNone)))
            required_fields).

(** [d[key]], raising [KeyError] on a missing key. *)
Definition item (d : record) (key : string) : res pyval :=
  match get d key with
  | Some v => Ok v
  | None => Raise (KeyError (u "'" ++ u key ++ u "'"))
  end.

(** [isinstance(v, (int, float))]. *)
Definition is_number (v : pyval) : bool :=
  match v with
  | PInt _ | PFloat _ | PBool _ => true
  | _ => false
  end.

(** [v < 0] for a number. *)
Definition negative (v : pyval) : bool :=
  match v with
  | PInt z => (z <? 0)%Z
  | PFloat f => float_ltb f (dec 0 0)
  | _ => false
  end.

Definition default (transaction : record) (key : string) (v : pyval)
    : record :=
  if has transaction key then transaction else set transaction key v.

(** What one turn of the loop does with a transaction: it is kept,
    cleaned and completed, or an error is recorded. *)
Inductive verdict : Type :=
| Valid (transaction : record)
| Invalid (error : str).

Definition validate_one (i : nat) (transaction : record) : verdict :=
  let label := u "Transaction " ++ str_of_N (N.of_nat (i + 1)) in
  let checked :=
    try_except
      (match missing_fields transaction with
       | (_ :: _) as missing =>
           Ok (Invalid (label ++ u ": Missing fields " ++ repr_words missing))
       | [] =>
           amount <- item transaction "amount" ;;
           match amount with
           | PNone => Ok (Invalid (label ++ u ": Amount is None"))
           | _ =>
               match (if is_number amount then Some amount
                      else option_map PFloat (py_float (py_str amount))) with
               | None =>
                   Ok (Invalid (label ++ u ": Cannot convert amount '"
                                ++ py_str amount ++ u "' to number"))
               | Some amount =>
                   let transaction := set transaction "amount" amount in
                   raw <- item transaction "description" ;;
                   let description := strip (py_str raw) in
                   if negb (truthy (PStr description))
                      || existsb (str_eqb (lower description))
                                 [u "nan"; u "null"; u ""]
                   then Ok (Invalid (label
                                     ++ u ": Empty or invalid description"))
                   else
                     let transaction :=
                       set transaction "description" (PStr description) in
                     let transaction :=
                       default transaction "currency" (PStr (u "USD")) in
                     let transaction :=
                       default transaction "confidence_score"
                               (PFloat (dec 7 (-1))) in
                     let transaction :=
                       default transaction "type"
                               (PStr (if negative amount then u "debit"
                                      else u "credit")) in
                     let transaction :=
                       default transaction "category" (PStr (u "other")) in
                     Ok (Valid transaction)
               end
           end
       end)
      (fun e => Ok (Invalid (label ++ u ": Validation error - "
                             ++ exn_str e))) in
  match checked with
  | Ok v => v
  | Raise e => Invalid (exn_str e)
  end.

(** The loop, with [valid_transactions] and [validation_errors]. *)
Fixpoint validate_loop (i : nat) (transactions : list record)
    (valid : list record) (errors : list str)
    : list record * list str :=
  match transactions with
  | [] => (valid, errors)
  | transaction :: rest =>
      match validate_one i transaction with
      | Valid t => validate_loop (S i) rest (valid ++ [t]) errors
      | Invalid e => validate_loop (S i) rest valid (errors ++ [e])
      end
  end.

Definition count (n : nat) : str := str_of_N (N.of_nat n).

Definition _validate_transactions (transactions : list record)
    : validation :=
  let '(valid_transactions, validation_errors) :=
    validate_loop 0 transactions [] [] in
  let warnings :=
    match validation_errors with
    | [] => []
    | _ =>
        (Warning, u "Transaction validation errors (showing first 5):")
        :: map (fun error => (Warning, u "  " ++ error))
               (firstn 5 validation_errors)
    end in
  match valid_transactions with
  | [] =>
      let error_summary :=
        match validation_errors with
        | [] => u "Unknown validation errors"
        | _ => join (u "; ") (firstn 3 validation_errors)
        end in
      mk_validation warnings
        (Raise (ValidationError
                  (u "No valid transactions found in file. Errors: "
                   ++ error_summary)))
  | _ =>
      mk_validation
        (warnings
         ++ [(Info, u "Successfully validated "
                    ++ count (List.length valid_transactions)
                    ++ u " transactions (rejected "
                    ++ count (List.length validation_errors) ++ u ")")])
        (Ok valid_transactions)
  end.

(** *** [validate_transaction]

    The pair of the verdict and its message. *)
Definition validate_transaction (transaction : record) : res (bool * str) :=
  match find (fun field => negb (has transaction field))
             ["date"; "description"; "amount"; "category"; "type"]%string with
  | Some field => Ok (false, u "Missing required field: " ++ u field)
  | None =>
      date <- item transaction "date" ;;
      description <- item transaction "description" ;;
      if negb (truthy date) || negb (truthy description)
      then Ok (false, u "Date and description cannot be empty")
      else
        amount <- item transaction "amount" ;;
        match amount with
        | PNone => Ok (false, u "Invalid amount")
        | _ => Ok (true, u "Transaction is valid")
        end
  end.

(** *** Rows

    [_ml_categorize] asks the trained model, and answers ['other', 0.0]
    when there is none or when it raises; [_rule_based_categorize] scores
    the tokens that [nltk] gives.  Both are taken as they answer. *)
Section Rows.

Variable is_word : char -> bool.
Variable now : datetime.
Variable _ml_categorize : str -> str * pyfloat.
Variable _rule_based_categorize : str -> res (str * pyfloat).

Definition _categorize_transaction (description : str)
    : res (str * pyfloat) :=
  if negb (truthy (PStr description))
     || negb (truthy (PStr (strip description)))
  then Ok (u "other", dec 0 0)
  else
    let description_clean := strip (lower description) in
    let '(ml_category, ml_confidence) := _ml_categorize description_clean in
    rule <- _rule_based_categorize description_clean ;;
    let '(rule_category, rule_confidence) := rule in
    if float_geb ml_confidence (dec 7 (-1))
    then Ok (ml_category, ml_confidence)
    else if float_geb rule_confidence (dec 8 (-1))
    then Ok (rule_category, rule_confidence)
    else if float_geb ml_confidence (dec 5 (-1))
    then Ok (ml_category, ml_confidence)
    else if float_geb rule_confidence (dec 5 (-1))
    then Ok (rule_category, rule_confidence)
    else if float_geb ml_confidence rule_confidence
    then Ok (ml_category, ml_confidence)
    else Ok (rule_category, rule_confidence).

(** The [try] block of [parse_transaction_row]. *)
Definition parse_row (row : DefensiveTransactionParser.row) : res record :=
  row_data <- DefensiveTransactionParser.to_dict row ;;
  let normalized_data :=
    fold_left
      (fun d kv =>
         dict_set str_eqb d (strip (lower (py_str (fst kv)))) (snd kv))
      row_data [] in
  let field := dict_get_default str_eqb normalized_data in
  let date_str := field (u "date") (PStr []) in
  let description := field (u "description") (PStr []) in
  let amount_str := py_str (field (u "amount") (PStr [])) in
  let trans_type := field (u "type") (PStr (u "Debit")) in
  let category := field (u "category") (PStr (u "Other")) in
  match _parse_date is_word now date_str with
  | None => Raise (ValueError (u "Invalid date: " ++ py_str date_str))
  | Some date_obj =>
      if negb (truthy (PStr amount_str))
         || existsb (str_eqb (strip amount_str)) [u ""; u "nan"; u "None"]
      then Raise (ValueError (u "Invalid amount: " ++ amount_str))
      else
        match _parse_amount is_word amount_str with
        | (None, _) =>
            Raise (ValueError (u "Could not parse amount: " ++ amount_str))
        | (Some amount_value, currency) =>
            let is_expense :=
              existsb (str_eqb (lower (py_str trans_type)))
                      [u "debit"; u "expense"; u "withdrawal"] in
            let transaction :=
              [(u "date", PStr (strftime_ymd date_obj));
               (u "description", PStr (strip (py_str description)));
               (u "amount", PFloat amount_value);
               (u "currency", PStr currency);
               (u "type", PStr (if is_expense then u "debit"
                                else u "credit"));
               (u "category", PStr (lower (strip (py_str category))));
               (u "confidence_score", PFloat (dec 7 (-1)))] in
            if existsb (str_eqb (lower (strip (py_str category))))
                       [u ""; u "other"]
            then
              categorized <-
                _categorize_transaction (strip (py_str description)) ;;
              let '(category, confidence) := categorized in
              Ok (set (set transaction "category" (PStr category))
                      "confidence_score" (PFloat confidence))
            else Ok transaction
        end
  end.

(** [parse_transaction_row]: the transaction, or [None] when the block
    raised.  With an index given the handler writes [dict(row)] to the
    log, which raises again for a row that is no mapping. *)
Definition parse_transaction_row (row : DefensiveTransactionParser.row)
    (index : option Z) : res (option record) :=
  match parse_row row with
  | Ok transaction => Ok (Some transaction)
  | Raise _ =>
      match index, row with
      | Some _, DefensiveTransactionParser.Other =>
          Raise (TypeError (u "object is not iterable"))
      | _, _ => Ok None
      end
  end.

End Rows.

End TransactionProcessor.

(** ** Tables

    A pandas [DataFrame] is kept row by row: the columns with their label
    and dtype, and the rows with their index label and one cell per
    column.  The dtypes are those [read_csv] gives; labels of columns are
    taken as distinct.  Columns of text have the dtype [object], as in
    pandas before version 3. *)

Inductive dtype : Type := DInt | DFloat | DBool | DObject.

(** [np.number]. *)
Definition numeric (d : dtype) : bool :=
  match d with
  | DInt | DFloat => true
  | _ => false
  end.

Record DataFrame : Type := mk_frame {
  columns : list (pyval * dtype);
  rows : list (Z * list pyval)
}.


(** The cells of the column at position [j]. *)
Definition column_cells (df : DataFrame) (j : nat) : list pyval :=
  map (fun r => nth j (snd r) (PFloat NaN)) (rows df).

Definition positions (df : DataFrame) : list nat :=
  seq 0 (List.length (columns df)).

(** Positions of the columns of [select_dtypes(include=[np.number])]. *)
Definition numeric_positions (df : DataFrame) : list nat :=
  filter (fun j => numeric (snd (nth j (columns df) (PNone, DObject))))
         (positions df).

(** [df.dropna(how='all')]. *)
Definition dropna_all (df : DataFrame) : DataFrame :=
  mk_frame (columns df)
           (filter (fun r => negb (forallb isna (snd r))) (rows df)).


(** [df.reset_index(drop=True)]. *)
Definition reset_index (df : DataFrame) : DataFrame :=
  mk_frame (columns df)
           (combine (map Z.of_nat (seq 0 (List.length (rows df))))
                    (map snd (rows df))).

(** [df.drop(idx)]: every row with that label goes; a label that is not
    in the index raises [KeyError]. *)
Definition drop (df : DataFrame) (idx : Z) : res DataFrame :=
  if existsb (fun r => (fst r =? idx)%Z) (rows df)
  then Ok (mk_frame (columns df)
                    (filter (fun r => negb (fst r =? idx)%Z) (rows df)))
  else Raise (KeyError (u "[" ++ str_of_Z idx ++ u "] not found in axis")).

(** The cells of the object columns go through [f]; the others stay. *)
Fixpoint on_object_columns (f : pyval -> pyval) (cols : list (pyval * dtype))
    (cells : list pyval) : list pyval :=
  match cols, cells with
  | (_, d) :: cols', x :: cells' =>
      (match d with DObject => f x | _ => x end)
      :: on_object_columns f cols' cells'
  | _, _ => cells
  end.

Definition map_object_cells (f : pyval -> pyval) (df : DataFrame)
    : DataFrame :=
  mk_frame (columns df)
           (map (fun r => (fst r, on_object_columns f (columns df) (snd r)))
                (rows df)).

(** [' '.join(str(val) for val in row.values if pd.notna(val))] for a
    row of a frame.  (In a frame of numeric columns only, pandas hands
    the integers of a row over as floats, which print with a fraction;
    no pattern applied to this text tells the two apart.) *)
Definition row_str (cells : list pyval) : str :=
  join (u " ") (map py_str (filter notna cells)).

Module RobustCSVProcessor.



Inductive strategy : Type :=
| StandardCSVStrategy
| DelimiterDetectionStrategy
| CorruptedColumnStrategy
| ManualMappingStrategy.



Section Chain.

(** What pandas reads from the file: [parse s] is
    [strategy.parse(file_path, analysis)] for the strategy [s], and
    [read_csv] the plain read of the manual recovery. *)
Variable parse : strategy -> res (option DataFrame).
Variable read_csv : res DataFrame.




End Chain.

End RobustCSVProcessor.

Module DataSanitizer.

Definition letter : regex := Cls is_ascii_alpha.
Definition currency_sign : regex := one_of (u "€$₹£¥₽₱₩").

(** [row.iloc[0]]. *)
Definition iloc0 (cells : list pyval) : res pyval :=
  match cells with
  | x :: _ => Ok x
  | [] => Raise (IndexError (u "single positional indexer is out-of-bounds"))
  end.

Definition detect_shifted_row (cells : list pyval) : res bool :=
  first <- iloc0 cells ;;
  let first_col := py_str first in
  Ok (is_match (re_search (at_least 3 letter) first_col)
      || is_match (re_search currency_sign first_col)).

(** [realign_row] returns the row as it is. *)
Definition realign_row (cells : list pyval) : list pyval := cells.

(** [df.loc[idx] = realign_row(df.loc[idx])]. *)
Definition realign (df : DataFrame) (idx : Z) : DataFrame :=
  mk_frame (columns df)
           (map (fun r => if (fst r =? idx)%Z
                          then (fst r, realign_row (snd r)) else r)
                (rows df)).

Fixpoint shifted_labels (rs : list (Z * list pyval)) : res (list Z) :=
  match rs with
  | [] => Ok []
  | (idx, cells) :: rest =>
      shifted <- detect_shifted_row cells ;;
      others <- shifted_labels rest ;;
      Ok (if shifted then idx :: others else others)
  end.

Definition fix_shifted_columns (df : DataFrame) : res DataFrame :=
  if (List.length (columns df) <? 3)%nat then Ok df
  else
    shifted_rows <- shifted_labels (rows df) ;;
    Ok (fold_left realign shifted_rows df).

(** The value of a numeric cell; a missing one has none. *)
Definition number (v : pyval) : option pyfloat :=
  match v with
  | PInt z => Some (float_of_Z z)
  | PFloat NaN => None
  | PFloat f => Some f
  | _ => None
  end.

Definition float_max (a b : pyfloat) : pyfloat :=
  if float_ltb a b then b else a.
Definition float_min (a b : pyfloat) : pyfloat :=
  if float_ltb b a then b else a.

(** [values.max()] and [values.min()], which skip missing cells and are
    NaN when nothing is left. *)
Definition extreme (pick : pyfloat -> pyfloat -> pyfloat)
    (values : list pyval) : pyfloat :=
  fold_left (fun acc v =>
               match number v, acc with
               | Some x, NaN => x
               | Some x, _ => pick acc x
               | None, _ => acc
               end) values NaN.

(** [f <= g]. *)
Definition float_leb (f g : pyfloat) : bool :=
  match f, g with
  | NaN, _ | _, NaN => false
  | _, _ => negb (float_ltb g f)
  end.

(** [s.zfill(width)]. *)
Definition zfill (width : nat) (s : str) : str :=
  if (width <=? List.length s)%nat then s
  else
    let fill := zeros (width - List.length s) in
    match s with
    | c :: rest =>
        if ((c =? ch "+") || (c =? ch "-"))%N then c :: fill ++ rest
        else fill ++ s
    | [] => fill
    end.

Fixpoint set_nth {A : Type} (j : nat) (x : A) (l : list A) : list A :=
  match l, j with
  | [], _ => []
  | _ :: t, O => x :: t
  | h :: t, S j' => h :: set_nth j' x t
  end.

Fixpoint remove_nth {A : Type} (j : nat) (l : list A) : list A :=
  match l, j with
  | [], _ => []
  | _ :: t, O => t
  | h :: t, S j' => h :: remove_nth j' t
  end.

(** The last two entries of a list. *)
Definition last_two (l : list nat) : option (nat * nat) :=
  match rev l with
  | b :: a :: _ => Some (a, b)
  | _ => None
  end.

Definition merged_cell (first second : pyval) : pyval :=
  PStr (py_str first ++ u "." ++ zfill 2 (py_str second)).

(** The test of [merge_split_currency_columns]: the last two numeric
    columns, when the first ten values of the second lie in 0..99. *)
Definition split_currency_columns (df : DataFrame) : option (nat * nat) :=
  match last_two (numeric_positions df) with
  | None => None
  | Some (a, b) =>
      let second_col_values := firstn 10 (column_cells df b) in
      if float_leb (extreme float_max second_col_values) (dec 99 0)
         && float_leb (dec 0 0) (extreme float_min second_col_values)
      then Some (a, b)
      else None
  end.

(** [df[a] = new_amount]: the column at [a] becomes the merged text. *)
Definition assign_merged (a b : nat) (df : DataFrame) : DataFrame :=
  let name := fst (nth a (columns df) (PNone, DObject)) in
  mk_frame
    (set_nth a (name, DObject) (columns df))
    (map (fun r =>
            let cells := snd r in
            let new_amount :=
              merged_cell (nth a cells (PFloat NaN))
                          (nth b cells (PFloat NaN)) in
            (fst r, set_nth a new_amount cells))
         (rows df)).

(** [df.drop(columns=[b])]. *)
Definition drop_column (b : nat) (df : DataFrame) : DataFrame :=
  mk_frame (remove_nth b (columns df))
           (map (fun r => (fst r, remove_nth b (snd r))) (rows df)).

Definition merge_split_currency_columns (df : DataFrame) : DataFrame :=
  match split_currency_columns df with
  | None => df
  | Some (a, b) => drop_column b (assign_merged a b df)
  end.

Section Unicode.

(** [unicodedata.normalize('NFKC', text)]. *)
Variable nfkc : str -> str.

(** The table [replacements], which maps each symbol to itself. *)
Definition replacements : list (char * str) :=
  [(ch "€", u "€"); (ch "₹", u "₹"); (ch "£", u "£"); (ch "¥", u "¥")].

Definition normalize_unicode_string (text : str) : str :=
  if str_eqb text (u "nan") then text
  else
    fold_left (fun normalized r => replace_char (fst r) (snd r) normalized)
              replacements (nfkc text).

(** [astype(str)] then [normalize_unicode_string], on the object
    columns. *)
Definition normalize_cell (v : pyval) : pyval :=
  PStr (normalize_unicode_string (py_str v)).

Definition normalize_unicode_symbols (df : DataFrame) : DataFrame :=
  map_object_cells normalize_cell df.

Definition quote_char (c : char) : bool := ((c =? 34) || (c =? 39))%N.

(** The pattern [^["\']|["\']$]. *)
Definition wrapping_quote : regex :=
  Alt (Seq Bol (Cls quote_char)) (Seq (Cls quote_char) Eol).

Definition clean_text (s : str) : str :=
  re_sub (plus (Cls is_space)) (u " ")
         (re_sub wrapping_quote [] (strip s)).

Definition clean_cell (v : pyval) : pyval :=
  match clean_text (py_str v) with
  | [] => PFloat NaN
  | s => PStr s
  end.

(** [replace('', np.nan)] ends with the conversion pandas applies to a
    column of objects after a replacement: a column in which every cell
    was empty is left with NaN only, and becomes a [float64] column. *)
Definition all_missing (cells : list pyval) : bool :=
  match cells with
  | [] => false
  | _ =>
      forallb (fun v => match v with PFloat NaN => true | _ => false end)
              cells
  end.

Fixpoint retype (df : DataFrame) (j : nat) (cols : list (pyval * dtype))
    : list (pyval * dtype) :=
  match cols with
  | [] => []
  | (name, DObject) :: rest =>
      (name, if all_missing (column_cells df j) then DFloat else DObject)
      :: retype df (S j) rest
  | c :: rest => c :: retype df (S j) rest
  end.

Definition clean_whitespace_and_quotes (df : DataFrame) : DataFrame :=
  let df := map_object_cells clean_cell df in
  mk_frame (retype df 0 (columns df)) (rows df).

Definition separator_row : regex :=
  seqs [Bol; plus (one_of (u "-=_")); Eol].

Definition header_row : regex :=
  Seq Bol (alts (map (fun w => ilit (u w))
                     ["date"; "description"; "amount"; "type";
                      "category"]%string)).

Definition artifact (cells : list pyval) : bool :=
  is_match (re_match separator_row (row_str cells))
  || is_match (re_match header_row (row_str cells)).

(** The loop over [df.iterrows()], which drops from the current
    frame the label of each row that is an artifact. *)
Fixpoint drop_artifacts (rs : list (Z * list pyval)) (df : DataFrame)
    : res DataFrame :=
  match rs with
  | [] => Ok df
  | (idx, cells) :: rest =>
      if artifact cells
      then df' <- drop df idx ;; drop_artifacts rest df'
      else drop_artifacts rest df
  end.

Definition fix_csv_artifacts (df : DataFrame) : res DataFrame :=
  let df := dropna_all df in
  df <- drop_artifacts (rows df) df ;;
  Ok (reset_index df).

Record changes : Type := mk_changes {
  rows_removed : Z;
  columns_changed : Z;
  empty_cells_before : nat;
  empty_cells_after : nat
}.

(** [df.isnull().sum().sum()]. *)
Definition null_cells (df : DataFrame) : nat :=
  list_sum (map (fun r => List.length (filter isna (snd r))) (rows df)).

Definition validate_sanitization (original_df sanitized_df : DataFrame)
    : changes :=
  mk_changes
    (Z.of_nat (List.length (rows original_df))
     - Z.of_nat (List.length (rows sanitized_df)))
    (Z.of_nat (List.length (columns original_df))
     - Z.of_nat (List.length (columns sanitized_df)))
    (null_cells original_df) (null_cells sanitized_df).

(** The body of the [try] block of [sanitize_csv_data], with the
    change report that is logged. *)
Definition sanitize_steps (df : DataFrame) : res (DataFrame * changes) :=
  let original_df := df in
  df <- fix_shifted_columns df ;;
  let df := merge_split_currency_columns df in
  let df := normalize_unicode_symbols df in
  let df := clean_whitespace_and_quotes df in
  df <- fix_csv_artifacts df ;;
  Ok (df, validate_sanitization original_df df).

(** [sanitize_csv_data] as a function of the table handed in to the
    table returned; [original_df] is the copy taken on entry. *)
Definition sanitize_csv_data (df : DataFrame) : DataFrame :=
  let original_df := df in
  match sanitize_steps df with
  | Ok (df, _) => df
  | Raise _ => original_df
  end.

End Unicode.

(** *** The sanitizer on the caller's object

    The table handed to [sanitize_csv_data] is an object.  The steps
    that assign to a row or to a column change it in place; [copy],
    [drop], [dropna] and [reset_index] build a new table.  The tables
    live in a heap, and the variables [df] and [original_df] of the code
    hold positions in it. *)
Module Objects.

Definition heap : Type := list DataFrame.

Definition deref (h : heap) (p : nat) : DataFrame :=
  nth p h (mk_frame [] []).

(** An assignment into the table at [p]. *)
Definition update (h : heap) (p : nat) (df : DataFrame) : heap :=
  set_nth p df h.

(** A new table, with its position. *)
Definition allocate (h : heap) (df : DataFrame) : heap * nat :=
  (h ++ [df], List.length h).

Section Unicode.

Variable nfkc : str -> str.

(** The [try] block: the five steps on the object at [df].  The heap
    comes back in either case, with what was assigned before a step
    raised. *)
Definition sanitize_steps (h : heap) (df : nat) : heap * res nat :=
  match fix_shifted_columns (deref h df) with
  | Raise e => (h, Raise e)
  | Ok realigned =>
      let h := update h df realigned in
      let '(h, df) :=
        match split_currency_columns (deref h df) with
        | None => (h, df)
        | Some (a, b) =>
            let h := update h df (assign_merged a b (deref h df)) in
            allocate h (drop_column b (deref h df))
        end in
      let h := update h df (normalize_unicode_symbols nfkc (deref h df)) in
      let h := update h df (clean_whitespace_and_quotes (deref h df)) in
      match fix_csv_artifacts (deref h df) with
      | Raise e => (h, Raise e)
      | Ok cleaned => let '(h, df) := allocate h cleaned in (h, Ok df)
      end
  end.

(** [sanitize_csv_data]: [original_df = df.copy()], the [try] block, and
    the handler that returns [original_df]. *)
Definition sanitize_csv_data (h : heap) (df : nat) : heap * nat :=
  let '(h, original_df) := allocate h (deref h df) in
  match sanitize_steps h df with
  | (h, Ok df) => (h, df)
  | (h, Raise _) => (h, original_df)
  end.

End Unicode.

End Objects.

End DataSanitizer.

Module ColumnDetector.

(** [self.column_patterns], in the order the dictionary is written. *)
Definition column_patterns : list (string * list string) :=
  [("date", ["date"; "transaction_date"; "posted_date"; "post_date";
             "trans_date"; "effective_date"; "settlement_date"]);
   ("description", ["description"; "merchant"; "payee";
                    "transaction_description"; "details"; "memo"; "note";
                    "payee_name"; "narrative"; "reference"]);
   ("amount", ["amount"; "debit"; "credit"; "transaction_amount"; "sum";
               "total"; "value"; "balance"; "transaction_value"]);
   ("type", ["type"; "transaction_type"; "trans_type"; "debit_credit";
             "dr_cr"; "direction"]);
   ("currency", ["currency"; "curr"; "ccy"])]%string.

(** The loop over the patterns of a field type. *)
Definition matches_patterns (patterns : list string) (col_lower : str)
    : bool :=
  existsb (fun pattern => is_match (re_search (lit (u pattern)) col_lower))
          patterns.

(** The loop over the field types for one column.  It stops at the
    first field type that is in [detected], whether this column or an
    earlier one put it there. *)
Fixpoint detect_column (fields : list (string * list string)) (col : pyval)
    (col_lower : str) (detected : list (str * pyval))
    : list (str * pyval) :=
  match fields with
  | [] => detected
  | (field_type, patterns) :: rest =>
      let detected :=
        if matches_patterns patterns col_lower
        then dict_set str_eqb detected (u field_type) col
        else detected in
      if dict_has str_eqb detected (u field_type) then detected
      else detect_column rest col col_lower detected
  end.

Definition detect_columns (df : DataFrame) : list (str * pyval) :=
  fold_left
    (fun detected c =>
       detect_column column_patterns (fst c) (strip (lower (py_str (fst c))))
                     detected)
    (columns df) [].

End ColumnDetector.

(* ================================================================= *)
(** * Part II.  Properties *)
(* ================================================================= *)

Example u_ascii : u "R$250,50" = [82; 36; 50; 53; 48; 44; 53; 48]%N.
Proof. reflexivity. Qed.

Example u_euro : u "€89,99" = [8364; 56; 57; 44; 57; 57]%N.
Proof. reflexivity. Qed.

Example rx_date_search :
  option_map m_text
    (re_search (Seq (times 4 digit) (Seq (chr (ch "-")) (times 2 digit)))
               (u "on 2024-01-15")) = Some (u "2024-01").
Proof. reflexivity. Qed.

Example rx_sub_ws :
  re_sub (plus (Cls is_space)) (u " ") (u "a  b   c") = u "a b c".
Proof. reflexivity. Qed.

Example rx_backtrack :
  option_map m_text
    (re_search (Seq (plus digit) (Seq (one_of (u ".,")) (times 2 digit)))
               (u "2024-01-15 12345.678")) = Some (u "12345.67").
Proof. reflexivity. Qed.

Example py_float_examples :
  map py_float [u "1234.56"; u "-5"; u "1.2.3"; u "+-5"; u "5."; u ".5";
                u "."; u "1e-5"; u "5_0"; u "5__0"; u " 5 "; u "٣.٥";
                u "-Infinity"; u "nan"; u ""; u "1_000.5"; u "1e1_0"]
  = [Some (dec 123456 (-2)); Some (dec (-5) 0); None; None; Some (dec 5 0);
     Some (dec 5 (-1)); None; Some (dec 1 (-5)); Some (dec 50 0); None;
     Some (dec 5 0); Some (dec 35 (-1)); Some (Inf true); Some NaN; None;
     Some (dec 10005 (-1)); Some (dec 1 10)].
Proof. reflexivity. Qed.

Example repr_float_examples :
  map repr_float [dec 1 16; dec 1 15; dec 1 (-4); dec 1 (-5); dec 12345 (-9);
                  dec 50000 (-1); dec (-5) (-1); dec 123456 (-2); dec 15 (-8);
                  dec 12 4; dec 0 3; dec 1 100]
  = [u "1e+16"; u "1000000000000000.0"; u "0.0001"; u "1e-05";
     u "1.2345e-05"; u "5000.0"; u "-0.5"; u "1234.56"; u "1.5e-07";
     u "120000.0"; u "0.0"; u "1e+100"].
Proof. reflexivity. Qed.

(** Rounding to binary64.  0.1, 0.9 and 1234.56 are no binary fractions;
    2^53 + 1 lies halfway between two floats and goes to the even one; a
    numeral beyond the largest float gives infinity, a numeral below the
    smallest one zero with its sign. *)
Example binary64_examples :
  map (fun x => dec (fst x) (snd x))
      [(1, -1); (9, -1); (123456, -2); (9007199254740993, 0); (1, 400);
       (-1, -400); (5, -324); (25, -325)]%Z
  = [Fin false 7205759403792794 (-56); Fin false 8106479329266893 (-53);
     Fin false 5429652300748554 (-42); Fin false 4503599627370496 1;
     Inf false; Fin true 0 0; Fin false 1 (-1074); Fin false 1 (-1074)].
Proof. vm_compute. reflexivity. Qed.

Example repr_shortest_examples :
  map repr_float [dec 1 (-1); dec 1234567890123456789 (-19);
                  Fin false 4503599627370497 (-2);
                  Fin false 4503599627370499 (-2); float_neg (dec 0 0);
                  dec 1 23; dec 10000000000000000000001 0]
  = [u "0.1"; u "0.12345678901234568"; u "1125899906842624.2";
     u "1125899906842624.8"; u "-0.0"; u "1e+23"; u "1e+22"].
Proof. vm_compute. reflexivity. Qed.

Definition ascii_word (c : char) : bool :=
  is_ascii_alpha c || is_adigit c || (c =? 95)%N.

Example mojibake_symbol : u "â‚¹" = [226; 8218; 185]%N.
Proof. reflexivity. Qed.

Example defensive_brl :
  DefensiveTransactionParser.parse_amount_with_currency (u "R$250,50")
  = AmountOk (dec 25050 (-2)) (u "USD").
Proof. reflexivity. Qed.

Example processor_brl :
  TransactionProcessor._parse_amount ascii_word (u "R$250,50")
  = (Some (dec 25050 (-2)), u "BRL").
Proof. reflexivity. Qed.

Example processor_examples :
  map (TransactionProcessor._parse_amount ascii_word)
      [u "1.234,56"; u "1,234.56"; u "-$100.50"; u "100.50 USD"; u "abc";
       u "1.2.3"; u "1,234,"; u "99999999999"; u "0.0000001"; u "45.20 GBP";
       u "xGBPx 3"]
  = [(Some (dec 123456 (-2)), u "USD"); (Some (dec 123456 (-2)), u "USD");
     (Some (dec (-10050) (-2)), u "USD"); (Some (dec 10050 (-2)), u "USD");
     (None, u "USD"); (None, u "USD"); (Some (dec 1234 0), u "USD");
     (None, u "USD"); (None, u "USD"); (Some (dec 4520 (-2)), u "GBP");
     (Some (dec 3 0), u "USD")].
Proof. reflexivity. Qed.

(** The bound is tested on the float: a numeral that rounds to
    1000000000 or to 0.000001 is within it, and so is minus zero. *)
Example amounts_at_the_bound :
  map (fun s => fst (TransactionProcessor._parse_amount ascii_word s))
      [u "1000000000.00000001"; u "1000000000.0000001";
       u "0.00000099999999999999999999"; u "0.0000009"; u "-0"]
  = [Some (dec 1 9); None; Some (dec 1 (-6)); None;
     Some (float_neg (dec 0 0))].
Proof. vm_compute. reflexivity. Qed.

Example strptime_examples :
  map (fun s => option_map strftime_ymd
                  (strptime s [DY; DLit (ch "-"); Dm; DLit (ch "-"); Dd]))
      [u "2024-1-5"; u "0000-01-01"; u "2024-02-30"; u "٢٠٢٤-01-05";
       u " 2024-01-05"; u "2024-01- 5"; u "2023-02-29"; u "2024-02-29"]
  = [Some (u "2024-01-05"); None; None; Some (u "2024-01-05"); None;
     Some (u "2024-01-05"); None; Some (u "2024-02-29")].
Proof. reflexivity. Qed.

Definition today : datetime := mk_datetime 2026 11 3 0 0 0.

Example scenario_a :
  DefensiveTransactionParser.parse_transaction_row today
    (DefensiveTransactionParser.Series
       [(PStr (u "Date"), PStr (u "2024-01-01"));
        (PStr (u "Description"), PStr (u "Salary"));
        (PStr (u "Amount"), PFloat (dec 50000 (-1)));
        (PStr (u "Type"), PStr (u "Credit"));
        (PStr (u "Category"), PStr (u "Income"))]) None
  = Ok (DefensiveTransactionParser.succeeded "standard_parsing"
          (DefensiveTransactionParser.make_transaction
             (u "2024-01-01") (u "Salary") (dec 50000 (-1)) (u "USD")
             (u "credit") (u "income") (dec 9 (-1)))
          (dec 9 (-1))).
Proof. reflexivity. Qed.

Example fuzzy_row :
  option_map DefensiveTransactionParser.strategy_used
    (match DefensiveTransactionParser.parse_transaction_row today
             (DefensiveTransactionParser.Series
                [(PStr (u "When"), PStr (u "2024-01-14"));
                 (PStr (u "What"), PStr (u "Coffee Shop"));
                 (PStr (u "How much"), PStr (u "€5,50"))]) None with
     | Ok r => Some r | Raise _ => None end)
  = Some (u "fuzzy_column_matching").
Proof. reflexivity. Qed.

Example emergency_row :
  match DefensiveTransactionParser.parse_transaction_row today
          (DefensiveTransactionParser.Series
             [(PInt 0, PStr (u "paid 12 to X"))]) None with
  | Ok r => DefensiveTransactionParser.transaction r
  | Raise _ => None
  end
  = Some (DefensiveTransactionParser.make_transaction
            (u "2026-11-03") (u "Unknown transaction") (dec 12 0) (u "USD")
            (u "credit") (u "other") (dec 2 (-1))).
Proof. reflexivity. Qed.

Example dict_row_all_failed :
  DefensiveTransactionParser.parse_transaction_row today
    (DefensiveTransactionParser.Dict [(PStr (u "a"), PStr (u "12"))]) None
  = Ok DefensiveTransactionParser.all_failed.
Proof. reflexivity. Qed.

(** ** Strings and patterns *)

Lemma str_eqb_spec a b : reflect (a = b) (str_eqb a b).
Proof.
  revert b. induction a as [| x a IH]; intros [| y b]; simpl;
    try (constructor; congruence).
  destruct (N.eqb_spec x y) as [-> | Hne]; simpl.
  - destruct (IH b) as [-> | Hne]; constructor; congruence.
  - constructor. congruence.
Qed.

Lemma str_eqb_refl a : str_eqb a a = true.
Proof. destruct (str_eqb_spec a a); congruence. Qed.

Lemma starts_with_contains p s : starts_with p s = true -> contains p s = true.
Proof. destruct s; simpl; intros ->; reflexivity. Qed.

Lemma contains_tail c p s : contains (c :: p) s = true -> contains p s = true.
Proof.
  induction s as [| x s IH]; simpl.
  - discriminate.
  - intros H. apply orb_true_iff in H. destruct H as [H | H].
    + apply andb_true_iff in H. destruct H as [_ H].
      apply starts_with_contains in H.
      rewrite H. apply orb_true_r.
    + rewrite (IH H). apply orb_true_r.
Qed.

(** The character before the position reached by a literal. *)
Definition after_lit (p : str) (prev : option char) : option char :=
  match rev p with
  | c :: _ => Some c
  | [] => prev
  end.

Lemma after_lit_cons c p prev : after_lit (c :: p) prev = after_lit p (Some c).
Proof.
  unfold after_lit. simpl.
  destruct (rev p) as [| x t] eqn:E; reflexivity.
Qed.

(** A literal matches where the text starts with it. *)
Lemma rx_lit (A : Type) p : forall prev s caps
    (k : option char -> str -> captures -> option A),
  rx (lit p) prev s caps k
  = if starts_with p s
    then k (after_lit p prev) (skipn (List.length p) s) caps
    else None.
Proof.
  induction p as [| c p IH]; intros prev s caps k.
  - reflexivity.
  - rewrite after_lit_cons.
    assert (Hstep : rx (Seq (chr c) (lit p)) prev s caps k
                    = if starts_with (c :: p) s
                      then k (after_lit p (Some c))
                             (skipn (List.length (c :: p)) s) caps
                      else None).
    { simpl. destruct s as [| x s]; [reflexivity |].
      destruct (N.eqb_spec c x) as [-> | Hne]; simpl; [apply IH | reflexivity]. }
    destruct p as [| c' p']; [| exact Hstep].
    simpl. destruct s as [| x s]; [reflexivity |].
    destruct (N.eqb_spec c x) as [-> | Hne]; reflexivity.
Qed.

Lemma match_here_lit p prev s before :
  is_match (match_here (lit p) prev s before) = starts_with p s.
Proof.
  unfold match_here. rewrite rx_lit.
  destruct (starts_with p s); reflexivity.
Qed.

Lemma search_from_lit p : forall s prev before,
  is_match (search_from (lit p) prev s before) = contains p s.
Proof.
  induction s as [| x s IH]; intros prev before; simpl.
  - pose proof (match_here_lit p prev [] (rev before)) as H.
    destruct (match_here (lit p) prev [] (rev before));
      simpl in H; rewrite <- H; reflexivity.
  - pose proof (match_here_lit p prev (x :: s) (rev before)) as H.
    destruct (match_here (lit p) prev (x :: s) (rev before));
      simpl in H; rewrite <- H; simpl; [reflexivity | apply IH].
Qed.

(** [re.search] of a literal is the substring test. *)
Lemma re_search_lit p s : is_match (re_search (lit p) s) = contains p s.
Proof. apply search_from_lit. Qed.

(** Substitution where the pattern matches nowhere. *)
Fixpoint unmatched (r : regex) (prev : option char) (s : str) : Prop :=
  match_here r prev s [] = None
  /\ match s with
     | [] => True
     | c :: s' => unmatched r (Some c) s'
     end.

Lemma sub_loop_unmatched r repl : forall fuel prev s,
  (List.length s < fuel)%nat ->
  unmatched r prev s ->
  sub_loop fuel r repl prev s = s.
Proof.
  induction fuel as [| fuel IH]; intros prev s Hlen Hs; [lia |].
  destruct s as [| c s]; destruct Hs as [Hm Hrest];
    cbn [sub_loop]; rewrite Hm; [reflexivity |].
  f_equal. apply IH; [simpl in Hlen; lia | exact Hrest].
Qed.

Lemma re_sub_unmatched r repl s :
  unmatched r None s -> re_sub r repl s = s.
Proof.
  intros H. unfold re_sub. apply sub_loop_unmatched; [lia | exact H].
Qed.

(** ** Currency detection *)

(** In the defensive parser every text with a dollar sign is taken for
    euros or US dollars: its entries [C$], [A$], [R$], [S$], [HK$] and
    [NZ$] come after the dollar sign and are never reached. *)
Lemma defensive_dollar_first s :
  contains (u "$") s = true ->
  DefensiveTransactionParser.detect_currency
    DefensiveTransactionParser.currency_symbols s (u "USD") = u "EUR"
  \/ DefensiveTransactionParser.detect_currency
       DefensiveTransactionParser.currency_symbols s (u "USD") = u "USD".
Proof.
  intros H.
  unfold DefensiveTransactionParser.currency_symbols.
  cbn [DefensiveTransactionParser.detect_currency].
  destruct (contains (u "€") s); [left; reflexivity |].
  rewrite H. right. reflexivity.
Qed.

Section ProcessorCurrency.
Variable is_word : char -> bool.

Lemma first_pattern_among pre rest s default :
  (exists rc, In rc pre /\ is_match (re_search (fst rc) s) = true) ->
  In (TransactionProcessor.first_pattern (pre ++ rest) s default)
     (map snd pre).
Proof.
  induction pre as [| [r c] pre IH]; intros [rc [Hin Hm]].
  - destruct Hin.
  - simpl. destruct (is_match (re_search r s)) eqn:E.
    + left. reflexivity.
    + right. apply IH. destruct Hin as [<- | Hin].
      * simpl in Hm. congruence.
      * eauto.
Qed.

(** In [detect_currency_from_amount] a text that holds one of the
    prefixes [C$], [A$], [R$], [RM], [S$], [HK$], [NZ$], [Rp] gets the
    currency of a prefix, whatever single symbols it holds as well. *)
Lemma processor_prefix_first amount_str prefix currency :
  In (prefix, currency) TransactionProcessor.prefix_table ->
  contains (u prefix) (strip amount_str) = true ->
  In (TransactionProcessor.detect_currency_from_amount is_word amount_str)
     (map (fun pc => u (snd pc)) TransactionProcessor.prefix_table).
Proof.
  intros Hin Hc.
  unfold TransactionProcessor.detect_currency_from_amount.
  destruct (truthy (PStr amount_str)) eqn:Ht; simpl negb; cbv iota.
  - unfold TransactionProcessor.currency_patterns.
    rewrite <- (map_map (fun pc => (TransactionProcessor.symbol (fst pc),
                                    u (snd pc))) snd).
    apply first_pattern_among.
    exists (TransactionProcessor.symbol prefix, u currency). split.
    + apply (in_map (fun pc => (TransactionProcessor.symbol (fst pc),
                                u (snd pc))) _ _ Hin).
    + simpl. unfold TransactionProcessor.symbol.
      rewrite re_search_lit. exact Hc.
  - destruct amount_str; [| discriminate].
    exfalso. clear - Hin Hc.
    simpl in Hin.
    repeat (destruct Hin as [Hin | Hin];
            [inversion Hin; subst; discriminate |]).
    destruct Hin.
Qed.

End ProcessorCurrency.

(** [C1] The token "R$250,50".  [parse_amount_with_currency] goes through
    its symbols in the order of its dictionary, where the dollar sign
    comes before [R$]: it returns 250.50 in USD.  [_parse_amount] tests
    the prefixes first and returns 250.50 in BRL. *)
Theorem prefix_token_currency :
  DefensiveTransactionParser.parse_amount_with_currency (u "R$250,50")
  = AmountOk (dec 25050 (-2)) (u "USD")
  /\ (forall is_word,
        TransactionProcessor._parse_amount is_word (u "R$250,50")
        = (Some (dec 25050 (-2)), u "BRL")).
Proof. split; [| intros is_word]; reflexivity. Qed.

(** ** The row ladder *)

Module LadderFacts.
Import DefensiveTransactionParser.

(** What a strategy named [name] with score [score] may return: a
    failure under its own name, or a success that carries a transaction
    built by [make_transaction] with that score. *)
Definition outcome_of (name : string) (score : pyfloat)
    (result : ParsingResult) : Prop :=
  (exists message, result = failure name message)
  \/ (exists date description amount currency type category,
        result = succeeded name
                   (make_transaction date description amount currency
                                     type category score) score
        /\ (type = u "debit" \/ type = u "credit")).

Lemma failure_outcome name score message :
  outcome_of name score (failure name message).
Proof. left. eauto. Qed.

Lemma sign_type_cases amount :
  sign_type amount = u "debit" \/ sign_type amount = u "credit".
Proof. unfold sign_type. destruct (float_ltb _ _); auto. Qed.

Lemma success_outcome name score date description amount currency type
    category :
  type = u "debit" \/ type = u "credit" ->
  outcome_of name score
    (succeeded name
       (make_transaction date description amount currency type category
                         score) score).
Proof. intro H. right. do 6 eexists. split; [reflexivity | exact H]. Qed.

Create HintDb ladder.
#[local] Hint Resolve failure_outcome success_outcome sign_type_cases
  : ladder.

(** A [try] block whose handler returns a failure never raises. *)
Lemma try_except_outcome (P : ParsingResult -> Prop) body handler :
  match body with
  | Ok result => P result
  | Raise e => P (handler e)
  end ->
  exists result,
    try_except body (fun e => Ok (handler e)) = Ok result /\ P result.
Proof. destruct body; simpl; eauto. Qed.

(** Case analysis on the innermost scrutinee first. *)
Ltac split_cases :=
  repeat (match goal with
          | |- context [match ?x with _ => _ end] =>
              lazymatch x with
              | context [match _ with _ => _ end] => fail
              | _ => destruct x eqn:?
              end
          end; cbv beta iota).

Ltac strategy_outcome :=
  apply try_except_outcome; unfold bind; split_cases; auto with ladder.

Lemma standard_parsing_outcome r index :
  exists result,
    standard_parsing r index = Ok result
    /\ outcome_of "standard_parsing" (dec 9 (-1)) result.
Proof. unfold standard_parsing. strategy_outcome. Qed.

Lemma fuzzy_column_matching_outcome r index :
  exists result,
    fuzzy_column_matching r index = Ok result
    /\ outcome_of "fuzzy_column_matching" (dec 7 (-1)) result.
Proof. unfold fuzzy_column_matching. strategy_outcome. Qed.

Lemma pattern_based_extraction_outcome r index :
  exists result,
    pattern_based_extraction r index = Ok result
    /\ outcome_of "pattern_based_extraction" (dec 6 (-1)) result.
Proof. unfold pattern_based_extraction. strategy_outcome. Qed.

Lemma manual_field_detection_outcome r index :
  exists result,
    manual_field_detection r index = Ok result
    /\ outcome_of "manual_field_detection" (dec 5 (-1)) result.
Proof. unfold manual_field_detection. strategy_outcome. Qed.

Lemma emergency_fallback_outcome now r index :
  exists result,
    emergency_fallback now r index = Ok result
    /\ outcome_of "emergency_fallback" (dec 2 (-1)) result.
Proof. unfold emergency_fallback. strategy_outcome. Qed.

(** The score the specification gives each strategy. *)
Definition strategy_confidence : list (str * pyfloat) :=
  [(u "standard_parsing", dec 9 (-1));
   (u "fuzzy_column_matching", dec 7 (-1));
   (u "pattern_based_extraction", dec 6 (-1));
   (u "manual_field_detection", dec 5 (-1));
   (u "emergency_fallback", dec 2 (-1))].

Definition transaction_fields : list string :=
  ["date"; "description"; "amount"; "currency"; "type"; "category";
   "confidence_score"]%string.



Lemma each_strategy_outcome now name f r index :
  In (name, f) (strategies now) ->
  exists (label : string) score result,
    name = u label /\ In (name, score) strategy_confidence
    /\ f r index = Ok result /\ outcome_of label score result.
Proof.
  intros H. simpl in H.
  destruct H as [H | [H | [H | [H | [H | []]]]]]; inversion H; subst.
  - destruct (standard_parsing_outcome r index) as [x [? ?]].
    exists "standard_parsing"%string, (dec 9 (-1)), x. simpl. auto.
  - destruct (fuzzy_column_matching_outcome r index) as [x [? ?]].
    exists "fuzzy_column_matching"%string, (dec 7 (-1)), x. simpl. auto.
  - destruct (pattern_based_extraction_outcome r index) as [x [? ?]].
    exists "pattern_based_extraction"%string, (dec 6 (-1)), x.
    simpl. auto 6.
  - destruct (manual_field_detection_outcome r index) as [x [? ?]].
    exists "manual_field_detection"%string, (dec 5 (-1)), x.
    simpl. auto 7.
  - destruct (emergency_fallback_outcome now r index) as [x [? ?]].
    exists "emergency_fallback"%string, (dec 2 (-1)), x. simpl. auto 8.
Qed.

(** The loop never raises, whatever its strategies do: it returns the
    result of a strategy that succeeded, or [all_failed]. *)
Lemma try_strategies_total ss r index :
  exists result,
    try_strategies ss r index = Ok result
    /\ (result = all_failed
        \/ exists name f,
             In (name, f) ss /\ f r index = Ok result
             /\ success result = true).
Proof.
  induction ss as [| [name f] rest IH]; simpl.
  - eauto.
  - unfold attempt, try_except, bind.
    destruct (f r index) as [result | e] eqn:Hf.
    + destruct (success result) eqn:Hs.
      * exists result. split; [reflexivity |].
        right. exists name, f. auto.
      * destruct IH as [x [Hx [Ha | [n [g [Hin Hg]]]]]];
          exists x; (split; [exact Hx |]); [left | right]; eauto.
    + destruct IH as [x [Hx [Ha | [n [g [Hin Hg]]]]]];
        exists x; (split; [exact Hx |]); [left | right]; eauto.
Qed.

Lemma successful_outcome label score result :
  outcome_of label score result -> success result = true ->
  exists date description amount currency type category,
    result = succeeded label
               (make_transaction date description amount currency type
                                 category score) score
    /\ (type = u "debit" \/ type = u "credit").
Proof.
  intros [[message ->] | H] Hs; [discriminate | exact H].
Qed.

(** The result of the loop, when it is a success, is the result of the
    first strategy of the list that succeeds on the row: the strategies
    before it returned a failure or raised. *)
Lemma first_success ss r index result :
  try_strategies ss r index = Ok result ->
  success result = true ->
  exists earlier name f later,
    ss = earlier ++ (name, f) :: later
    /\ f r index = Ok result
    /\ Forall (fun s => forall x, snd s r index = Ok x -> success x = false)
              earlier.
Proof.
  intros Hrun Hs. revert Hrun.
  induction ss as [| [n g] rest IH]; simpl.
  - intros H. inversion H; subst. discriminate.
  - unfold attempt, try_except, bind.
    destruct (g r index) as [y | e] eqn:Hg.
    + destruct (success y) eqn:Hy.
      * intros H. inversion H; subst.
        exists [], n, g, rest. auto.
      * intros H. destruct (IH H) as [ea [nm [f [la [-> [Hf Hall]]]]]].
        exists ((n, g) :: ea), nm, f, la. split; [reflexivity |].
        split; [exact Hf |]. constructor; [| exact Hall].
        simpl. intros x Hx. congruence.
    + intros H. destruct (IH H) as [ea [nm [f [la [-> [Hf Hall]]]]]].
      exists ((n, g) :: ea), nm, f, la. split; [reflexivity |].
      split; [exact Hf |]. constructor; [| exact Hall].
      simpl. intros x Hx. congruence.
Qed.

Lemma pair_parts (A B : Type) (a a' : A) (b b' : B) :
  (a, b) = (a', b') -> a = a' /\ b = b'.
Proof. intros H. split; [exact (f_equal fst H) | exact (f_equal snd H)]. Qed.

(** The table of the confidences names each strategy once. *)
Lemma strategy_confidence_one name score score' :
  In (name, score) strategy_confidence ->
  In (name, score') strategy_confidence -> score = score'.
Proof.
  unfold strategy_confidence. cbn [In]. intros H H'.
  repeat (destruct H as [H | H]; [apply pair_parts in H; destruct H as [Hn Hs] |]);
    [.. | contradiction];
    repeat (destruct H' as [H' | H'];
            [apply pair_parts in H'; destruct H' as [Hn' Hs'] |]);
    try contradiction;
    subst name;
    first [ rewrite <- Hs, <- Hs'; reflexivity
          | exfalso; vm_compute in Hn'; discriminate Hn' ].
Qed.

End LadderFacts.

(** [C3] Every row the ladder resolves carries the confidence of the
    strategy that resolved it.  The strategy named in [strategy_used] is
    one of the list; it ran on the row and returned this very result,
    after every strategy before it in the list had failed or raised.
    The confidence is the one the table gives for that name and no
    other: 0.9 for the standard strategy, 0.7 for fuzzy column matching,
    0.6 for pattern-based extraction, 0.5 for manual field detection and
    0.2 for the emergency fallback; the transaction's [confidence_score]
    and the result's [confidence] are that same value. *)
Theorem ladder_confidence now r index result :
  DefensiveTransactionParser.parse_transaction_row now r index = Ok result ->
  DefensiveTransactionParser.success result = true ->
  exists earlier f later t score,
    DefensiveTransactionParser.strategies now
    = earlier
      ++ (DefensiveTransactionParser.strategy_used result, f) :: later
    /\ Forall (fun s => forall x, snd s r index = Ok x ->
                 DefensiveTransactionParser.success x = false) earlier
    /\ f r index = Ok result
    /\ In (DefensiveTransactionParser.strategy_used result, score)
          LadderFacts.strategy_confidence
    /\ (forall other,
          In (DefensiveTransactionParser.strategy_used result, other)
             LadderFacts.strategy_confidence -> other = score)
    /\ DefensiveTransactionParser.transaction result = Some t
    /\ get t "confidence_score" = Some (PFloat score)
    /\ DefensiveTransactionParser.confidence result = score.
Proof.
  intros Hrun Hs.
  unfold DefensiveTransactionParser.parse_transaction_row in Hrun.
  destruct (LadderFacts.first_success _ _ _ Hrun Hs)
    as [earlier [name [f [later [E [Hf Hall]]]]]].
  assert (Hin : In (name, f) (DefensiveTransactionParser.strategies now))
    by (rewrite E; apply in_elt).
  destruct (LadderFacts.each_strategy_outcome r index Hin)
    as [label [score [x [-> [Hscore [Hfx Hout]]]]]].
  rewrite Hf in Hfx. inversion Hfx; subst x; clear Hfx.
  destruct (LadderFacts.successful_outcome Hout Hs)
    as [d [ds [a [c [ty [cat [-> _]]]]]]].
  exists earlier, f, later. eexists. exists score.
  cbn [DefensiveTransactionParser.strategy_used
       DefensiveTransactionParser.succeeded
       DefensiveTransactionParser.transaction
       DefensiveTransactionParser.confidence].
  split; [exact E |]. split; [exact Hall |]. split; [exact Hf |].
  split; [exact Hscore |].
  split.
  { intros other Hother.
    exact (LadderFacts.strategy_confidence_one Hother Hscore). }
  split; [reflexivity |]. split; reflexivity.
Qed.

Definition scenario_a_row : DefensiveTransactionParser.row :=
  DefensiveTransactionParser.Series
    [(PStr (u "Date"), PStr (u "2024-01-01"));
     (PStr (u "Description"), PStr (u "Salary"));
     (PStr (u "Amount"), PFloat (dec 50000 (-1)));
     (PStr (u "Type"), PStr (u "Credit"));
     (PStr (u "Category"), PStr (u "Income"))].

Definition scenario_a_result : DefensiveTransactionParser.ParsingResult :=
  DefensiveTransactionParser.succeeded "standard_parsing"
    (DefensiveTransactionParser.make_transaction
       (u "2024-01-01") (u "Salary") (dec 50000 (-1)) (u "USD")
       (u "credit") (u "income") (dec 9 (-1)))
    (dec 9 (-1)).

Lemma ladder_confidence_witness :
  DefensiveTransactionParser.parse_transaction_row today scenario_a_row None
  = Ok scenario_a_result
  /\ DefensiveTransactionParser.success scenario_a_result = true
  /\ exists earlier f later t score,
       DefensiveTransactionParser.strategies today
       = earlier
         ++ (DefensiveTransactionParser.strategy_used scenario_a_result, f)
            :: later
       /\ Forall (fun s => forall x, snd s scenario_a_row None = Ok x ->
                    DefensiveTransactionParser.success x = false) earlier
       /\ f scenario_a_row None = Ok scenario_a_result
       /\ In (DefensiveTransactionParser.strategy_used scenario_a_result,
              score) LadderFacts.strategy_confidence
       /\ (forall other,
             In (DefensiveTransactionParser.strategy_used scenario_a_result,
                 other) LadderFacts.strategy_confidence -> other = score)
       /\ DefensiveTransactionParser.transaction scenario_a_result = Some t
       /\ get t "confidence_score" = Some (PFloat score)
       /\ DefensiveTransactionParser.confidence scenario_a_result = score.
Proof.
  split; [reflexivity |]. split; [reflexivity |].
  apply (@ladder_confidence today scenario_a_row None scenario_a_result);
    reflexivity.
Defined.


(** A strategy that raises inside: [row.values] of a dictionary. *)
Example caught_exception :
  DefensiveTransactionParser.pattern_based_extraction
    (DefensiveTransactionParser.Dict [(PStr (u "a"), PStr (u "12"))]) None
  = Ok (DefensiveTransactionParser.failure "pattern_based_extraction"
          (u "'builtin_function_or_method' object is not iterable")).
Proof. reflexivity. Qed.

(** A row whose description is a single space. *)
Definition blank_description_row : DefensiveTransactionParser.row :=
  DefensiveTransactionParser.Series
    [(PStr (u "date"), PStr (u "2024-01-01"));
     (PStr (u "description"), PStr (u " "));
     (PStr (u "amount"), PStr (u "5"))].

(** [C10] A row whose description is blank.  [standard_parsing] tests the
    description before it strips it, and returns a success whose
    description is the empty string; this is what
    [parse_transaction_row] returns for the row. *)
Theorem blank_description_success :
  let result :=
    DefensiveTransactionParser.succeeded "standard_parsing"
      (DefensiveTransactionParser.make_transaction
         (u "2024-01-01") [] (dec 5 0) (u "USD") (u "debit") (u "other")
         (dec 9 (-1)))
      (dec 9 (-1)) in
  DefensiveTransactionParser.standard_parsing blank_description_row None
  = Ok result
  /\ (forall now index,
        DefensiveTransactionParser.parse_transaction_row
          now blank_description_row index
        = Ok result)
  /\ option_map (fun t => get t "description")
                (DefensiveTransactionParser.transaction result)
     = Some (Some (PStr [])).
Proof.
  split; [vm_compute; reflexivity |].
  split; [intros now index; vm_compute; reflexivity |].
  vm_compute. reflexivity.
Qed.

Example validator_test_file :
  TransactionProcessor._validate_transactions
    [[(u "date", PStr (u "2024-01-15"));
      (u "description", PStr (u "Test transaction 2"));
      (u "amount", PStr (u "150.00")); (u "currency", PStr (u "INR"))];
     [(u "date", PStr (u "2024-01-15")); (u "description", PStr (u " "));
      (u "amount", PInt 3)];
     [(u "date", PStr (u "2024-01-15"));
      (u "description", PStr (u "Test transaction 4"));
      (u "amount", PFloat (dec (-500) (-1)))]]
  = TransactionProcessor.mk_validation
      [(TransactionProcessor.Warning,
        u "Transaction validation errors (showing first 5):");
       (TransactionProcessor.Warning,
        u "  Transaction 2: Empty or invalid description");
       (TransactionProcessor.Info,
        u "Successfully validated 2 transactions (rejected 1)")]
      (Ok [[(u "date", PStr (u "2024-01-15"));
            (u "description", PStr (u "Test transaction 2"));
            (u "amount", PFloat (dec 15000 (-2)));
            (u "currency", PStr (u "INR"));
            (u "confidence_score", PFloat (dec 7 (-1)));
            (u "type", PStr (u "credit")); (u "category", PStr (u "other"))];
           [(u "date", PStr (u "2024-01-15"));
            (u "description", PStr (u "Test transaction 4"));
            (u "amount", PFloat (dec (-500) (-1)));
            (u "currency", PStr (u "USD"));
            (u "confidence_score", PFloat (dec 7 (-1)));
            (u "type", PStr (u "debit")); (u "category", PStr (u "other"))]]).
Proof. vm_compute. reflexivity. Qed.

Definition text_frame (names : list string) (data : list (list string))
    : DataFrame :=
  mk_frame (map (fun n => (PStr (u n), DObject)) names)
           (combine (map Z.of_nat (seq 0 (List.length data)))
                    (map (map (fun c => PStr (u c))) data)).

Example sanitize_test_file :
  DataSanitizer.sanitize_csv_data (fun s => s)
    (text_frame ["Date"; "Description"; "Amount"]%string
       [["2024-01-15"; "  Test   Transaction  "; "€12,50"];
        ["------"; ""; " "];
        ["Date"; "Description"; "Amount"];
        ["2024-01-14"; "'Quoted Description'"; "€25.00"]]%string)
  = mk_frame [(PStr (u "Date"), DObject); (PStr (u "Description"), DObject);
              (PStr (u "Amount"), DObject)]
      [(0%Z, [PStr (u "2024-01-15"); PStr (u "Test Transaction");
              PStr (u "€12,50")]);
       (1%Z, [PStr (u "2024-01-14"); PStr (u "Quoted Description");
              PStr (u "€25.00")])].
Proof. vm_compute. reflexivity. Qed.

(** ** The structural gate *)

Module GateFacts.
Import RobustCSVProcessor.

(** A continuation that accepts every position. *)
Definition accepting (A : Type)
    (k : option char -> str -> captures -> option A) : Prop :=
  forall prev s caps, k prev s caps <> None.

(** A pattern that matches at every position, possibly nothing. *)
Definition always (r : regex) : Prop :=
  forall (A : Type) (k : option char -> str -> captures -> option A),
    accepting k -> accepting (fun prev s caps => rx r prev s caps k).

Lemma always_star a : always (Star a).
Proof.
  intros A k Hk prev s caps. simpl.
  generalize (List.length s) at 1. intros n. revert prev s caps.
  induction n as [| n IH]; intros prev s caps.
  - apply Hk.
  - destruct (rx a prev s caps _) eqn:E; [discriminate | apply Hk].
Qed.

Lemma always_opt a : always (opt a).
Proof.
  intros A k Hk prev s caps. unfold opt. simpl.
  destruct (rx a prev s caps k); [discriminate | apply Hk].
Qed.

Lemma always_seq a b : always a -> always b -> always (Seq a b).
Proof.
  intros Ha Hb A k Hk prev s caps. simpl.
  apply (Ha A (fun p' s' c' => rx b p' s' c' k)).
  apply Hb. exact Hk.
Qed.





End GateFacts.

(** A cell of text makes a table pass the gate as soon as it holds one
    digit. *)
Definition holds_digit (v : pyval) : bool := existsb is_digit (py_str v).







Example processor_dates :
  map (fun d => option_map strftime_ymd
                  (TransactionProcessor._parse_date ascii_word today
                                                    (PStr d)))
      [u "15 Jan 2024"; u "01/15/24"; u "Jan/15/2024"; u "02/29";
       u "12-25"; u "99/99/9999"; u "2024-01-15 10:30:00"]
  = [None; Some (u "2024-01-15"); Some (u "2024-01-15"); None;
     Some (u "2026-12-25"); None; Some (u "2024-01-15")].
Proof. vm_compute. reflexivity. Qed.

(** ** The validator *)

Module ValidatorFacts.
Import TransactionProcessor.

(** The field is there and its value is not empty. *)
Definition present (t : record) (k : string) : bool :=
  truthy (dict_get_default str_eqb t (u k) PNone).

Definition field (t : record) (k : string) : pyval :=
  dict_get_default str_eqb t (u k) PNone.

(** The amount as a number: a number stays, anything else is read as a
    float from its text. *)
Definition converted (a : pyval) : option pyval :=
  if is_number a then Some a
  else option_map PFloat (py_float (py_str a)).

Definition description_text (t : record) : str :=
  strip (py_str (field t "description")).

(** The description is empty or one of the words for a missing value. *)
Definition blank (d : str) : bool :=
  negb (truthy (PStr d))
  || existsb (str_eqb (lower d)) [u "nan"; u "null"; u ""].

(** The test of the code. *)
Definition accepts (t : record) : bool :=
  present t "date" && present t "description" && present t "amount"
  && (match converted (field t "amount") with
      | Some _ => true
      | None => false
      end)
  && negb (blank (description_text t)).

(** The transaction a survivor becomes. *)
Definition completed (t : record) : record :=
  match converted (field t "amount") with
  | None => t
  | Some amount =>
      let t := set t "amount" amount in
      let t := set t "description" (PStr (description_text t)) in
      let t := default t "currency" (PStr (u "USD")) in
      let t := default t "confidence_score" (PFloat (dec 7 (-1))) in
      let t := default t "type"
                 (PStr (if negative amount then u "debit" else u "credit")) in
      default t "category" (PStr (u "other"))
  end.

Lemma get_set_other (t : record) k k' v :
  str_eqb k' k = false ->
  dict_get str_eqb (dict_set str_eqb t k v) k' = dict_get str_eqb t k'.
Proof.
  intros Hne. induction t as [| [k0 v0] t IH]; simpl.
  - rewrite Hne. reflexivity.
  - destruct (str_eqb_spec k k0) as [-> | Hk]; simpl.
    + rewrite Hne. reflexivity.
    + destruct (str_eqb k' k0); [reflexivity | exact IH].
Qed.

Lemma get_set_same (t : record) k v :
  dict_get str_eqb (dict_set str_eqb t k v) k = Some v.
Proof.
  induction t as [| [k0 v0] t IH]; simpl.
  - rewrite str_eqb_refl. reflexivity.
  - destruct (str_eqb_spec k k0) as [-> | Hk]; simpl.
    + rewrite str_eqb_refl. reflexivity.
    + destruct (str_eqb_spec k k0); [congruence | exact IH].
Qed.

Lemma field_missing t f :
  negb (has t f) || negb (truthy (dict_get_default str_eqb t (u f) PNone))
  = negb (present t f).
Proof.
  unfold has, dict_has, present, dict_get_default.
  destruct (dict_get str_eqb t (u f)); reflexivity.
Qed.

Lemma missing_fields_nil t :
  present t "date" = true -> present t "description" = true ->
  present t "amount" = true -> missing_fields t = [].
Proof.
  intros Hd Hs Ha. unfold missing_fields, required_fields.
  cbn [filter]. rewrite !field_missing, Hd, Hs, Ha. reflexivity.
Qed.

Lemma missing_fields_cons t :
  present t "date" && present t "description" && present t "amount" = false ->
  exists m ms, missing_fields t = m :: ms.
Proof.
  intros H. unfold missing_fields, required_fields.
  cbn [filter]. rewrite !field_missing.
  destruct (present t "date"); cbn [negb];
    [| cbn [map]; eauto].
  destruct (present t "description"); cbn [negb];
    [| cbn [map]; eauto].
  destruct (present t "amount"); cbn [negb];
    [discriminate | cbn [map]; eauto].
Qed.

Lemma present_item t k :
  present t k = true ->
  exists v, item t k = Ok v /\ field t k = v /\ truthy v = true.
Proof.
  unfold present, item, field, get, dict_get_default.
  destruct (dict_get str_eqb t (u k)) as [v |]; [eauto | discriminate].
Qed.

Lemma validate_one_accepts i t :
  accepts t = true -> validate_one i t = Valid (completed t).
Proof.
  unfold accepts. intros H.
  repeat (apply andb_true_iff in H; destruct H as [H ?]).
  rename H into Hd, H3 into Hs, H2 into Ha, H1 into Hc, H0 into Hb.
  unfold validate_one. rewrite (missing_fields_nil _ Hd Hs Ha).
  destruct (present_item _ _ Ha) as [a [Hia [Hfa Hta]]].
  destruct (present_item _ _ Hs) as [d [Hid [Hfd Htd]]].
  unfold try_except, bind. rewrite Hia.
  unfold completed. rewrite Hfa in *.
  unfold converted in *.
  destruct a; try discriminate Hta;
    (destruct (if is_number _ then _ else _) as [a' |] eqn:Ea;
      [| discriminate Hc]);
    (assert (Hdesc : item (set t "amount" a') "description" = Ok d)
       by (unfold item, get, set in *;
           rewrite get_set_other by (vm_compute; reflexivity);
           exact Hid));
    rewrite Hdesc;
    (assert (Hdt : strip (py_str d)
                   = description_text (set t "amount" a'))
       by (unfold description_text, field, dict_get_default, set;
           rewrite get_set_other by (vm_compute; reflexivity);
           unfold item, get in Hid;
           destruct (dict_get str_eqb t (u "description"));
           [inversion Hid; reflexivity | discriminate]));
    (assert (Hdt0 : description_text (set t "amount" a')
                    = description_text t)
       by (unfold description_text, field, dict_get_default, set;
           rewrite get_set_other by (vm_compute; reflexivity);
           reflexivity));
    rewrite Hdt, Hdt0;
    unfold blank in Hb; apply negb_true_iff in Hb; rewrite Hb;
    reflexivity.
Qed.

(** *** The reasons recorded

    The required fields that a transaction lacks, in the order of the
    list of the code. *)
Definition lacking (t : record) : list str :=
  map u (filter (fun k => negb (present t k)) required_fields).

(** What is recorded about a transaction that is not kept: the fields
    it lacks; or, when it lacks none, that its amount does not read as a
    number; or else that its description is blank. *)
Definition reason (t : record) : str :=
  match lacking t with
  | _ :: _ => u "Missing fields " ++ repr_words (lacking t)
  | [] =>
      match converted (field t "amount") with
      | None =>
          u "Cannot convert amount '" ++ py_str (field t "amount")
          ++ u "' to number"
      | Some _ => u "Empty or invalid description"
      end
  end.

(** The entry of [validation_errors] for a transaction and its place in
    the list, counted from one. *)
Definition rejection (nt : nat * record) : str :=
  u "Transaction " ++ str_of_N (N.of_nat (fst nt)) ++ u ": "
  ++ reason (snd nt).

Lemma missing_fields_lacking t : missing_fields t = lacking t.
Proof.
  unfold missing_fields, lacking, required_fields.
  cbn [filter]. rewrite !field_missing. reflexivity.
Qed.

(** The texts of the code, cut after the colon. *)
Lemma said (label : str) (a b : string) (x : str) :
  u a = u ": " ++ u b ->
  (u "Transaction " ++ label) ++ u a ++ x
  = u "Transaction " ++ label ++ u ": " ++ u b ++ x.
Proof.
  intros ->. rewrite <- !app_assoc. reflexivity.
Qed.

Lemma said_all (label : str) (a b : string) :
  u a = u ": " ++ u b ->
  (u "Transaction " ++ label) ++ u a
  = u "Transaction " ++ label ++ u ": " ++ u b.
Proof.
  intros ->. rewrite <- !app_assoc. reflexivity.
Qed.

Lemma validate_one_rejects_with i t :
  accepts t = false -> validate_one i t = Invalid (rejection (i + 1, t)).
Proof.
  unfold accepts. intros H.
  unfold rejection, reason. cbn [fst snd].
  destruct (present t "date" && present t "description"
            && present t "amount") eqn:Hp.
  - apply andb_true_iff in Hp. destruct Hp as [Hp Ha].
    apply andb_true_iff in Hp. destruct Hp as [Hd Hs].
    unfold validate_one.
    rewrite <- (missing_fields_lacking t), (missing_fields_nil _ Hd Hs Ha).
    destruct (present_item _ _ Ha) as [a [Hia [Hfa Hta]]].
    destruct (present_item _ _ Hs) as [d [Hid [Hfd Htd]]].
    unfold try_except, bind. rewrite Hia.
    rewrite Hfa in *. unfold converted in *. cbn [andb] in H.
    destruct (if is_number a then Some a
              else option_map PFloat (py_float (py_str a))) as [a' |] eqn:Ea.
    + assert (Hdesc : item (set t "amount" a') "description" = Ok d).
      { unfold item, get, set in *.
        rewrite get_set_other by (vm_compute; reflexivity). exact Hid. }
      assert (Hdt : strip (py_str d) = description_text t).
      { unfold description_text, field, dict_get_default.
        unfold item, get in Hid.
        destruct (dict_get str_eqb t (u "description"));
          [inversion Hid; reflexivity | discriminate]. }
      unfold blank in H. apply negb_false_iff in H.
      destruct a; try discriminate Hta;
        rewrite Hdesc, Hdt, H; cbv beta iota;
        apply (f_equal Invalid);
        apply (said_all _ ": Empty or invalid description"
                        "Empty or invalid description");
        vm_compute; reflexivity.
    + destruct a; try discriminate Hta; cbv beta iota;
        apply (f_equal Invalid);
        apply (said _ ": Cannot convert amount '" "Cannot convert amount '");
        vm_compute; reflexivity.
  - unfold validate_one. rewrite <- (missing_fields_lacking t).
    destruct (missing_fields_cons _ Hp) as [m [ms Hm]]. rewrite Hm.
    unfold try_except. cbv beta iota.
    apply (f_equal Invalid).
    apply (said _ ": Missing fields " "Missing fields ").
    vm_compute; reflexivity.
Qed.

Lemma validate_one_rejects i t :
  accepts t = false -> exists e, validate_one i t = Invalid e.
Proof. intros H. eexists. apply (validate_one_rejects_with i _ H). Qed.

(** The transactions with their places, the first place being
    [first]. *)
Definition numbered_from (first : nat) (ts : list record)
    : list (nat * record) :=
  combine (seq first (List.length ts)) ts.

Definition numbered (ts : list record) : list (nat * record) :=
  numbered_from 1 ts.

(** The entries for the transactions that [keep] leaves out. *)
Definition rejections (keep : record -> bool) (nts : list (nat * record))
    : list str :=
  map rejection (filter (fun nt => negb (keep (snd nt))) nts).

(** The lines of the log for the list of errors: a heading and the
    first five errors, or nothing when there is no error. *)
Definition warning_lines (errors : list str) : list (level * str) :=
  match errors with
  | [] => []
  | _ =>
      (Warning, u "Transaction validation errors (showing first 5):")
      :: map (fun error => (Warning, u "  " ++ error)) (firstn 5 errors)
  end.

(** The summary of the exception: the first three errors. *)
Definition error_summary (errors : list str) : str :=
  match errors with
  | [] => u "Unknown validation errors"
  | _ => join (u "; ") (firstn 3 errors)
  end.

(** The loop keeps the accepted transactions in order, completed, and
    records the reason for each of the others under its place in the
    list. *)
Lemma validate_loop_exact ts : forall i valid errors,
  validate_loop i ts valid errors
  = (valid ++ map completed (filter accepts ts),
     errors ++ rejections accepts (numbered_from (i + 1) ts)).
Proof.
  unfold rejections, numbered_from.
  induction ts as [| t ts IH]; intros i valid errors.
  - cbn [validate_loop filter map List.length seq combine].
    rewrite !app_nil_r. reflexivity.
  - cbn [validate_loop List.length seq combine filter snd].
    destruct (accepts t) eqn:Ha; cbn [negb map].
    + rewrite (validate_one_accepts i _ Ha), IH.
      rewrite <- app_assoc. reflexivity.
    + rewrite (validate_one_rejects_with i _ Ha), IH.
      rewrite <- app_assoc. reflexivity.
Qed.

Lemma rejections_length keep first ts :
  List.length (rejections keep (numbered_from first ts))
  = List.length (filter (fun t => negb (keep t)) ts).
Proof.
  unfold rejections, numbered_from. rewrite length_map.
  revert first. induction ts as [| t ts IH]; intros first; [reflexivity |].
  cbn [List.length seq combine filter snd].
  destruct (keep t); cbn [negb List.length]; rewrite IH; reflexivity.
Qed.

Lemma validate_loop_spec ts : forall i valid errors,
  exists more,
    validate_loop i ts valid errors
    = (valid ++ map completed (filter accepts ts), errors ++ more)
    /\ List.length more
       = List.length (filter (fun t => negb (accepts t)) ts).
Proof.
  intros i valid errors. eexists. split.
  - apply validate_loop_exact.
  - apply rejections_length.
Qed.

(** *** The fields of a survivor *)

Lemma has_get (t : record) k :
  has t k = match get t k with Some _ => true | None => false end.
Proof. reflexivity. Qed.

Lemma get_set_eq (t : record) k v : get (set t k v) k = Some v.
Proof. apply get_set_same. Qed.

Lemma get_set_neq (t : record) k k' v :
  str_eqb (u k') (u k) = false -> get (set t k v) k' = get t k'.
Proof. apply get_set_other. Qed.

(** A default never changes a field that is there. *)
Lemma get_default_kept (t : record) k k' v :
  has t k' = true -> get (default t k v) k' = get t k'.
Proof.
  intros H. unfold default.
  destruct (has t k) eqn:Hk; [reflexivity |].
  apply get_set_neq.
  destruct (str_eqb_spec (u k') (u k)) as [Heq |]; [| reflexivity].
  unfold has, dict_has in *. rewrite Heq in H. congruence.
Qed.

Lemma get_default_filled (t : record) k v :
  has t k = false -> get (default t k v) k = Some v.
Proof. intros H. unfold default. rewrite H. apply get_set_eq. Qed.

Lemma has_default (t : record) k v : has (default t k v) k = true.
Proof.
  unfold default. destruct (has t k) eqn:H; [exact H |].
  rewrite has_get, get_set_eq. reflexivity.
Qed.

Lemma has_default_kept (t : record) k k' v :
  has t k' = true -> has (default t k v) k' = true.
Proof.
  intros H. rewrite has_get, (@get_default_kept t k k' v H), <- has_get.
  exact H.
Qed.

Lemma has_set (t : record) k v : has (set t k v) k = true.
Proof. rewrite has_get, get_set_eq. reflexivity. Qed.

Lemma has_set_neq (t : record) k k' v :
  str_eqb (u k') (u k) = false -> has (set t k v) k' = has t k'.
Proof.
  intros H. rewrite !has_get, (@get_set_neq t k k' v H). reflexivity.
Qed.

Definition optional_fields : list (string * pyval) :=
  [("currency", PStr (u "USD"));
   ("confidence_score", PFloat (dec 7 (-1)));
   ("category", PStr (u "other"))]%string.

Ltac move_to_t2 Hk :=
  match goal with
  | Hhas : forall k : string, _ -> _ -> has _ k = has _ k |- _ =>
      match type of Hk with
      | has _ ?k = _ =>
          rewrite <- (Hhas k ltac:(vm_compute; reflexivity)
                           ltac:(vm_compute; reflexivity)) in Hk
      end
  end.

Ltac fields_side :=
  repeat (first [assumption | apply has_default | apply has_default_kept]).

Ltac still_absent Hk :=
  repeat (unfold default at 1;
          match goal with
          | |- has (if ?b then _ else _) _ = false => destruct b
          end;
          [| rewrite has_set_neq by (vm_compute; reflexivity)]);
  exact Hk.

(** A survivor has its seven fields; the date is the one it came with;
    a currency, confidence, type or category it came with is kept, and
    one it lacked has the default. *)
Lemma completed_fields t :
  accepts t = true ->
  Forall (fun k => has (completed t) k = true)
         ["date"; "description"; "amount"; "currency"; "type"; "category";
          "confidence_score"]%string
  /\ get (completed t) "date" = get t "date"
  /\ Forall (fun k => has t k = true -> get (completed t) k = get t k)
            ["currency"; "type"; "category"; "confidence_score"]%string
  /\ Forall (fun kv => has t (fst kv) = false ->
                       get (completed t) (fst kv) = Some (snd kv))
            optional_fields
  /\ (has t "type" = false ->
      get (completed t) "type" = Some (PStr (u "debit"))
      \/ get (completed t) "type" = Some (PStr (u "credit"))).
Proof.
  unfold accepts. intros H.
  repeat (apply andb_true_iff in H; destruct H as [H ?]).
  unfold completed.
  destruct (converted (field t "amount")) as [a |]; [| discriminate].
  assert (Hdate : has t "date" = true).
  { unfold present, has, dict_has, dict_get_default in *.
    destruct (dict_get str_eqb t (u "date")); [reflexivity | discriminate]. }
  set (t1 := set t "amount" a).
  set (t2 := set t1 "description" (PStr (description_text t1))).
  assert (Hget : forall k, str_eqb (u k) (u "amount") = false ->
                         str_eqb (u k) (u "description") = false ->
                         get t2 k = get t k).
  { intros k Ha Hd. unfold t2, t1.
    rewrite (@get_set_neq _ _ _ _ Hd), (@get_set_neq _ _ _ _ Ha).
    reflexivity. }
  assert (Hhas : forall k, str_eqb (u k) (u "amount") = false ->
                          str_eqb (u k) (u "description") = false ->
                          has t2 k = has t k).
  { intros k Ha Hd. rewrite !has_get, (Hget k Ha Hd). reflexivity. }
  assert (Hamount : has t2 "amount" = true).
  { unfold t2. rewrite has_set_neq by (vm_compute; reflexivity).
    apply has_set. }
  assert (Hdesc : has t2 "description" = true) by apply has_set.
  assert (Hd2 : has t2 "date" = true).
  { rewrite Hhas by (vm_compute; reflexivity). exact Hdate. }
  repeat split.
  - repeat (first [apply Forall_cons | apply Forall_nil]); fields_side.
  - rewrite !get_default_kept;
      try (apply Hget; vm_compute; reflexivity); fields_side.
  - repeat (first [apply Forall_cons | apply Forall_nil]); intros Hk;
      move_to_t2 Hk;
      rewrite !get_default_kept;
      try (apply Hget; vm_compute; reflexivity); fields_side.
  - repeat (first [apply Forall_cons | apply Forall_nil]);
      cbn [fst snd]; intros Hk; move_to_t2 Hk.
    + do 3 (rewrite get_default_kept; [| solve [fields_side]]).
      apply get_default_filled. exact Hk.
    + do 2 (rewrite get_default_kept; [| solve [fields_side]]).
      apply get_default_filled. still_absent Hk.
    + apply get_default_filled. still_absent Hk.
  - intros Hk. move_to_t2 Hk.
    rewrite get_default_kept by apply has_default.
    rewrite get_default_filled.
    + destruct (negative a); auto.
    + still_absent Hk.
Qed.

(** *** The contract *)

(** The amount is a number equal to zero. *)
Definition zero_amount (t : record) : bool :=
  match get t "amount" with
  | Some (PInt z) => (z =? 0)%Z
  | Some (PFloat f) => negb (float_nonzero f)
  | Some (PBool b) => negb b
  | _ => false
  end.

(** An amount is given: the field is there and is neither [None] nor
    an empty text. *)
Definition amount_given (t : record) : bool :=
  match get t "amount" with
  | None | Some PNone => false
  | Some (PStr s) => match s with [] => false | _ => true end
  | Some _ => true
  end.

(** The transactions the validator is meant to keep: date and
    description given, an amount given that is a number or reads as
    one, and a description that is not blank.  The date is not
    parsed. *)
Definition admissible (t : record) : bool :=
  present t "date" && present t "description" && amount_given t
  && (match converted (field t "amount") with
      | Some _ => true
      | None => false
      end)
  && negb (blank (description_text t)).

Lemma admissible_accepts t :
  zero_amount t = false -> accepts t = admissible t.
Proof.
  intros Hz. unfold accepts, admissible. f_equal. f_equal. f_equal.
  unfold present, amount_given, zero_amount, get, dict_get_default in *.
  destruct (dict_get str_eqb t (u "amount")) as [[| b | z | f | x] |];
    simpl in *; try reflexivity;
    try (apply negb_false_iff in Hz); try rewrite Hz; try reflexivity.
Qed.

Lemma filter_admissible ts :
  Forall (fun t => zero_amount t = false) ts ->
  filter accepts ts = filter admissible ts.
Proof.
  induction 1 as [| t ts Hz _ IH]; simpl; [reflexivity |].
  rewrite (admissible_accepts _ Hz), IH. reflexivity.
Qed.

Lemma rejections_admissible first ts :
  Forall (fun t => zero_amount t = false) ts ->
  rejections accepts (numbered_from first ts)
  = rejections admissible (numbered_from first ts).
Proof.
  unfold rejections, numbered_from. intros H. f_equal.
  revert first. induction H as [| t ts Hz _ IH]; intros first;
    [reflexivity |].
  cbn [List.length seq combine filter snd].
  rewrite (admissible_accepts _ Hz), IH. reflexivity.
Qed.

Definition summary_prefix : str :=
  u "No valid transactions found in file. Errors: ".

Definition success_message (kept rejected : nat) : str :=
  u "Successfully validated " ++ count kept
  ++ u " transactions (rejected " ++ count rejected ++ u ")".

(** *** A date that no format reads *)

(** No name of a month stands in "99/99/9999", whatever the word
    characters are. *)
Lemma no_month_name is_word month repl :
  In month (map fst TransactionProcessor.month_mapping) ->
  re_sub (TransactionProcessor.month_word is_word month) repl
         (u "99/99/9999")
  = u "99/99/9999".
Proof.
  intros Hin. apply re_sub_unmatched.
  cbn [map fst TransactionProcessor.month_mapping] in Hin.
  repeat (destruct Hin as [<- | Hin]);
    [.. | contradiction];
    repeat split;
    unfold match_here, TransactionProcessor.month_word;
    cbn [rx]; destruct (xorb _ _); reflexivity.
Qed.

Lemma unparseable_date is_word now :
  TransactionProcessor._parse_date is_word now (PStr (u "99/99/9999")) = None.
Proof.
  unfold TransactionProcessor._parse_date.
  replace (negb (truthy (PStr (u "99/99/9999")))
           || str_eqb (lower (py_str (PStr (u "99/99/9999")))) (u "nan"))
    with false by (vm_compute; reflexivity).
  replace (strip (py_str (PStr (u "99/99/9999")))) with (u "99/99/9999")
    by (vm_compute; reflexivity).
  unfold TransactionProcessor.month_mapping. cbn [fold_left fst snd].
  rewrite !no_month_name by (cbn; tauto).
  vm_compute. reflexivity.
Qed.

End ValidatorFacts.

Definition undated_purchase : record :=
  [(u "date", PStr (u "99/99/9999")); (u "description", PStr (u "Lunch"));
   (u "amount", PFloat (dec 125 (-1)))].

(** [C6], as stated, fails: a transaction whose date no format of the
    date parsers reads is not dropped; it comes back with the defaults
    filled in and its date as it was. *)
Lemma unparseable_date_survives :
  (forall is_word now,
     TransactionProcessor._parse_date is_word now (PStr (u "99/99/9999"))
     = None)
  /\ DefensiveTransactionParser.parse_date (PStr (u "99/99/9999")) = None
  /\ TransactionProcessor.returned
       (TransactionProcessor._validate_transactions [undated_purchase])
     = Ok [[(u "date", PStr (u "99/99/9999"));
            (u "description", PStr (u "Lunch"));
            (u "amount", PFloat (dec 125 (-1)));
            (u "currency", PStr (u "USD"));
            (u "confidence_score", PFloat (dec 7 (-1)));
            (u "type", PStr (u "credit"));
            (u "category", PStr (u "other"))]].
Proof.
  split; [intros is_word now; apply ValidatorFacts.unparseable_date |].
  vm_compute. repeat split.
Qed.

(** [C6], amended.  Of transactions whose amount is not a number equal
    to zero, the validator keeps, in order, those with a date and a
    description given, an amount that is a number or reads as one, and a
    description that is not blank, "nan" or "null"; it does not parse the
    date.  For each of the others it records one error, "Transaction n: "
    with the place n of the transaction in the list and the reason: the
    required fields that are lacking, or that the amount does not read
    as a number, or that the description is blank.  It raises
    [ValidationError] exactly when none is kept, and the text of the
    exception is the summary of the first three errors.  Otherwise it
    returns the kept transactions alone, each with its description
    stripped, its amount as a number and the four defaults where a field
    was lacking; the number of rejected rows is in the last line of the
    log only.  In both cases the log starts with the first five
    errors. *)
Theorem validator_contract ts :
  Forall (fun t => ValidatorFacts.zero_amount t = false) ts ->
  let kept := filter ValidatorFacts.admissible ts in
  let errors :=
    ValidatorFacts.rejections ValidatorFacts.admissible
                              (ValidatorFacts.numbered ts) in
  let v := TransactionProcessor._validate_transactions ts in
  List.length errors = List.length ts - List.length kept
  /\ (kept = [] ->
      TransactionProcessor.returned v
      = Raise (ValidationError (ValidatorFacts.summary_prefix
                                ++ ValidatorFacts.error_summary errors))
      /\ TransactionProcessor.logged v = ValidatorFacts.warning_lines errors)
  /\ (kept <> [] ->
      TransactionProcessor.returned v = Ok (map ValidatorFacts.completed kept)
      /\ TransactionProcessor.logged v
         = ValidatorFacts.warning_lines errors
           ++ [(TransactionProcessor.Info,
                ValidatorFacts.success_message
                  (List.length kept)
                  (List.length ts - List.length kept))])
  /\ Forall (fun t =>
               Forall (fun k => has (ValidatorFacts.completed t) k = true)
                      LadderFacts.transaction_fields
               /\ get (ValidatorFacts.completed t) "date" = get t "date"
               /\ Forall (fun k => has t k = true ->
                                   get (ValidatorFacts.completed t) k
                                   = get t k)
                         ["currency"; "type"; "category";
                          "confidence_score"]%string
               /\ Forall (fun kv =>
                            has t (fst kv) = false ->
                            get (ValidatorFacts.completed t) (fst kv)
                            = Some (snd kv))
                         ValidatorFacts.optional_fields
               /\ (has t "type" = false ->
                   get (ValidatorFacts.completed t) "type"
                   = Some (PStr (u "debit"))
                   \/ get (ValidatorFacts.completed t) "type"
                      = Some (PStr (u "credit"))))
            kept.
Proof.
  intros Hz kept errors v.
  pose proof (ValidatorFacts.filter_admissible Hz) as Hf.
  pose proof (ValidatorFacts.validate_loop_exact ts 0 [] []) as E.
  cbn [app] in E.
  change (0 + 1)%nat with 1%nat in E.
  rewrite (ValidatorFacts.rejections_admissible 1 Hz) in E.
  rewrite Hf in E. fold kept in E.
  change (ValidatorFacts.rejections ValidatorFacts.admissible
            (ValidatorFacts.numbered_from 1 ts)) with errors in E.
  assert (Hlen : List.length errors = List.length ts - List.length kept).
  { unfold errors, ValidatorFacts.numbered.
    rewrite ValidatorFacts.rejections_length.
    unfold kept.
    pose proof (filter_length ValidatorFacts.admissible ts). lia. }
  subst v. unfold TransactionProcessor._validate_transactions. rewrite E.
  clearbody errors.
  split; [exact Hlen |].
  split; [| split].
  - intros Hk. rewrite Hk. cbn [map].
    unfold ValidatorFacts.warning_lines, ValidatorFacts.error_summary,
      ValidatorFacts.summary_prefix.
    cbn [TransactionProcessor.returned TransactionProcessor.logged].
    destruct errors; split; reflexivity.
  - intros Hk.
    destruct (map ValidatorFacts.completed kept) eqn:Em.
    { destruct kept; [congruence | discriminate]. }
    rewrite <- Em.
    cbn [TransactionProcessor.returned TransactionProcessor.logged].
    split; [reflexivity |].
    unfold ValidatorFacts.success_message, ValidatorFacts.warning_lines.
    rewrite length_map, Hlen.
    destruct errors; reflexivity.
  - apply Forall_forall. intros t Hin.
    apply filter_In in Hin. destruct Hin as [Hin Ha].
    rewrite Forall_forall in Hz.
    rewrite <- (ValidatorFacts.admissible_accepts _ (Hz t Hin)) in Ha.
    exact (ValidatorFacts.completed_fields _ Ha).
Qed.

(** Three transactions that are not kept: one without an amount, one
    whose amount is no number, one whose description is "nan". *)
Definition rejected_transactions : list record :=
  [[(u "date", PStr (u "2024-01-15")); (u "description", PStr (u "Lunch"))];
   [(u "date", PStr (u "2024-01-16")); (u "description", PStr (u "Rent"));
    (u "amount", PStr (u "abc"))];
   [(u "date", PStr (u "2024-01-17")); (u "description", PStr (u " NaN "));
    (u "amount", PStr (u "12.50"))]].

Lemma validator_contract_witness :
  Forall (fun t => ValidatorFacts.zero_amount t = false)
         rejected_transactions
  /\ TransactionProcessor.returned
       (TransactionProcessor._validate_transactions rejected_transactions)
     = Raise (ValidationError
                (u "No valid transactions found in file. Errors: Transaction 1: Missing fields ['amount']; Transaction 2: Cannot convert amount 'abc' to number; Transaction 3: Empty or invalid description")).
Proof.
  assert (H : Forall (fun t => ValidatorFacts.zero_amount t = false)
                     rejected_transactions)
    by (repeat constructor).
  split; [exact H |].
  destruct (validator_contract H) as [_ [Hnone _]].
  destruct (Hnone ltac:(vm_compute; reflexivity)) as [Hraised _].
  rewrite Hraised. vm_compute. reflexivity.
Defined.

(** ** Decimal and thousands separators *)

Unset Implicit Arguments.

Module SeparatorFacts.

(** The index of the last [c] of a text. *)
Fixpoint last_index (c : char) (s : str) : option nat :=
  match s with
  | [] => None
  | x :: s' =>
      match last_index c s' with
      | Some n => Some (S n)
      | None => if (x =? c)%N then Some O else None
      end
  end.

Lemma rfind_from_last c s : forall i found,
  rfind_from c s i found
  = match last_index c s with
    | Some n => (i + Z.of_nat n)%Z
    | None => found
    end.
Proof.
  induction s as [| x s IH]; intros i found; simpl; [reflexivity |].
  rewrite IH. destruct (last_index c s) as [n |].
  - lia.
  - destruct (x =? c)%N; [lia | reflexivity].
Qed.

Lemma rfind_last c s :
  rfind c s
  = match last_index c s with Some n => Z.of_nat n | None => (-1)%Z end.
Proof.
  unfold rfind. rewrite rfind_from_last.
  destruct (last_index c s); reflexivity.
Qed.

Lemma has_char_last c s :
  has_char c s = match last_index c s with Some _ => true | None => false end.
Proof.
  induction s as [| x s IH]; simpl; [reflexivity |].
  unfold has_char in *. simpl. rewrite IH.
  destruct (last_index c s).
  - apply orb_true_r.
  - rewrite orb_false_r, N.eqb_sym. destruct (x =? c)%N; reflexivity.
Qed.

(** Nothing after the last [c] is a [c]. *)
Lemma after_last_free c s : forall n x,
  last_index c s = Some n -> In x (skipn (S n) s) -> x <> c.
Proof.
  induction s as [| y s IH]; intros n x Hl Hin; simpl in Hl; [discriminate |].
  destruct (last_index c s) as [m |] eqn:E.
  - inversion Hl; subst n. simpl in Hin. exact (IH m x eq_refl Hin).
  - destruct (y =? c)%N; [| discriminate].
    inversion Hl; subst n. simpl in Hin.
    intros ->. apply (in_split) in Hin. destruct Hin as [l1 [l2 ->]].
    clear - E. induction l1 as [| z l1 IH]; simpl in E.
    + destruct (last_index c l2); [discriminate |].
      rewrite N.eqb_refl in E. discriminate.
    + destruct (last_index c (l1 ++ c :: l2)); [discriminate | auto].
Qed.

Lemma skipn_tail (A : Type) n (x : A) s : forall y,
  In y (skipn (S n) (x :: s)) -> In y s.
Proof.
  intros y. simpl. revert s. induction n as [| n IH]; intros s.
  - exact (fun H => H).
  - destruct s as [| z s]; simpl; [tauto |].
    intros H. right. exact (IH s H).
Qed.

(** The roles a separator can have. *)
Inductive role : Type := Decimal | Thousands.

(** The last comma stands after the last dot. *)
Definition comma_later (t : str) : bool :=
  (rfind (ch ".") t <? rfind (ch ",") t)%Z.

Definition digits_after_last_comma (t : str) : nat :=
  List.length (filter is_digit (slice_from (rfind (ch ",") t + 1) t)).

(** The words of the specification.  With a dot in the text, the comma
    is the decimal separator when it comes later; without one, when at
    most two digits follow the last comma.  [trailing] tells whether a
    comma that no digit follows counts as a decimal separator too. *)
Definition comma_role (trailing : bool) (t : str) : role :=
  if has_char (ch ".") t then
    if comma_later t then Decimal else Thousands
  else
    let n := digits_after_last_comma t in
    if (n <=? 2)%nat && (trailing || (0 <? n)%nat) then Decimal
    else Thousands.

Definition dot_role (t : str) : role :=
  if has_char (ch ",") t && comma_later t then Thousands else Decimal.

Definition written (r : role) : str :=
  match r with
  | Decimal => u "."
  | Thousands => []
  end.

(** Every separator is written as its role says: a decimal separator
    as a dot, a thousands separator not at all. *)
Definition resolve_by_role (trailing : bool) (t : str) : str :=
  flat_map (fun c => if (c =? ch ",")%N then written (comma_role trailing t)
                     else if (c =? ch ".")%N then written (dot_role t)
                     else [c]) t.

(** A numeric token: digits and separators after an optional sign. *)
Definition digit_or_separator (c : char) : bool :=
  is_digit c || (c =? ch ",")%N || (c =? ch ".")%N.

Definition numeric_token (t : str) : bool :=
  match t with
  | [] => true
  | c :: r =>
      ((c =? ch "-")%N || (c =? ch "+")%N || digit_or_separator c)
      && forallb digit_or_separator r
  end.

Lemma flat_map_ext_in (f g : char -> str) s :
  (forall c, In c s -> f c = g c) -> flat_map f s = flat_map g s.
Proof.
  induction s as [| x s IH]; intros H; simpl; [reflexivity |].
  rewrite (H x (or_introl eq_refl)), IH; [reflexivity |].
  intros c Hc. apply H. right. exact Hc.
Qed.

Lemma replace_twice a b new s :
  a <> b ->
  replace_char a new (replace_char b [] s)
  = flat_map (fun c => if (c =? a)%N then new
                       else if (c =? b)%N then [] else [c]) s.
Proof.
  intros Hab. unfold replace_char.
  induction s as [| x s IH]; simpl; [reflexivity |].
  destruct (N.eqb_spec x b) as [-> | Hxb].
  - destruct (N.eqb_spec b a); [congruence | exact IH].
  - simpl. rewrite IH. destruct (x =? a)%N; reflexivity.
Qed.

Lemma no_char_absent c s x : has_char c s = false -> In x s -> x <> c.
Proof.
  unfold has_char. intros H Hin ->.
  assert (existsb (N.eqb c) s = true).
  { apply existsb_exists. exists c. split; [exact Hin | apply N.eqb_refl]. }
  congruence.
Qed.

(** In a numeric token without a dot only digits follow the last
    comma. *)
Lemma digits_after t :
  numeric_token t = true -> has_char (ch ".") t = false ->
  has_char (ch ",") t = true ->
  digits_after_last_comma t
  = List.length (slice_from (rfind (ch ",") t + 1) t).
Proof.
  intros Ht Hdot Hcomma. unfold digits_after_last_comma.
  f_equal. apply forallb_filter_id.
  rewrite has_char_last in Hcomma. rewrite rfind_last.
  destruct (last_index (ch ",") t) as [n |] eqn:El; [| discriminate].
  unfold slice_from.
  replace (Z.to_nat (Z.of_nat n + 1)) with (S n) by lia.
  apply forallb_forall. intros x Hx.
  pose proof (after_last_free _ _ _ _ El Hx) as Hnc.
  destruct t as [| c r]; [simpl in El; discriminate |].
  pose proof (skipn_tail _ _ _ _ _ Hx) as Hr.
  simpl in Ht. apply andb_true_iff in Ht. destruct Ht as [_ Ht].
  rewrite forallb_forall in Ht. specialize (Ht x Hr).
  pose proof (no_char_absent (ch ".") (c :: r) x Hdot
                             (or_intror Hr)) as Hnd.
  unfold digit_or_separator in Ht.
  destruct (N.eqb_spec x (ch ",")); [congruence |].
  destruct (N.eqb_spec x (ch ".")); [congruence |].
  rewrite !orb_false_r in Ht. exact Ht.
Qed.

Lemma resolve_defensive t :
  numeric_token t = true ->
  DefensiveTransactionParser.resolve_separators t = resolve_by_role true t.
Proof.
  intros Ht.
  unfold DefensiveTransactionParser.resolve_separators, resolve_by_role,
    comma_role, dot_role.
  fold (comma_later t).
  destruct (has_char (ch ",") t) eqn:Hc;
    destruct (has_char (ch ".") t) eqn:Hd; cbn [andb].
  - destruct (comma_later t).
    + apply replace_twice. discriminate.
    + unfold replace_char. apply flat_map_ext_in. intros c _.
      destruct (c =? ch ",")%N; [reflexivity |].
      destruct (c =? ch ".")%N eqn:E; [| reflexivity].
      apply N.eqb_eq in E. subst c. reflexivity.
  - rewrite (digits_after _ Ht Hd Hc). cbn [orb]. rewrite andb_true_r.
    destruct (_ <=? 2)%nat; unfold replace_char;
      apply flat_map_ext_in; intros c Hin;
      (destruct (c =? ch ",")%N; [reflexivity |]);
      (destruct (N.eqb_spec c (ch ".")) as [-> | _]; [| reflexivity]);
      exfalso; exact (no_char_absent _ _ _ Hd Hin eq_refl).
  - symmetry. rewrite <- (flat_map_ext_in (fun c => [c])).
    + clear. induction t; simpl; congruence.
    + intros c Hin.
      destruct (N.eqb_spec c (ch ",")) as [-> | _];
        [exfalso; exact (no_char_absent _ _ _ Hc Hin eq_refl) |].
      destruct (c =? ch ".")%N eqn:E; [| reflexivity].
      apply N.eqb_eq in E. subst c. reflexivity.
  - symmetry. rewrite <- (flat_map_ext_in (fun c => [c])).
    + clear. induction t; simpl; congruence.
    + intros c Hin.
      destruct (N.eqb_spec c (ch ",")) as [-> | _];
        [exfalso; exact (no_char_absent _ _ _ Hc Hin eq_refl) |].
      destruct (N.eqb_spec c (ch ".")) as [-> | _]; [| reflexivity].
      exfalso; exact (no_char_absent _ _ _ Hd Hin eq_refl).
Qed.

Lemma resolve_processor t :
  numeric_token t = true ->
  TransactionProcessor.resolve_separators t = resolve_by_role false t.
Proof.
  intros Ht.
  unfold TransactionProcessor.resolve_separators, resolve_by_role,
    comma_role, dot_role.
  fold (comma_later t).
  destruct (has_char (ch ",") t) eqn:Hc;
    destruct (has_char (ch ".") t) eqn:Hd; cbn [andb].
  - destruct (comma_later t).
    + apply replace_twice. discriminate.
    + unfold replace_char. apply flat_map_ext_in. intros c _.
      destruct (c =? ch ",")%N; [reflexivity |].
      destruct (c =? ch ".")%N eqn:E; [| reflexivity].
      apply N.eqb_eq in E. subst c. reflexivity.
  - rewrite (digits_after _ Ht Hd Hc). cbn [orb].
    destruct (_ <=? 2)%nat; destruct (0 <? _)%nat; cbn [andb];
      unfold replace_char;
      apply flat_map_ext_in; intros c Hin;
      (destruct (c =? ch ",")%N; [reflexivity |]);
      (destruct (N.eqb_spec c (ch ".")) as [-> | _]; [| reflexivity]);
      exfalso; exact (no_char_absent _ _ _ Hd Hin eq_refl).
  - symmetry. rewrite <- (flat_map_ext_in (fun c => [c])).
    + clear. induction t; simpl; congruence.
    + intros c Hin.
      destruct (N.eqb_spec c (ch ",")) as [-> | _];
        [exfalso; exact (no_char_absent _ _ _ Hc Hin eq_refl) |].
      destruct (c =? ch ".")%N eqn:E; [| reflexivity].
      apply N.eqb_eq in E. subst c. reflexivity.
  - symmetry. rewrite <- (flat_map_ext_in (fun c => [c])).
    + clear. induction t; simpl; congruence.
    + intros c Hin.
      destruct (N.eqb_spec c (ch ",")) as [-> | _];
        [exfalso; exact (no_char_absent _ _ _ Hc Hin eq_refl) |].
      destruct (N.eqb_spec c (ch ".")) as [-> | _]; [| reflexivity].
      exfalso; exact (no_char_absent _ _ _ Hd Hin eq_refl).
Qed.

End SeparatorFacts.

(** [C2], as stated, fails for [_parse_amount]: a comma that no digit
    follows is stripped as a thousands separator, where the rule of the
    claim makes it a decimal separator.  The token "1,234," is read as
    1234; with its commas written as decimal separators it is no
    number. *)
Lemma trailing_comma_is_stripped :
  SeparatorFacts.numeric_token (u "1,234,") = true
  /\ SeparatorFacts.resolve_by_role true (u "1,234,") = u "1.234."
  /\ py_float (u "1.234.") = None
  /\ TransactionProcessor.resolve_separators (u "1,234,") = u "1234"
  /\ (forall is_word,
        fst (TransactionProcessor._parse_amount is_word (u "1,234,"))
        = Some (dec 1234 0)).
Proof.
  split; [vm_compute; reflexivity |]. split; [vm_compute; reflexivity |].
  split; [vm_compute; reflexivity |]. split; [vm_compute; reflexivity |].
  intros is_word. vm_compute. reflexivity.
Qed.

(** [C2], amended.  In a numeric token with a comma and a dot, both
    parsers take the separator that occurs later as the decimal separator
    and strip the other.  In a token with commas only,
    [parse_amount_with_currency] takes the comma as the decimal separator
    when at most two digits follow the last one, [_parse_amount] when one
    or two digits follow it, and both strip it as a thousands separator
    otherwise.  "1.234,56" and "1,234.56" are read as 1234.56 by both. *)
Theorem separator_disambiguation t :
  SeparatorFacts.numeric_token t = true ->
  DefensiveTransactionParser.resolve_separators t
  = SeparatorFacts.resolve_by_role true t
  /\ TransactionProcessor.resolve_separators t
     = SeparatorFacts.resolve_by_role false t
  /\ map DefensiveTransactionParser.parse_amount_with_currency
         [u "1.234,56"; u "1,234.56"]
     = [AmountOk (dec 123456 (-2)) (u "USD");
        AmountOk (dec 123456 (-2)) (u "USD")]
  /\ (forall is_word,
        map (fun s => fst (TransactionProcessor._parse_amount is_word s))
            [u "1.234,56"; u "1,234.56"]
        = [Some (dec 123456 (-2)); Some (dec 123456 (-2))]).
Proof.
  intros Ht. split; [| split; [| split]].
  - apply SeparatorFacts.resolve_defensive. exact Ht.
  - apply SeparatorFacts.resolve_processor. exact Ht.
  - vm_compute. reflexivity.
  - intros is_word. vm_compute. reflexivity.
Qed.

Lemma separator_disambiguation_witness :
  SeparatorFacts.numeric_token (u "1.234,56") = true
  /\ DefensiveTransactionParser.resolve_separators (u "1.234,56")
     = SeparatorFacts.resolve_by_role true (u "1.234,56")
  /\ TransactionProcessor.resolve_separators (u "1.234,56")
     = SeparatorFacts.resolve_by_role false (u "1.234,56").
Proof.
  split; [vm_compute; reflexivity |].
  assert (H : SeparatorFacts.numeric_token (u "1.234,56") = true)
    by (vm_compute; reflexivity).
  split.
  - exact (proj1 (separator_disambiguation (u "1.234,56") H)).
  - exact (proj1 (proj2 (separator_disambiguation (u "1.234,56") H))).
Defined.

(** ** Rejected amounts *)

Module AmountFacts.

(** Removing the characters of a class is a filter. *)
Lemma sub_loop_class p : forall fuel prev s,
  (List.length s < fuel)%nat ->
  sub_loop fuel (Cls p) [] prev s = filter (fun c => negb (p c)) s.
Proof.
  induction fuel as [| fuel IH]; intros prev s Hlen; [lia |].
  destruct s as [| c s]; [reflexivity |].
  simpl in Hlen.
  cbn [sub_loop match_here rx].
  destruct (p c) eqn:Hp; cbn [m_after m_last filter negb]; rewrite Hp.
  - replace (List.length s <? List.length (c :: s))%nat with true
      by (symmetry; apply Nat.ltb_lt; simpl; lia).
    cbn [negb app]. apply IH. lia.
  - cbn [negb]. f_equal. apply IH. lia.
Qed.

Lemma re_sub_not_numeric s :
  re_sub not_numeric [] s = filter numeric_char s.
Proof.
  unfold re_sub, not_numeric, none_of. rewrite sub_loop_class by lia.
  apply filter_ext. intros c. apply negb_involutive.
Qed.

(** *** Digits *)

Lemma digit_value_in_range zs c d :
  digit_value_in zs c = Some d ->
  exists z, In z zs /\ (z <= c < z + 10)%N /\ d = (c - z)%N.
Proof.
  induction zs as [| z zs IH]; simpl; [discriminate |].
  destruct ((z <=? c) && (c <? z + 10))%N eqn:E.
  - intros H. inversion H; subst. exists z.
    apply andb_true_iff in E. destruct E as [E1 E2].
    apply N.leb_le in E1. apply N.ltb_lt in E2. auto.
  - intros H. destruct (IH H) as [z' [? ?]]. exists z'. auto.
Qed.

(** A digit is an ASCII digit or stands above U+0660. *)
Lemma digit_cases c :
  is_digit c = true -> (48 <= c <= 57)%N \/ (1632 <= c)%N.
Proof.
  unfold is_digit, digit_value. intros H.
  destruct (digit_value_in digit_zeros c) as [d |] eqn:E; [| discriminate].
  apply digit_value_in_range in E. destruct E as [z [Hin [Hr _]]].
  unfold digit_zeros in Hin. simpl in Hin.
  destruct Hin as [<- | Hin]; [left; lia |].
  right.
  repeat (destruct Hin as [<- | Hin]; [lia |]). destruct Hin.
Qed.

Lemma ascii_digit c :
  is_digit c = true -> (c < 127)%N -> is_adigit c = true.
Proof.
  intros H Hc. apply digit_cases in H. unfold is_adigit, range.
  apply andb_true_iff. split; apply N.leb_le; lia.
Qed.

Lemma adigit_digit c : is_adigit c = true -> is_digit c = true.
Proof.
  unfold is_adigit, range. intros H.
  apply andb_true_iff in H. destruct H as [H1 H2].
  apply N.leb_le in H1. apply N.leb_le in H2.
  unfold is_digit, digit_value, digit_zeros. cbn [digit_value_in].
  replace ((48 <=? c) && (c <? 48 + 10))%N with true; [reflexivity |].
  symmetry. apply andb_true_iff.
  split; [apply N.leb_le | apply N.ltb_lt]; lia.
Qed.

(** A digit is no white space. *)
Lemma digit_not_space c : is_digit c = true -> is_space c = false.
Proof.
  unfold is_digit, digit_value. intros H.
  destruct (digit_value_in digit_zeros c) as [d |] eqn:E; [| discriminate].
  apply digit_value_in_range in E. destruct E as [z [Hin [Hr _]]].
  unfold is_space.
  unfold digit_zeros in Hin. simpl in Hin.
  repeat (destruct Hin as [<- | Hin];
          [repeat (apply orb_false_iff; split);
           try (apply andb_false_iff;
                first [left; apply N.leb_gt; lia
                      | right; apply N.leb_gt; lia]);
           try (apply N.eqb_neq; lia) |]).
  destruct Hin.
Qed.

Lemma digit_value_ascii c d :
  digit_value c = Some d -> (d < 10)%N.
Proof.
  unfold digit_value. intros H.
  apply digit_value_in_range in H. destruct H as [z [_ [Hr ->]]]. lia.
Qed.

(** *** [float] on the text that is left *)

Definition sign_or_separator (c : char) : bool := has_char c (u ".,-+").

(** The characters of a cleaned text once brought to ASCII. *)
Definition plain (c : char) : bool := is_adigit c || sign_or_separator c.

Lemma sign_or_separator_cases c :
  sign_or_separator c = true ->
  c = ch "." \/ c = ch "," \/ c = ch "-" \/ c = ch "+".
Proof.
  unfold sign_or_separator, has_char. simpl. intros H.
  repeat (apply orb_true_iff in H; destruct H as [H | H];
          [apply N.eqb_eq in H; subst; auto |]).
  discriminate.
Qed.

Lemma to_ascii_numeric c :
  numeric_char c = true ->
  plain (to_ascii_numeral c) = true
  /\ is_adigit (to_ascii_numeral c) = is_digit c
  /\ (is_digit c = false -> to_ascii_numeral c = c).
Proof.
  unfold numeric_char. intros H.
  destruct (is_digit c) eqn:Hd.
  - unfold to_ascii_numeral, plain.
    destruct (N.ltb_spec c 127) as [Hlt | Hge].
    + rewrite (ascii_digit _ Hd Hlt). repeat split; discriminate.
    + rewrite (digit_not_space _ Hd).
      unfold is_digit in Hd.
      destruct (digit_value c) as [d |] eqn:E; [| discriminate].
      pose proof (digit_value_ascii _ _ E) as Hlt.
      assert (Ha : is_adigit (48 + d)%N = true).
      { unfold is_adigit, range. apply andb_true_iff.
        split; apply N.leb_le; lia. }
      rewrite Ha. repeat split; discriminate.
  - change (sign_or_separator c = true) in H.
    assert (Hc : to_ascii_numeral c = c).
    { unfold to_ascii_numeral.
      destruct (sign_or_separator_cases _ H) as [-> | [-> | [-> | ->]]];
        reflexivity. }
    rewrite Hc. unfold plain. rewrite H, orb_true_r.
    repeat split.
    destruct (is_adigit c) eqn:Ha; [| reflexivity].
    apply adigit_digit in Ha. congruence.
Qed.

Lemma plain_cases c :
  plain c = true ->
  (48 <= c <= 57)%N \/ c = ch "." \/ c = ch "," \/ c = ch "-" \/ c = ch "+".
Proof.
  unfold plain. intros H. apply orb_true_iff in H. destruct H as [H | H].
  - left. unfold is_adigit, range in H.
    apply andb_true_iff in H. destruct H as [H1 H2].
    apply N.leb_le in H1. apply N.leb_le in H2. lia.
  - right. apply sign_or_separator_cases. exact H.
Qed.

Ltac plain_char H :=
  destruct (plain_cases _ H) as [? | [-> | [-> | [-> | ->]]]].

Lemma drop_while_id p s :
  match s with c :: _ => p c = false | [] => True end ->
  drop_while p s = s.
Proof. destruct s as [| c s]; simpl; [reflexivity | intros ->; reflexivity]. Qed.

Lemma strip_id p s :
  forallb (fun c => negb (p c)) s = true ->
  rev (drop_while p (rev (drop_while p s))) = s.
Proof.
  intros H.
  assert (Hall : forall c, In c s -> p c = false).
  { intros c Hc. rewrite forallb_forall in H.
    apply negb_true_iff. apply H. exact Hc. }
  rewrite (drop_while_id p s).
  2:{ destruct s; [exact I | apply Hall; left; reflexivity]. }
  rewrite (drop_while_id p (rev s)); [apply rev_involutive |].
  destruct (rev s) as [| c r] eqn:E; [exact I |].
  apply Hall. apply in_rev. rewrite E. left. reflexivity.
Qed.

Lemma plain_not_c_space c : plain c = true -> is_c_space c = false.
Proof.
  intros H. unfold is_c_space, range.
  plain_char H; try reflexivity.
  apply orb_false_iff. split.
  - apply andb_false_iff. right. apply N.leb_gt. lia.
  - apply N.eqb_neq. lia.
Qed.

Lemma c_strip_plain s : forallb plain s = true -> c_strip s = s.
Proof.
  intros H. unfold c_strip. apply strip_id.
  apply forallb_forall. intros c Hc.
  rewrite forallb_forall in H.
  rewrite (plain_not_c_space _ (H c Hc)). reflexivity.
Qed.

Lemma not_underscore (A : Type) (prev : option char) (a b : A) :
  prev <> Some 95%N ->
  match prev with Some 95%N => a | _ => b end = b.
Proof.
  intros Hne. destruct prev as [c |]; [| reflexivity].
  destruct c as [| p]; [reflexivity |].
  do 7 (destruct p as [p | p |]; try reflexivity).
  exfalso. apply Hne. reflexivity.
Qed.

Lemma drop_underscores_plain s : forall prev : option char,
  forallb plain s = true -> prev <> Some 95%N ->
  drop_underscores prev s = Some s.
Proof.
  induction s as [| c s IH]; intros prev H Hp; simpl.
  - apply not_underscore. exact Hp.
  - simpl in H. apply andb_true_iff in H. destruct H as [Hc Hs].
    assert (Hc95 : (c =? 95)%N = false).
    { apply N.eqb_neq. plain_char Hc; try discriminate. lia. }
    rewrite Hc95.
    assert (Hrec : drop_underscores (Some c) s = Some s).
    { apply IH; [exact Hs |]. intros E. inversion E; subst.
      rewrite N.eqb_refl in Hc95. discriminate. }
    rewrite Hrec. apply not_underscore. exact Hp.
Qed.

(** [float] on a text of plain characters: a sign, then a numeral. *)
Definition float_of_plain (t : str) : option pyfloat :=
  let '(neg, body) := split_sign t in
  match parse_number body with
  | Some (m, e) => Some (if neg then float_neg (dec m e) else dec m e)
  | None => None
  end.

Lemma lower_plain s : forallb plain s = true -> lower s = s.
Proof.
  induction s as [| c s IH]; simpl; [reflexivity |].
  intros H. apply andb_true_iff in H. destruct H as [Hc Hs].
  rewrite (IH Hs).
  assert (Hl : lower_char c = [c]).
  { unfold lower_char, is_ascii_upper.
    plain_char Hc; try reflexivity.
    replace ((65 <=? c) && (c <=? 90))%N with false
      by (symmetry; apply andb_false_iff; left; apply N.leb_gt; lia).
    replace (c =? 304)%N with false by (symmetry; apply N.eqb_neq; lia).
    replace (c =? 8490)%N with false by (symmetry; apply N.eqb_neq; lia).
    reflexivity. }
  rewrite Hl. reflexivity.
Qed.

Lemma plain_not_word s x w :
  forallb plain s = true -> plain x = false -> str_eqb s (x :: w) = false.
Proof.
  destruct s as [| c s]; simpl; [reflexivity |].
  intros H Hx. apply andb_true_iff in H. destruct H as [Hc _].
  destruct (N.eqb_spec c x) as [-> | _]; [congruence | reflexivity].
Qed.

Lemma split_sign_plain t :
  forallb plain t = true -> forallb plain (snd (split_sign t)) = true.
Proof.
  destruct t as [| c r]; simpl; [reflexivity |].
  intros H. destruct (c =? 45)%N; [| destruct (c =? 43)%N]; simpl;
    try exact H; apply andb_true_iff in H; tauto.
Qed.

Lemma numeric_to_plain t :
  forallb numeric_char t = true ->
  forallb plain (map to_ascii_numeral t) = true.
Proof.
  intros H. apply forallb_forall. intros x Hx.
  apply in_map_iff in Hx. destruct Hx as [c [<- Hc]].
  rewrite forallb_forall in H.
  exact (proj1 (to_ascii_numeric c (H c Hc))).
Qed.

(** On a cleaned text [float] reads a sign and a numeral. *)
Lemma py_float_numeric t :
  forallb numeric_char t = true ->
  py_float t = float_of_plain (map to_ascii_numeral t).
Proof.
  intros H. pose proof (numeric_to_plain t H) as Hp.
  unfold py_float, float_of_plain.
  rewrite (c_strip_plain _ Hp).
  rewrite (drop_underscores_plain _ None Hp) by discriminate.
  pose proof (split_sign_plain _ Hp) as Hb.
  destruct (split_sign (map to_ascii_numeral t)) as [neg body].
  simpl in Hb. rewrite (lower_plain _ Hb).
  assert (E1 : str_eqb body (u "inf") = false)
    by (apply (plain_not_word body 105%N [110; 102]%N);
        [exact Hb | reflexivity]).
  assert (E2 : str_eqb body (u "infinity") = false)
    by (apply (plain_not_word body 105%N
                 [110; 102; 105; 110; 105; 116; 121]%N);
        [exact Hb | reflexivity]).
  assert (E3 : str_eqb body (u "nan") = false)
    by (apply (plain_not_word body 110%N [97; 110]%N);
        [exact Hb | reflexivity]).
  rewrite E1, E2, E3. reflexivity.
Qed.

Lemma span_none p s : existsb p s = false -> span p s = ([], s).
Proof.
  destruct s as [| c s]; simpl; [reflexivity |].
  intros H. apply orb_false_iff in H. destruct H as [-> _]. reflexivity.
Qed.

(** No numeral without a digit. *)
Lemma parse_number_no_digit s :
  existsb is_adigit s = false -> parse_number s = None.
Proof.
  intros H. unfold parse_number. rewrite (span_none _ _ H).
  destruct s as [| c t]; [reflexivity |].
  simpl in H. apply orb_false_iff in H. destruct H as [_ Ht].
  destruct (c =? 46)%N; [| reflexivity].
  rewrite (span_none _ _ Ht). reflexivity.
Qed.

Lemma float_of_plain_no_digit t :
  existsb is_adigit t = false -> float_of_plain t = None.
Proof.
  intros H. unfold float_of_plain.
  assert (Hb : existsb is_adigit (snd (split_sign t)) = false).
  { destruct t as [| c r]; simpl; [reflexivity |].
    simpl in H. apply orb_false_iff in H. destruct H as [Hc Hr].
    destruct (c =? 45)%N; [| destruct (c =? 43)%N]; simpl;
      try exact Hr; rewrite Hc, Hr; reflexivity. }
  destruct (split_sign t) as [neg body]. simpl in Hb.
  rewrite (parse_number_no_digit _ Hb). reflexivity.
Qed.

Lemma existsb_map_digits t :
  forallb numeric_char t = true ->
  existsb is_adigit (map to_ascii_numeral t) = existsb is_digit t.
Proof.
  induction t as [| c t IH]; simpl; [reflexivity |].
  intros H. apply andb_true_iff in H. destruct H as [Hc Ht].
  rewrite (IH Ht).
  rewrite (proj1 (proj2 (to_ascii_numeric c Hc))). reflexivity.
Qed.

(** [float] fails on a cleaned text without a digit. *)
Lemma py_float_no_digit t :
  forallb numeric_char t = true -> existsb is_digit t = false ->
  py_float t = None.
Proof.
  intros H Hd. rewrite (py_float_numeric _ H).
  apply float_of_plain_no_digit.
  rewrite existsb_map_digits; [exact Hd | exact H].
Qed.

(** *** Numerals *)

Lemma span_spec p s :
  s = fst (span p s) ++ snd (span p s)
  /\ forallb p (fst (span p s)) = true
  /\ match snd (span p s) with c :: _ => p c = false | [] => True end.
Proof.
  induction s as [| c s IH]; simpl; [auto |].
  destruct (p c) eqn:Hc.
  - destruct (span p s) as [a r]. simpl in *.
    destruct IH as [E [Ha Hr]]. rewrite Hc, Ha. repeat split; congruence.
  - simpl. auto.
Qed.

Lemma span_all p s : forallb p s = true -> span p s = (s, []).
Proof.
  induction s as [| c s IH]; simpl; [reflexivity |].
  intros H. apply andb_true_iff in H. destruct H as [-> Hs].
  rewrite (IH Hs). reflexivity.
Qed.

Lemma span_app p a c r :
  forallb p a = true -> p c = false -> span p (a ++ c :: r) = (a, c :: r).
Proof.
  intros Ha Hc. induction a as [| x a IH]; simpl.
  - rewrite Hc. reflexivity.
  - simpl in Ha. apply andb_true_iff in Ha. destruct Ha as [-> Ha].
    rewrite (IH Ha). reflexivity.
Qed.

Definition nonempty (s : str) : bool :=
  match s with [] => false | _ => true end.

Lemma parse_number_int ip :
  forallb is_adigit ip = true ->
  parse_number ip
  = if nonempty ip then Some (Z.of_N (digits_N ip), 0%Z) else None.
Proof.
  intros H. unfold parse_number. rewrite (span_all _ _ H).
  rewrite app_nil_r. destruct ip; reflexivity.
Qed.

Lemma parse_number_frac ip fp :
  forallb is_adigit ip = true -> forallb is_adigit fp = true ->
  parse_number (ip ++ 46%N :: fp)
  = if nonempty (ip ++ fp)
    then Some (Z.of_N (digits_N (ip ++ fp)),
               (- Z.of_nat (List.length fp))%Z)
    else None.
Proof.
  intros Hi Hf. unfold parse_number.
  rewrite (span_app _ _ _ _ Hi) by reflexivity.
  cbn [N.eqb Pos.eqb]. rewrite (span_all _ _ Hf).
  destruct (ip ++ fp); reflexivity.
Qed.

Lemma parse_number_two_dots ip fp rest :
  forallb is_adigit ip = true -> forallb is_adigit fp = true ->
  parse_number (ip ++ 46%N :: fp ++ 46%N :: rest) = None.
Proof.
  intros Hi Hf. unfold parse_number.
  rewrite (span_app _ _ _ _ Hi) by reflexivity.
  cbn [N.eqb Pos.eqb]. rewrite (span_app _ _ _ _ Hf) by reflexivity.
  destruct (ip ++ fp); reflexivity.
Qed.

(** A digit or a dot. *)
Definition digit_or_dot (c : char) : bool := is_digit c || (c =? ch ".")%N.

(** Digits with at most one dot among them, and at least one digit. *)
Definition is_numeral (b : str) : bool :=
  let '(ip, r) := span is_digit b in
  match r with
  | [] => nonempty ip
  | c :: fp => (c =? ch ".")%N && forallb is_digit fp && nonempty (ip ++ fp)
  end.

Lemma digit_or_dot_numeric c : digit_or_dot c = true -> numeric_char c = true.
Proof.
  unfold digit_or_dot, numeric_char. intros H.
  apply orb_true_iff in H. destruct H as [-> | H]; [reflexivity |].
  apply N.eqb_eq in H. subst c. apply orb_true_r.
Qed.

Lemma digits_to_ascii ds :
  forallb is_digit ds = true ->
  forallb is_adigit (map to_ascii_numeral ds) = true.
Proof.
  intros H. apply forallb_forall. intros x Hx.
  apply in_map_iff in Hx. destruct Hx as [c [<- Hc]].
  rewrite forallb_forall in H. specialize (H c Hc).
  assert (Hn : numeric_char c = true)
    by (unfold numeric_char; rewrite H; reflexivity).
  rewrite (proj1 (proj2 (to_ascii_numeric c Hn))). exact H.
Qed.

Lemma nonempty_map (f : char -> char) s : nonempty (map f s) = nonempty s.
Proof. destruct s; reflexivity. Qed.

Lemma split_sign_unsigned t :
  match t with
  | c :: _ => (c =? 45)%N = false /\ (c =? 43)%N = false
  | [] => True
  end -> split_sign t = (false, t).
Proof.
  destruct t as [| c r]; simpl; [reflexivity |].
  intros [-> ->]. reflexivity.
Qed.

Lemma head_not_sign b :
  forallb digit_or_dot b = true ->
  match map to_ascii_numeral b with
  | c :: _ => (c =? 45)%N = false /\ (c =? 43)%N = false
  | [] => True
  end.
Proof.
  destruct b as [| c r]; simpl; [exact (fun _ => I) |].
  intros H. apply andb_true_iff in H. destruct H as [Hc _].
  pose proof (to_ascii_numeric c (digit_or_dot_numeric _ Hc))
    as [Hp [Ha Hn]].
  unfold digit_or_dot in Hc. destruct (is_digit c) eqn:Hd.
  - unfold is_adigit, range in Ha.
    apply andb_true_iff in Ha. destruct Ha as [H1 H2].
    apply N.leb_le in H1. apply N.leb_le in H2.
    split; apply N.eqb_neq; lia.
  - simpl in Hc. apply N.eqb_eq in Hc. subst c.
    rewrite (Hn eq_refl). split; reflexivity.
Qed.

(** [float] reads a text of digits and dots exactly when it is a
    numeral, and then as a number that is not negative. *)
Lemma py_float_numeral b :
  forallb digit_or_dot b = true ->
  if is_numeral b
  then exists m e, (0 <= m)%Z /\ py_float b = Some (dec m e)
  else py_float b = None.
Proof.
  intros H.
  assert (Hn : forallb numeric_char b = true).
  { apply forallb_forall. intros c Hc. rewrite forallb_forall in H.
    apply digit_or_dot_numeric. exact (H c Hc). }
  rewrite (py_float_numeric _ Hn). unfold float_of_plain.
  rewrite (split_sign_unsigned _ (head_not_sign _ H)).
  unfold is_numeral.
  destruct (span_spec is_digit b) as [E [Hi Hr]].
  destruct (span is_digit b) as [ip r]. simpl in E, Hi, Hr.
  pose proof (digits_to_ascii _ Hi) as Hia.
  destruct r as [| c fp0].
  - rewrite app_nil_r in E. subst b.
    rewrite (parse_number_int _ Hia), nonempty_map.
    destruct (nonempty ip); [| reflexivity].
    do 2 eexists. split; [| reflexivity]. apply N2Z.is_nonneg.
  - assert (Hc : c = ch ".").
    { rewrite forallb_forall in H.
      assert (Hin : In c b) by (rewrite E; apply in_elt).
      specialize (H c Hin). unfold digit_or_dot in H.
      rewrite Hr in H. apply N.eqb_eq in H. exact H. }
    subst c. cbn [N.eqb Pos.eqb andb].
    destruct (span_spec is_digit fp0) as [E2 [Hf Hr2]].
    destruct (forallb is_digit fp0) eqn:Hall.
    + subst b. rewrite map_app. cbn [map].
      change (to_ascii_numeral (ch ".")) with 46%N.
      rewrite (parse_number_frac _ _ Hia (digits_to_ascii _ Hall)).
      rewrite <- map_app, nonempty_map.
      destruct (nonempty (ip ++ fp0)); [| reflexivity].
      do 2 eexists. split; [| reflexivity]. apply N2Z.is_nonneg.
    + destruct (snd (span is_digit fp0)) as [| c2 rest] eqn:Er.
      * rewrite app_nil_r in E2. rewrite <- E2 in Hf. congruence.
      * assert (Hc2 : c2 = ch ".").
        { rewrite forallb_forall in H.
          assert (Hin : In c2 b).
          { rewrite E. apply in_or_app. right. right.
            rewrite E2. apply in_elt. }
          specialize (H c2 Hin). unfold digit_or_dot in H.
          rewrite Hr2 in H. apply N.eqb_eq in H. exact H. }
        subst c2. subst b. rewrite E2.
        rewrite !map_app. cbn [map]. rewrite map_app. cbn [map].
        change (to_ascii_numeral (ch ".")) with 46%N.
        rewrite (parse_number_two_dots _ _ _ Hia (digits_to_ascii _ Hf)).
        reflexivity.
Qed.

(** *** The text the parsers hand to [float] *)

Lemma in_replace_char c new s x :
  In x (replace_char c new s) -> (In x s /\ x <> c) \/ In x new.
Proof.
  unfold replace_char. intros H. apply in_flat_map in H.
  destruct H as [y [Hy Hx]].
  destruct (N.eqb_spec y c) as [-> | Hne]; [right; exact Hx |].
  destruct Hx as [<- | []]. left. auto.
Qed.

(** The text after stripping: [re.sub(r'[^\d\.,\-\+]', '', s.strip())]. *)
Definition cleaned_text (s : str) : str := filter numeric_char (strip s).

Lemma cleaned_numeric s : forallb numeric_char (cleaned_text s) = true.
Proof. apply forallb_filter. Qed.

Lemma in_drop_while p s x : In x (drop_while p s) -> In x s.
Proof.
  induction s as [| c s IH]; simpl; [tauto |].
  destruct (p c); [intros H; right; exact (IH H) | exact (fun H => H)].
Qed.

Lemma in_strip s x : In x (strip s) -> In x s.
Proof.
  unfold strip. intros H. apply in_rev in H.
  apply in_drop_while in H. apply in_rev in H.
  apply in_drop_while in H. exact H.
Qed.

Lemma in_cleaned s x : In x (cleaned_text s) -> In x s.
Proof.
  unfold cleaned_text. intros H. apply filter_In in H.
  apply in_strip. tauto.
Qed.

(** Where a character of a text of replacements comes from. *)
Ltac origin H :=
  repeat match type of H with
         | In _ (if ?b then _ else _) => destruct b
         | In _ (replace_char _ _ _) =>
             apply in_replace_char in H; destruct H as [[H _] | H]
         | In _ [] => destruct H
         | In _ (u ".") => destruct H as [<- | []]
         end.

(** Resolving the separators brings in dots only. *)
Lemma in_resolve_defensive t x :
  In x (DefensiveTransactionParser.resolve_separators t) ->
  In x t \/ x = ch ".".
Proof.
  unfold DefensiveTransactionParser.resolve_separators. intros H.
  origin H; auto.
Qed.

Lemma replaced_gone c new s :
  ~ In c new -> ~ In c (replace_char c new s).
Proof.
  intros Hn H. apply in_replace_char in H.
  destruct H as [[_ H] | H]; [congruence | exact (Hn H)].
Qed.

Lemma in_resolve_processor t x :
  In x (TransactionProcessor.resolve_separators t) ->
  (In x t \/ x = ch ".") /\ x <> ch ",".
Proof.
  unfold TransactionProcessor.resolve_separators. intros H. split.
  - origin H; auto.
  - intros ->.
    destruct (has_char (ch ",") t) eqn:Hc.
    + repeat match type of H with
             | In _ (if ?b then _ else _) => destruct b
             end;
        revert H; apply replaced_gone; simpl; intuition discriminate.
    + cbn [andb] in H.
      exact (SeparatorFacts.no_char_absent _ _ _ Hc H eq_refl).
Qed.

(** The text without its signs:
    [cleaned.replace('-', '').replace('+', '')]. *)
Definition unsigned (t : str) : str :=
  replace_char (ch "+") [] (replace_char (ch "-") [] t).

(** What [_parse_amount] hands to [float]. *)
Definition body (s : str) : str :=
  unsigned (TransactionProcessor.resolve_separators (cleaned_text s)).

(** The sign [_parse_amount] gives the amount. *)
Definition minus (s : str) : bool :=
  starts_with (u "-")
              (TransactionProcessor.resolve_separators (cleaned_text s)).

Lemma in_body s x :
  In x (body s) ->
  digit_or_dot x = true /\ (is_digit x = true -> In x (cleaned_text s)).
Proof.
  unfold body, unsigned. intros H.
  apply in_replace_char in H. destruct H as [[H Hp] | []].
  apply in_replace_char in H. destruct H as [[H Hm] | []].
  apply in_resolve_processor in H. destruct H as [[H | ->] Hc].
  - pose proof H as Hs.
    unfold cleaned_text in H. apply filter_In in H. destruct H as [_ H].
    split; [| intros _; exact Hs].
    unfold numeric_char in H. unfold digit_or_dot.
    destruct (is_digit x); [reflexivity |].
    change (sign_or_separator x = true) in H.
    destruct (sign_or_separator_cases _ H) as [-> | [-> | [-> | ->]]];
      [reflexivity | | |]; exfalso; auto.
  - split; [reflexivity | discriminate].
Qed.

Lemma body_digits_and_dots s : forallb digit_or_dot (body s) = true.
Proof. apply forallb_forall. intros x Hx. apply (in_body _ _ Hx). Qed.

Lemma numeral_has_digit b :
  is_numeral b = true -> exists c, In c b /\ is_digit c = true.
Proof.
  unfold is_numeral. intros H.
  destruct (span_spec is_digit b) as [E [Hi _]].
  destruct (span is_digit b) as [ip r]. simpl in E, Hi.
  destruct r as [| c fp].
  - destruct ip as [| d ip]; [discriminate |].
    exists d. simpl in Hi. apply andb_true_iff in Hi.
    rewrite E. split; [left; reflexivity | tauto].
  - apply andb_true_iff in H. destruct H as [H Hne].
    apply andb_true_iff in H. destruct H as [_ Hf].
    destruct ip as [| d ip].
    + destruct fp as [| d fp]; [discriminate |].
      exists d. simpl in Hf. apply andb_true_iff in Hf.
      rewrite E. split; [right; left; reflexivity | tauto].
    + exists d. simpl in Hi. apply andb_true_iff in Hi.
      rewrite E. split; [left; reflexivity | tauto].
Qed.

(** A text with a digit is neither empty nor the word "nan". *)
Lemma digit_passes_guard s c :
  In c s -> is_digit c = true ->
  negb (truthy (PStr s)) || str_eqb (lower s) (u "nan") = false.
Proof.
  intros Hin Hd. apply orb_false_iff. split.
  - destruct s; [destruct Hin | reflexivity].
  - destruct (str_eqb_spec (lower s) (u "nan")) as [E |]; [| reflexivity].
    exfalso.
    assert (Hl : lower_char c = [c]).
    { unfold lower_char, is_ascii_upper.
      destruct (digit_cases _ Hd) as [Hr | Hr].
      - replace ((65 <=? c) && (c <=? 90))%N with false
          by (symmetry; apply andb_false_iff; left; apply N.leb_gt; lia).
        replace (c =? 304)%N with false by (symmetry; apply N.eqb_neq; lia).
        replace (c =? 8490)%N with false
          by (symmetry; apply N.eqb_neq; lia).
        reflexivity.
      - replace ((65 <=? c) && (c <=? 90))%N with false
          by (symmetry; apply andb_false_iff; right; apply N.leb_gt; lia).
        replace (c =? 304)%N with false by (symmetry; apply N.eqb_neq; lia).
        destruct (N.eqb_spec c 8490) as [-> | _]; [| reflexivity].
        vm_compute in Hd. discriminate. }
    assert (Hc : In c (lower s)).
    { unfold lower. apply in_flat_map. exists c.
      rewrite Hl. split; [exact Hin | left; reflexivity]. }
    rewrite E in Hc. simpl in Hc.
    destruct Hc as [<- | [<- | [<- | []]]]; vm_compute in Hd; discriminate.
Qed.

(** *** The two parsers on a token *)

Section Processor.
Variable is_word : char -> bool.

Definition guard (s : str) : bool :=
  negb (truthy (PStr s)) || str_eqb (lower s) (u "nan").

(** The amount of [_parse_amount]: what [float] reads in the body,
    with the sign, unless it is out of range. *)
Lemma parse_amount_fst s :
  fst (TransactionProcessor._parse_amount is_word s)
  = if guard s then None
    else
      match py_float (body s) with
      | Some a =>
          let a := if minus s then float_neg a else a in
          if TransactionProcessor.out_of_range a then None else Some a
      | None => None
      end.
Proof.
  unfold TransactionProcessor._parse_amount. fold (guard s).
  destruct (guard s); [reflexivity |].
  rewrite re_sub_not_numeric. fold (cleaned_text s).
  unfold body, minus.
  destruct (cleaned_text s) as [| c r] eqn:E; [reflexivity |].
  fold (unsigned (TransactionProcessor.resolve_separators (c :: r))).
  destruct (unsigned _) as [| c' r'] eqn:Eb; [reflexivity |].
  destruct (py_float (c' :: r')) as [a |]; [| reflexivity].
  cbv zeta.
  destruct (TransactionProcessor.out_of_range _); reflexivity.
Qed.

Lemma no_digit_no_numeral s :
  existsb is_digit (cleaned_text s) = false -> is_numeral (body s) = false.
Proof.
  intros H. destruct (is_numeral (body s)) eqn:E; [| reflexivity].
  destruct (numeral_has_digit _ E) as [c [Hc Hd]].
  pose proof (proj2 (in_body _ _ Hc) Hd) as Hin.
  assert (existsb is_digit (cleaned_text s) = true)
    by (apply existsb_exists; eauto).
  congruence.
Qed.

Lemma malformed_rejected s :
  is_numeral (body s) = false ->
  fst (TransactionProcessor._parse_amount is_word s) = None.
Proof.
  intros H. rewrite parse_amount_fst.
  destruct (guard s); [reflexivity |].
  pose proof (py_float_numeral _ (body_digits_and_dots s)) as Hf.
  rewrite H in Hf. rewrite Hf. reflexivity.
Qed.

Lemma numeral_read s :
  is_numeral (body s) = true ->
  exists m e,
    (0 <= m)%Z /\ py_float (body s) = Some (dec m e)
    /\ fst (TransactionProcessor._parse_amount is_word s)
       = let a := if minus s then float_neg (dec m e) else dec m e in
         if TransactionProcessor.out_of_range a then None else Some a.
Proof.
  intros H. rewrite parse_amount_fst.
  destruct (numeral_has_digit _ H) as [c [Hc Hd]].
  pose proof (in_cleaned _ _ (proj2 (in_body _ _ Hc) Hd)) as Hin.
  unfold guard. rewrite (digit_passes_guard _ _ Hin Hd).
  pose proof (py_float_numeral _ (body_digits_and_dots s)) as Hf.
  rewrite H in Hf. destruct Hf as [m [e [Hm Hf]]].
  exists m, e. rewrite Hf. split; [exact Hm |]. split; [reflexivity |].
  cbv zeta. destruct (minus s); reflexivity.
Qed.

End Processor.

Lemma defensive_no_digit s :
  existsb is_digit (cleaned_text s) = false ->
  exists error,
    DefensiveTransactionParser.parse_amount_with_currency s
    = AmountErr error.
Proof.
  intros H.
  assert (Hf : py_float (DefensiveTransactionParser.resolve_separators
                           (cleaned_text s)) = None).
  { apply py_float_no_digit.
    - apply forallb_forall. intros x Hx.
      apply in_resolve_defensive in Hx. destruct Hx as [Hx | ->].
      + pose proof (cleaned_numeric s) as Hn.
        rewrite forallb_forall in Hn. exact (Hn x Hx).
      + reflexivity.
    - destruct (existsb is_digit
                  (DefensiveTransactionParser.resolve_separators
                     (cleaned_text s))) eqn:Ed; [| reflexivity].
      apply existsb_exists in Ed. destruct Ed as [x [Hx Hd]].
      apply in_resolve_defensive in Hx. destruct Hx as [Hx | ->].
      + assert (existsb is_digit (cleaned_text s) = true)
          by (apply existsb_exists; eauto).
        congruence.
      + vm_compute in Hd. discriminate. }
  unfold DefensiveTransactionParser.parse_amount_with_currency.
  destruct (_ || _); [eauto |].
  rewrite re_sub_not_numeric. fold (cleaned_text s).
  rewrite Hf.
  destruct (cleaned_text s); eauto.
Qed.

(** The sign follows the token: a leading minus makes the amount
    negative, and no minus at all leaves it as it is. *)
Lemma replace_char_head c new x r :
  x <> c -> replace_char c new (x :: r) = x :: replace_char c new r.
Proof.
  intros H. unfold replace_char. simpl.
  destruct (N.eqb_spec x c); [congruence | reflexivity].
Qed.

Lemma minus_leading s :
  starts_with (u "-") (strip s) = true -> minus s = true.
Proof.
  unfold minus, cleaned_text. intros H.
  destruct (strip s) as [| c r]; [discriminate |].
  change (u "-") with [45%N] in H. cbn [starts_with] in H.
  rewrite andb_true_r in H. apply N.eqb_eq in H. subst c.
  cbn [filter]. change (numeric_char 45) with true. cbv iota.
  unfold TransactionProcessor.resolve_separators.
  repeat match goal with
         | |- context [if ?b then _ else _] => destruct b
         end;
    rewrite ?replace_char_head by discriminate; reflexivity.
Qed.

Lemma minus_absent s : has_char (ch "-") s = false -> minus s = false.
Proof.
  unfold minus. intros H.
  destruct (TransactionProcessor.resolve_separators (cleaned_text s))
    as [| c r] eqn:E; [reflexivity |].
  change (u "-") with [45%N]. cbn [starts_with]. rewrite andb_true_r.
  destruct (N.eqb_spec 45 c) as [<- | _]; [| reflexivity].
  exfalso.
  assert (Hin : In 45%N (TransactionProcessor.resolve_separators
                           (cleaned_text s)))
    by (rewrite E; left; reflexivity).
  apply in_resolve_processor in Hin. destruct Hin as [[Hin | Hin] _].
  - apply in_cleaned in Hin.
    exact (SeparatorFacts.no_char_absent _ _ _ H Hin eq_refl).
  - discriminate.
Qed.

End AmountFacts.

(** [C8], as stated, fails.  In "1.2.3" digits remain and no magnitude is
    out of bound, yet both parsers return a failure; and
    [parse_amount_with_currency] has no bound: it returns 99999999999,
    which [_parse_amount] rejects. *)
Lemma malformed_and_unbounded :
  existsb is_digit (AmountFacts.cleaned_text (u "1.2.3")) = true
  /\ (forall is_word,
        fst (TransactionProcessor._parse_amount is_word (u "1.2.3")) = None)
  /\ DefensiveTransactionParser.parse_amount_with_currency (u "1.2.3")
     = AmountErr (u "Could not convert to float: 1.2.3")
  /\ DefensiveTransactionParser.parse_amount_with_currency (u "99999999999")
     = AmountOk (dec 99999999999 0) (u "USD")
  /\ TransactionProcessor.out_of_range (dec 99999999999 0) = true
  /\ (forall is_word,
        fst (TransactionProcessor._parse_amount is_word (u "99999999999"))
        = None).
Proof.
  split; [vm_compute; reflexivity |].
  split; [intros is_word; vm_compute; reflexivity |].
  split; [vm_compute; reflexivity |]. split; [vm_compute; reflexivity |].
  split; [vm_compute; reflexivity |].
  intros is_word. vm_compute. reflexivity.
Qed.

(** [C8], amended.  Both parsers return a failure when no digit remains
    after stripping.  [_parse_amount] also returns a failure when what
    remains, with its separators resolved and its signs removed, is not a
    numeral (digits with at most one dot), and when the magnitude is
    above 1000000000 or non-zero and below 0.000001; otherwise it returns
    the number of the numeral, negated when the resolved text starts with
    a minus: a token with a leading minus gives a negative amount and a
    token without a minus an amount that is not negative.
    [parse_amount_with_currency] applies no bound. *)
Theorem amount_rejection is_word s :
  (existsb is_digit (AmountFacts.cleaned_text s) = false ->
   fst (TransactionProcessor._parse_amount is_word s) = None
   /\ exists error,
        DefensiveTransactionParser.parse_amount_with_currency s
        = AmountErr error)
  /\ (AmountFacts.is_numeral (AmountFacts.body s) = false ->
      fst (TransactionProcessor._parse_amount is_word s) = None)
  /\ (AmountFacts.is_numeral (AmountFacts.body s) = true ->
      exists m e,
        (0 <= m)%Z /\ py_float (AmountFacts.body s) = Some (dec m e)
        /\ fst (TransactionProcessor._parse_amount is_word s)
           = let a := if AmountFacts.minus s then float_neg (dec m e)
                      else dec m e in
             if TransactionProcessor.out_of_range a then None else Some a)
  /\ (starts_with (u "-") (strip s) = true -> AmountFacts.minus s = true)
  /\ (has_char (ch "-") s = false -> AmountFacts.minus s = false)
  /\ (forall a c,
        TransactionProcessor._parse_amount is_word s = (Some a, c) ->
        TransactionProcessor.out_of_range a = false)
  /\ DefensiveTransactionParser.parse_amount_with_currency (u "99999999999")
     = AmountOk (dec 99999999999 0) (u "USD").
Proof.
  repeat split.
  - apply AmountFacts.malformed_rejected.
    apply AmountFacts.no_digit_no_numeral. exact H.
  - apply AmountFacts.defensive_no_digit. exact H.
  - apply AmountFacts.malformed_rejected.
  - apply AmountFacts.numeral_read.
  - apply AmountFacts.minus_leading.
  - apply AmountFacts.minus_absent.
  - intros a c H.
    pose proof (AmountFacts.parse_amount_fst is_word s) as Hf.
    rewrite H in Hf. cbn [fst] in Hf.
    destruct (AmountFacts.guard s); [discriminate |].
    destruct (py_float (AmountFacts.body s)) as [x |]; [| discriminate].
    cbv zeta in Hf.
    destruct (TransactionProcessor.out_of_range _) eqn:E; [discriminate |].
    inversion Hf; subst. exact E.
Qed.

Lemma amount_rejection_witness :
  existsb is_digit (AmountFacts.cleaned_text (u "$ --")) = false
  /\ AmountFacts.is_numeral (AmountFacts.body (u "-1.234,50")) = true
  /\ fst (TransactionProcessor._parse_amount ascii_word (u "$ --")) = None
  /\ exists m e,
       (0 <= m)%Z
       /\ py_float (AmountFacts.body (u "-1.234,50")) = Some (dec m e)
       /\ fst (TransactionProcessor._parse_amount ascii_word (u "-1.234,50"))
          = let a := if AmountFacts.minus (u "-1.234,50")
                     then float_neg (dec m e) else dec m e in
            if TransactionProcessor.out_of_range a then None else Some a.
Proof.
  split; [vm_compute; reflexivity |].
  split; [vm_compute; reflexivity |].
  split.
  - apply (proj1 (amount_rejection ascii_word (u "$ --"))).
    vm_compute. reflexivity.
  - apply (proj1 (proj2 (proj2 (amount_rejection ascii_word
                                                 (u "-1.234,50"))))).
    vm_compute. reflexivity.
Defined.

(** ** The sanitizer *)

Module ObjectFacts.
Import DataSanitizer DataSanitizer.Objects.

Lemma length_set_nth {A : Type} (x : A) : forall l j,
  List.length (set_nth j x l) = List.length l.
Proof.
  induction l as [| a l IH]; intros [| j]; simpl; try reflexivity.
  rewrite IH. reflexivity.
Qed.

Lemma nth_set_nth_same {A : Type} (x d : A) : forall l j,
  (j < List.length l)%nat -> nth j (set_nth j x l) d = x.
Proof.
  induction l as [| a l IH]; intros [| j] H; simpl in *; try lia;
    [reflexivity |].
  apply IH. lia.
Qed.

Lemma nth_set_nth_other {A : Type} (x d : A) : forall l j k,
  j <> k -> nth k (set_nth j x l) d = nth k l d.
Proof.
  induction l as [| a l IH]; intros [| j] [| k] H; simpl; try reflexivity;
    try congruence.
  apply IH. congruence.
Qed.

Lemma deref_update h p df :
  (p < List.length h)%nat -> deref (update h p df) p = df.
Proof. intros H. apply nth_set_nth_same. exact H. Qed.

Lemma deref_update_other h p q df :
  p <> q -> deref (update h p df) q = deref h q.
Proof. intros H. apply nth_set_nth_other. exact H. Qed.

Lemma length_update h p df : List.length (update h p df) = List.length h.
Proof. apply length_set_nth. Qed.

Lemma deref_new h df : deref (h ++ [df]) (List.length h) = df.
Proof. unfold deref. rewrite nth_middle. reflexivity. Qed.

Lemma deref_old h df p :
  (p < List.length h)%nat -> deref (h ++ [df]) p = deref h p.
Proof. intros H. unfold deref. apply app_nth1. exact H. Qed.

(** What the [try] block does to the heap: the tables other than [df]
    stay as they are, and the outcome is the one of the steps on the
    table at [df]. *)
Lemma sanitize_steps_heap nfkc h df :
  (df < List.length h)%nat ->
  (forall q, (q < List.length h)%nat -> q <> df ->
     deref (fst (Objects.sanitize_steps nfkc h df)) q = deref h q)
  /\ match snd (Objects.sanitize_steps nfkc h df) with
     | Ok out =>
         exists report,
           DataSanitizer.sanitize_steps nfkc (deref h df)
           = Ok (deref (fst (Objects.sanitize_steps nfkc h df)) out, report)
     | Raise e => DataSanitizer.sanitize_steps nfkc (deref h df) = Raise e
     end.
Proof.
  intros Hdf.
  unfold Objects.sanitize_steps, DataSanitizer.sanitize_steps.
  destruct (fix_shifted_columns (deref h df)) as [d1 |];
    [| split; [intros; reflexivity | reflexivity]].
  cbn [bind]. cbv zeta.
  rewrite (deref_update h df d1 Hdf).
  unfold merge_split_currency_columns.
  set (h1 := update h df d1).
  assert (L1 : List.length h1 = List.length h) by apply length_update.
  assert (O1 : forall q, q <> df -> deref h1 q = deref h q).
  { intros q Hq. apply deref_update_other. congruence. }
  destruct (split_currency_columns d1) as [[a b] |].
  - rewrite (deref_update h1 df _ (eq_ind_r (fun n => (df < n)%nat) Hdf L1)).
    set (h2 := update h1 df (assign_merged a b d1)).
    assert (L2 : List.length h2 = List.length h)
      by (unfold h2; rewrite length_update; exact L1).
    cbn [allocate].
    set (d2 := drop_column b (assign_merged a b d1)).
    set (p := List.length h2).
    assert (P3 : (p < List.length (h2 ++ [d2]))%nat)
      by (rewrite length_app; simpl; unfold p; lia).
    rewrite deref_new. fold p.
    set (h3 := update (h2 ++ [d2]) p (normalize_unicode_symbols nfkc d2)).
    assert (L3 : List.length h3 = S (List.length h)).
    { unfold h3. rewrite length_update, length_app. simpl. lia. }
    assert (P : (p < List.length h3)%nat) by (unfold p; lia).
    assert (D3 : deref h3 p = normalize_unicode_symbols nfkc d2)
      by (apply deref_update; exact P3).
    rewrite D3.
    set (d4 := clean_whitespace_and_quotes (normalize_unicode_symbols nfkc d2)).
    rewrite (deref_update h3 p d4 P).
    assert (O4 : forall q, (q < List.length h)%nat -> q <> df ->
                           deref (update h3 p d4) q = deref h q).
    { intros q Hq Hne.
      rewrite deref_update_other by (unfold p; lia).
      unfold h3. rewrite deref_update_other by (unfold p; lia).
      rewrite deref_old by lia.
      unfold h2. rewrite deref_update_other by congruence.
      apply O1. exact Hne. }
    destruct (fix_csv_artifacts d4) as [d5 |].
    + cbn [allocate fst snd bind]. split.
      * intros q Hq Hne. rewrite deref_old by (rewrite length_update; lia).
        apply O4; assumption.
      * eexists. rewrite deref_new. reflexivity.
    + cbn [fst snd bind]. split; [exact O4 | reflexivity].
  - assert (D1 : deref h1 df = d1) by (apply deref_update; exact Hdf).
    rewrite D1.
    set (d3 := normalize_unicode_symbols nfkc d1).
    assert (P1 : (df < List.length h1)%nat) by lia.
    set (h3 := update h1 df d3).
    assert (L3 : List.length h3 = List.length h)
      by (unfold h3; rewrite length_update; exact L1).
    assert (P : (df < List.length h3)%nat) by lia.
    assert (D3 : deref h3 df = d3) by (apply deref_update; exact P1).
    rewrite D3.
    set (d4 := clean_whitespace_and_quotes d3).
    rewrite (deref_update h3 df d4 P).
    assert (O4 : forall q, (q < List.length h)%nat -> q <> df ->
                           deref (update h3 df d4) q = deref h q).
    { intros q Hq Hne.
      rewrite deref_update_other by congruence.
      unfold h3. rewrite deref_update_other by congruence.
      apply O1. exact Hne. }
    destruct (fix_csv_artifacts d4) as [d5 |].
    + cbn [allocate fst snd bind]. split.
      * intros q Hq Hne. rewrite deref_old by (rewrite length_update; lia).
        apply O4; assumption.
      * eexists. rewrite deref_new. reflexivity.
    + cbn [fst snd bind]. split; [exact O4 | reflexivity].
Qed.

End ObjectFacts.

(** [C5] [sanitize_csv_data] raises nothing.  When a step of the
    sanitization raises, it returns [original_df], the copy it took on
    entry, and that copy holds the table as it was handed in, whatever
    the steps had assigned to the caller's table before; when no step
    raises it returns the cleaned table. *)
Theorem sanitize_fail_open nfkc h df :
  (df < List.length h)%nat ->
  let given := DataSanitizer.Objects.deref h df in
  let run := DataSanitizer.Objects.sanitize_steps nfkc (h ++ [given]) df in
  let result := DataSanitizer.Objects.sanitize_csv_data nfkc h df in
  fst result = fst run
  /\ (forall e,
        snd run = Raise e ->
        snd result = List.length h
        /\ DataSanitizer.Objects.deref (fst result) (snd result) = given)
  /\ (forall out,
        snd run = Ok out ->
        snd result = out
        /\ exists report,
             DataSanitizer.sanitize_steps nfkc given
             = Ok (DataSanitizer.Objects.deref (fst result) out, report))
  /\ DataSanitizer.Objects.deref (fst result) (snd result)
     = DataSanitizer.sanitize_csv_data nfkc given.
Proof.
  intros Hdf given run result.
  assert (Hin : (df < List.length (h ++ [given]))%nat)
    by (rewrite length_app; simpl; lia).
  destruct (ObjectFacts.sanitize_steps_heap nfkc (h ++ [given]) df Hin)
    as [Hothers Hrun].
  fold run in Hothers, Hrun.
  rewrite (ObjectFacts.deref_old h given df Hdf) in Hrun. fold given in Hrun.
  assert (Hcopy : DataSanitizer.Objects.deref (fst run) (List.length h)
                  = given).
  { rewrite Hothers by (try rewrite length_app; simpl; lia).
    apply ObjectFacts.deref_new. }
  assert (Hres : result = (fst run, match snd run with
                                    | Ok out => out
                                    | Raise _ => List.length h
                                    end)).
  { unfold result, DataSanitizer.Objects.sanitize_csv_data.
    cbn [DataSanitizer.Objects.allocate]. fold given. fold run.
    destruct run as [h1 [out | e]]; reflexivity. }
  rewrite Hres. cbn [fst snd].
  unfold DataSanitizer.sanitize_csv_data.
  destruct (snd run) as [out | e].
  - destruct Hrun as [report Hrun].
    split; [reflexivity |]. split; [intros e He; discriminate He |].
    split; [| rewrite Hrun; reflexivity].
    intros out' Hout. inversion Hout; subst out'.
    split; [reflexivity |]. exists report. exact Hrun.
  - split; [reflexivity |].
    split; [intros e' _; split; [reflexivity | exact Hcopy] |].
    split; [intros out Hout; discriminate Hout |].
    rewrite Hrun. exact Hcopy.
Qed.

(** Two header-like rows under the same index label: dropping the label
    for the first row removes both, and dropping it again for the second
    raises [KeyError].  By then the padded cell of the caller's table has
    been stripped. *)
Definition repeated_label_frame : DataFrame :=
  mk_frame [(PStr (u "a"), DObject); (PStr (u "b"), DObject);
            (PStr (u "c"), DObject)]
    [(0%Z, [PStr (u "date"); PStr (u " x"); PStr (u "y")]);
     (0%Z, [PStr (u "Date"); PStr (u "x"); PStr (u "y")])].

Lemma sanitize_fail_open_witness :
  let h := [repeated_label_frame] in
  let run := DataSanitizer.Objects.sanitize_steps
               (fun s => s) (h ++ [repeated_label_frame]) 0 in
  let result := DataSanitizer.Objects.sanitize_csv_data (fun s => s) h 0 in
  snd run = Raise (KeyError (u "[0] not found in axis"))
  /\ snd result = 1%nat
  /\ DataSanitizer.Objects.deref (fst result) 1 = repeated_label_frame
  /\ DataSanitizer.Objects.deref (fst result) 0
     = mk_frame [(PStr (u "a"), DObject); (PStr (u "b"), DObject);
                 (PStr (u "c"), DObject)]
         [(0%Z, [PStr (u "date"); PStr (u "x"); PStr (u "y")]);
          (0%Z, [PStr (u "Date"); PStr (u "x"); PStr (u "y")])].
Proof.
  intros h run result.
  assert (Hrun : snd run = Raise (KeyError (u "[0] not found in axis")))
    by (vm_compute; reflexivity).
  assert (Hdf : (0 < List.length h)%nat) by (simpl; lia).
  destruct (sanitize_fail_open (fun s => s) h 0 Hdf) as [_ [Hfail _]].
  destruct (Hfail _ Hrun) as [Hout Hcopy].
  split; [exact Hrun |]. split; [exact Hout |].
  split; [| vm_compute; reflexivity].
  rewrite Hout in Hcopy. exact Hcopy.
Defined.

(** ** The sanitizer run twice *)

(** The cells of a row that lie in the text columns. *)
Fixpoint object_cells (cols : list (pyval * dtype)) (cells : list pyval)
    : list pyval :=
  match cols, cells with
  | (_, DObject) :: cols', x :: cells' => x :: object_cells cols' cells'
  | _ :: cols', _ :: cells' => object_cells cols' cells'
  | _, _ => []
  end.

(** Every white space character of [s] that another character follows is
    a U+0020 followed by a character that is not white space. *)
Fixpoint spaced (s : str) : bool :=
  match s with
  | c :: s' =>
      match s' with
      | d :: _ =>
          (negb (is_space c) || ((c =? 32)%N && negb (is_space d)))
          && spaced s'
      | [] => true
      end
  | [] => true
  end.

(** A character at which a cleaned text may begin or end. *)
Definition edge (c : char) : bool :=
  negb (is_space c) && negb (DataSanitizer.quote_char c).

(** A text that is not empty, begins and ends with a character that is
    neither white space nor a quote, and has its words separated by one
    space each. *)
Definition tidy (s : str) : bool :=
  match s with
  | [] => false
  | c :: _ => edge c && edge (last s 0%N) && spaced s
  end.

(** [merge_split_currency_columns] finds two columns to merge. *)
Definition split_currency (df : DataFrame) : bool :=
  match DataSanitizer.split_currency_columns df with
  | Some _ => true
  | None => false
  end.

(** A table on which no step of the sanitizer has work left: every row
    has a cell for every column, there is no pair of numeric columns to
    merge, and the text columns hold only tidy texts in normal form. *)
Definition settled (nfkc : str -> str) (df : DataFrame) : Prop :=
  (forall r, In r (rows df) ->
     List.length (snd r) = List.length (columns df))
  /\ split_currency df = false
  /\ forall r, In r (rows df) ->
       Forall (fun c => exists x, c = PStr x /\ tidy x = true /\ nfkc x = x)
              (object_cells (columns df) (snd r)).

(** A text, and a table, of ASCII characters only. *)
Definition ascii_text (s : str) : Prop := Forall (fun c => (c < 128)%N) s.

Definition ascii_frame (df : DataFrame) : bool :=
  forallb (fun r => forallb (fun c => forallb (fun x => (x <? 128)%N)
                                              (py_str c))
                            (snd r))
          (rows df).

Module SanitizerFacts.
Import DataSanitizer.

(** *** Wrapping quotes *)

Definition ends_well (s : str) : Prop :=
  s = [] \/ edge (last s 0%N) = true.

Lemma ends_well_tail c s : ends_well (c :: s) -> ends_well s.
Proof.
  intros [H | H]; [discriminate |].
  destruct s as [| d s]; [left; reflexivity | right; exact H].
Qed.

Lemma edge_cases c :
  edge c = true -> is_space c = false /\ quote_char c = false.
Proof.
  unfold edge. intros H. apply andb_true_iff in H. destruct H as [H1 H2].
  split; apply negb_true_iff; assumption.
Qed.

Lemma wrapping_quote_inside : forall s p,
  ends_well s -> unmatched wrapping_quote (Some p) s.
Proof.
  induction s as [| c s IH]; intros p H.
  - split; [reflexivity | exact I].
  - split; [| apply IH; apply (ends_well_tail c); exact H].
    unfold match_here, wrapping_quote. cbn [rx].
    destruct (quote_char c) eqn:Q; [| reflexivity].
    destruct H as [H | H]; [discriminate |].
    destruct s as [| d [| e s]].
    + cbn in H. apply edge_cases in H. destruct H as [_ H]. congruence.
    + cbn [at_eol]. destruct (d =? 10)%N eqn:D; [| reflexivity].
      apply N.eqb_eq in D. subst d. cbn in H. discriminate H.
    + reflexivity.
Qed.

Lemma wrapping_quote_absent s :
  tidy s = true -> re_sub wrapping_quote [] s = s.
Proof.
  intros H. unfold re_sub. apply sub_loop_unmatched; [lia |].
  destruct s as [| c s]; [discriminate |].
  unfold tidy in H. apply andb_true_iff in H. destruct H as [H _].
  apply andb_true_iff in H. destruct H as [Hc Hl].
  apply edge_cases in Hc. destruct Hc as [_ Hq].
  split.
  - unfold match_here, wrapping_quote. cbn [rx]. rewrite Hq. reflexivity.
  - apply wrapping_quote_inside. apply (ends_well_tail c). right. exact Hl.
Qed.

(** *** Runs of white space *)

Lemma spaced_tail c s : spaced (c :: s) = true -> spaced s = true.
Proof.
  destruct s as [| d s]; [reflexivity |].
  intros H. change (spaced (c :: d :: s))
    with ((negb (is_space c) || ((c =? 32)%N && negb (is_space d)))
          && spaced (d :: s)) in H.
  apply andb_true_iff in H. apply H.
Qed.

Definition ends_word (s : str) : Prop :=
  s = [] \/ is_space (last s 0%N) = false.

Lemma ends_word_tail c s : ends_word (c :: s) -> ends_word s.
Proof.
  intros [H | H]; [discriminate |].
  destruct s as [| d s]; [left; reflexivity | right; exact H].
Qed.

Lemma sub_loop_spaced : forall fuel prev s,
  (List.length s < fuel)%nat ->
  spaced s = true -> ends_word s ->
  sub_loop fuel (plus (Cls is_space)) (u " ") prev s = s.
Proof.
  induction fuel as [| fuel IH]; intros prev s Hlen Hs He; [lia |].
  destruct s as [| c s]; [reflexivity |].
  assert (Htail : sub_loop fuel (plus (Cls is_space)) (u " ") (Some c) s = s).
  { apply IH; [simpl in Hlen; lia | apply (spaced_tail c); exact Hs
              | apply (ends_word_tail c); exact He]. }
  cbn [sub_loop]. unfold match_here, plus in *. cbn [rx].
  destruct (is_space c) eqn:Sc.
  - destruct s as [| d s].
    + destruct He as [He | He]; [discriminate |]. cbn in He. congruence.
    + change (spaced (c :: d :: s))
        with ((negb (is_space c) || ((c =? 32)%N && negb (is_space d)))
              && spaced (d :: s)) in Hs.
      rewrite Sc in Hs. cbn [negb orb] in Hs.
      apply andb_true_iff in Hs. destruct Hs as [Hs _].
      apply andb_true_iff in Hs. destruct Hs as [Hc Hd].
      apply N.eqb_eq in Hc. apply negb_true_iff in Hd.
      cbn [List.length]. rewrite Hd. cbn [m_after m_last].
      rewrite Htail. subst c.
      replace (List.length (d :: s) <? S (S (List.length s)))%nat
        with true by (symmetry; apply Nat.ltb_lt; simpl; lia).
      reflexivity.
  - rewrite Htail. reflexivity.
Qed.

(** *** Cells that are clean already *)

Lemma strip_tidy s : tidy s = true -> strip s = s.
Proof.
  intros H. destruct s as [| c s]; [discriminate |].
  unfold tidy in H. apply andb_true_iff in H. destruct H as [H _].
  apply andb_true_iff in H. destruct H as [Hc Hl].
  apply edge_cases in Hc. destruct Hc as [Hc _].
  apply edge_cases in Hl. destruct Hl as [Hl _].
  unfold strip. cbn [drop_while]. rewrite Hc.
  rewrite (app_removelast_last 0%N (l := c :: s)) at 1 by discriminate.
  rewrite rev_app_distr. cbn [rev app drop_while]. rewrite Hl.
  change (rev (last (c :: s) 0%N :: rev (removelast (c :: s))))
    with (rev (rev (removelast (c :: s))) ++ [last (c :: s) 0%N]).
  rewrite rev_involutive. symmetry. apply app_removelast_last. discriminate.
Qed.

Lemma clean_text_tidy s : tidy s = true -> clean_text s = s.
Proof.
  intros H. unfold clean_text.
  rewrite (strip_tidy s H), (wrapping_quote_absent s H).
  unfold re_sub. apply sub_loop_spaced; [lia | |].
  - destruct s as [| c s]; [reflexivity |].
    unfold tidy in H. apply andb_true_iff in H. apply H.
  - destruct s as [| c s]; [left; reflexivity | right].
    unfold tidy in H. apply andb_true_iff in H. destruct H as [H _].
    apply andb_true_iff in H. destruct H as [_ Hl].
    apply edge_cases in Hl. apply Hl.
Qed.

Lemma replace_char_same c s : replace_char c [c] s = s.
Proof.
  unfold replace_char. induction s as [| x s IH]; [reflexivity |].
  cbn [flat_map]. rewrite IH. destruct (x =? c)%N eqn:E; [| reflexivity].
  apply N.eqb_eq in E. subst x. reflexivity.
Qed.

Lemma replacements_same rs : forall s,
  Forall (fun r : char * str => snd r = [fst r]) rs ->
  fold_left (fun normalized r => replace_char (fst r) (snd r) normalized)
            rs s = s.
Proof.
  induction rs as [| r rs IH]; intros s H; [reflexivity |].
  inversion H as [| ? ? Hr Hrs]; subst. cbn [fold_left].
  rewrite Hr, replace_char_same. apply IH. exact Hrs.
Qed.

Lemma normalize_unicode_string_id nfkc s :
  nfkc s = s -> normalize_unicode_string nfkc s = s.
Proof.
  intros H. unfold normalize_unicode_string.
  destruct (str_eqb s (u "nan")); [reflexivity |].
  rewrite H. apply replacements_same.
  repeat (first [apply Forall_cons | apply Forall_nil]); reflexivity.
Qed.

Definition clean (nfkc : str -> str) (c : pyval) : Prop :=
  exists x, c = PStr x /\ tidy x = true /\ nfkc x = x.

Lemma normalize_cell_clean nfkc c :
  clean nfkc c -> normalize_cell nfkc c = c.
Proof.
  intros (x & -> & _ & H). unfold normalize_cell. cbn [py_str].
  rewrite (normalize_unicode_string_id nfkc x H). reflexivity.
Qed.

Lemma clean_cell_clean nfkc c : clean nfkc c -> clean_cell c = c.
Proof.
  intros (x & -> & H & _). unfold clean_cell. cbn [py_str].
  rewrite (clean_text_tidy x H). destruct x; [discriminate | reflexivity].
Qed.

(** *** Tables *)

Lemma on_object_columns_id f : forall cols cells,
  Forall (fun c => f c = c) (object_cells cols cells) ->
  on_object_columns f cols cells = cells.
Proof.
  induction cols as [| [n d] cols IH]; intros [| x cells] H;
    try reflexivity.
  cbn [on_object_columns].
  destruct d; cbn [object_cells] in H;
    try (rewrite (IH cells H); reflexivity).
  inversion H as [| ? ? Hx Hrest]; subst.
  rewrite Hx, (IH cells Hrest). reflexivity.
Qed.

Lemma map_id_on {A : Type} (f : A -> A) (l : list A) :
  (forall x, In x l -> f x = x) -> map f l = l.
Proof.
  induction l as [| a l IH]; intros H; [reflexivity |].
  cbn [map]. rewrite (H a (or_introl eq_refl)), IH; [reflexivity |].
  intros x Hx. apply H. right. exact Hx.
Qed.

Lemma map_object_cells_id f df :
  (forall r, In r (rows df) ->
     Forall (fun c => f c = c) (object_cells (columns df) (snd r))) ->
  map_object_cells f df = df.
Proof.
  intros H. destruct df as [cols rs]. unfold map_object_cells.
  cbn [columns rows] in *. f_equal.
  apply map_id_on. intros [i cells] Hr. cbn [fst snd columns].
  rewrite (on_object_columns_id f cols cells (H _ Hr)). reflexivity.
Qed.

Lemma filter_id {A : Type} (f : A -> bool) (l : list A) :
  (forall x, In x l -> f x = true) -> filter f l = l.
Proof.
  induction l as [| a l IH]; intros H; [reflexivity |].
  cbn [filter]. rewrite (H a (or_introl eq_refl)), IH; [reflexivity |].
  intros x Hx. apply H. right. exact Hx.
Qed.

Lemma realign_id df idx : realign df idx = df.
Proof.
  destruct df as [cols rs]. unfold realign, realign_row. cbn [columns rows].
  f_equal. apply map_id_on. intros [i cells] _. cbn [fst snd].
  destruct (i =? idx)%Z; reflexivity.
Qed.

Lemma fold_realign labels : forall df, fold_left realign labels df = df.
Proof.
  induction labels as [| idx labels IH]; intros df; [reflexivity |].
  cbn [fold_left]. rewrite realign_id. apply IH.
Qed.

Lemma shifted_labels_total rs :
  (forall r, In r rs -> snd r <> []) ->
  exists labels, shifted_labels rs = Ok labels.
Proof.
  induction rs as [| [idx cells] rs IH]; intros H; [eexists; reflexivity |].
  destruct IH as [labels Hl]; [intros r Hr; apply H; right; exact Hr |].
  destruct cells as [| x cells].
  - exfalso. apply (H (idx, [])); [left |]; reflexivity.
  - cbn [shifted_labels]. unfold detect_shifted_row. cbn [iloc0 bind].
    rewrite Hl. cbn [bind]. eexists. reflexivity.
Qed.

Lemma fix_shifted_columns_id df :
  (forall r, In r (rows df) -> snd r <> []) ->
  fix_shifted_columns df = Ok df.
Proof.
  intros H. unfold fix_shifted_columns.
  destruct (List.length (columns df) <? 3)%nat; [reflexivity |].
  destruct (shifted_labels_total (rows df) H) as [labels ->].
  cbn [bind]. rewrite fold_realign. reflexivity.
Qed.

Lemma merge_nothing df :
  split_currency df = false -> merge_split_currency_columns df = df.
Proof.
  unfold split_currency, merge_split_currency_columns.
  destruct (split_currency_columns df) as [[a b] |];
    [discriminate | reflexivity].
Qed.

Lemma frame_eta df : mk_frame (columns df) (rows df) = df.
Proof. destruct df; reflexivity. Qed.

Lemma object_cell_at d : forall cols cells j name,
  List.length cells = List.length cols ->
  nth_error cols j = Some (name, DObject) ->
  In (nth j cells d) (object_cells cols cells).
Proof.
  induction cols as [| [n t] cols IH]; intros [| x cells] j name Hl Hj;
    try discriminate.
  - destruct j; discriminate.
  - simpl in Hl. destruct j as [| j].
    + cbn in Hj. inversion Hj; subst. left. reflexivity.
    + cbn [nth_error] in Hj. cbn [nth].
      assert (Hin : In (nth j cells d) (object_cells cols cells))
        by (apply (IH cells j name); [lia | exact Hj]).
      destruct t; cbn [object_cells]; try exact Hin. right. exact Hin.
Qed.

Lemma retype_id df : forall cols j,
  (forall i name,
     nth_error cols i = Some (name, DObject) ->
     all_missing (column_cells df (j + i)) = false) ->
  retype df j cols = cols.
Proof.
  induction cols as [| [n t] cols IH]; intros j H; [reflexivity |].
  assert (Hrest : retype df (S j) cols = cols).
  { apply IH. intros i name Hi.
    replace (S j + i)%nat with (j + S i)%nat by lia.
    apply (H (S i) name). exact Hi. }
  destruct t; cbn [retype]; rewrite Hrest; try reflexivity.
  pose proof (H O n eq_refl) as H0.
  rewrite Nat.add_0_r in H0. rewrite H0. reflexivity.
Qed.

(** No text column of a settled table is converted. *)
Lemma retype_settled nfkc s :
  (forall r, In r (rows s) ->
     List.length (snd r) = List.length (columns s)) ->
  (forall r, In r (rows s) ->
     Forall (clean nfkc) (object_cells (columns s) (snd r))) ->
  retype s 0 (columns s) = columns s.
Proof.
  intros Hw Hcells. apply retype_id. intros i name Hi. cbn [Nat.add].
  unfold column_cells.
  destruct (rows s) as [| r rs] eqn:Hr; [reflexivity |].
  assert (Hin : In r (r :: rs)) by (left; reflexivity).
  pose proof (object_cell_at (PFloat NaN) _ _ _ _ (Hw r Hin) Hi) as Hc.
  pose proof (Hcells r Hin) as Hall. rewrite Forall_forall in Hall.
  destruct (Hall _ Hc) as (x & Hx & _).
  cbn [map all_missing forallb]. rewrite Hx. reflexivity.
Qed.

(** *** What the last step leaves *)

Lemma drop_artifacts_spec : forall rs df df',
  drop_artifacts rs df = Ok df' ->
  columns df' = columns df
  /\ forall r, In r (rows df') ->
       In r (rows df)
       /\ forall q, In q rs -> artifact (snd q) = true -> fst q <> fst r.
Proof.
  induction rs as [| [idx cells] rs IH]; intros df df' H.
  - inversion H; subst. split; [reflexivity |].
    intros r Hr. split; [exact Hr | intros q []].
  - cbn [drop_artifacts] in H.
    destruct (artifact cells) eqn:A.
    + unfold drop in H.
      destruct (existsb (fun r => (fst r =? idx)%Z) (rows df));
        [| discriminate].
      cbn [bind] in H. apply IH in H. cbn [columns rows] in H.
      destruct H as [Hc Hr]. split; [exact Hc |].
      intros r Hin. destruct (Hr r Hin) as [Hf Hq].
      apply filter_In in Hf. destruct Hf as [Hdf Hne].
      split; [exact Hdf |].
      intros q [<- | Hq']; [| apply Hq; exact Hq'].
      intros _ Heq. cbn [fst] in Heq. subst idx.
      rewrite Z.eqb_refl in Hne. discriminate.
    + apply IH in H. destruct H as [Hc Hr]. split; [exact Hc |].
      intros r Hin. destruct (Hr r Hin) as [Hdf Hq].
      split; [exact Hdf |].
      intros q [<- | Hq']; [| apply Hq; exact Hq'].
      cbn [snd]. congruence.
Qed.

Lemma drop_artifacts_none : forall rs df,
  (forall r, In r rs -> artifact (snd r) = false) ->
  drop_artifacts rs df = Ok df.
Proof.
  induction rs as [| [idx cells] rs IH]; intros df H; [reflexivity |].
  cbn [drop_artifacts].
  pose proof (H (idx, cells) (or_introl eq_refl)) as Ha.
  cbn [snd] in Ha. rewrite Ha.
  apply IH. intros r Hr. apply H. right. exact Hr.
Qed.

Lemma snd_combine {A B : Type} : forall (l : list A) (l' : list B),
  List.length l = List.length l' -> map snd (combine l l') = l'.
Proof.
  induction l as [| a l IH]; intros [| b l'] H; try discriminate;
    [reflexivity |].
  cbn [combine map snd]. f_equal. apply IH. simpl in H. lia.
Qed.

Lemma reset_index_twice df : reset_index (reset_index df) = reset_index df.
Proof.
  unfold reset_index. cbn [columns rows]. f_equal.
  assert (Hlen : List.length (map Z.of_nat (seq 0 (List.length (rows df))))
                 = List.length (map snd (rows df))).
  { rewrite !length_map, length_seq. reflexivity. }
  rewrite (snd_combine _ _ Hlen).
  rewrite length_combine, Hlen, Nat.min_id, length_map. reflexivity.
Qed.

(** The table that [fix_csv_artifacts] returns has no row without a
    value, no separator or header row, and the index 0, 1, 2, ... *)
Lemma fix_csv_artifacts_output df s :
  fix_csv_artifacts df = Ok s ->
  (forall r, In r (rows s) ->
     forallb isna (snd r) = false /\ artifact (snd r) = false)
  /\ reset_index s = s.
Proof.
  unfold fix_csv_artifacts. intros H.
  destruct (drop_artifacts (rows (dropna_all df)) (dropna_all df))
    as [d |] eqn:E; [| discriminate].
  cbn [bind] in H. inversion H; subst s. clear H.
  split; [| apply reset_index_twice].
  intros r Hr. unfold reset_index in Hr. cbn [rows] in Hr.
  destruct r as [i cells]. apply in_combine_r in Hr.
  apply in_map_iff in Hr. destruct Hr as ([j cells'] & Heq & Hin).
  cbn [snd] in *. subst cells'.
  destruct (drop_artifacts_spec _ _ _ E) as [_ Hspec].
  destruct (Hspec _ Hin) as [Hdf Hq].
  split.
  - unfold dropna_all in Hdf. cbn [rows] in Hdf.
    apply filter_In in Hdf. destruct Hdf as [_ Hna].
    apply negb_true_iff in Hna. exact Hna.
  - destruct (artifact cells) eqn:A; [| reflexivity].
    exfalso. apply (Hq (j, cells) Hdf A). reflexivity.
Qed.

Lemma fix_csv_artifacts_id s :
  (forall r, In r (rows s) ->
     forallb isna (snd r) = false /\ artifact (snd r) = false) ->
  reset_index s = s ->
  fix_csv_artifacts s = Ok s.
Proof.
  intros H Hi. unfold fix_csv_artifacts.
  assert (Hd : dropna_all s = s).
  { destruct s as [cols rs]. unfold dropna_all. cbn [columns rows] in *.
    f_equal. apply filter_id. intros r Hr.
    apply negb_true_iff. apply (H r Hr). }
  rewrite Hd, drop_artifacts_none; [cbn [bind]; rewrite Hi; reflexivity |].
  intros r Hr. apply (H r Hr).
Qed.

(** The second pass over a settled output of the last step. *)
Lemma sanitize_steps_settled nfkc s :
  (forall r, In r (rows s) ->
     forallb isna (snd r) = false /\ artifact (snd r) = false) ->
  reset_index s = s ->
  settled nfkc s ->
  sanitize_steps nfkc s
  = Ok (s, mk_changes 0 0 (null_cells s) (null_cells s)).
Proof.
  intros H Hi [Hw [Hm Hcells]]. unfold sanitize_steps.
  rewrite fix_shifted_columns_id.
  2:{ intros r Hr Hnil. destruct (H r Hr) as [Hna _].
      rewrite Hnil in Hna. discriminate. }
  cbn [bind]. cbv zeta. rewrite (merge_nothing s Hm).
  unfold normalize_unicode_symbols, clean_whitespace_and_quotes.
  rewrite (map_object_cells_id (normalize_cell nfkc) s).
  2:{ intros r Hr. eapply Forall_impl; [| apply (Hcells r Hr)].
      intros c Hc. apply normalize_cell_clean. exact Hc. }
  rewrite (map_object_cells_id clean_cell s).
  2:{ intros r Hr. eapply Forall_impl; [| apply (Hcells r Hr)].
      intros c Hc. apply (clean_cell_clean nfkc). exact Hc. }
  cbv zeta. rewrite (retype_settled nfkc s Hw Hcells), frame_eta.
  rewrite (fix_csv_artifacts_id s H Hi). cbn [bind].
  unfold validate_sanitization. rewrite !Z.sub_diag. reflexivity.
Qed.

(** *** Tables of ASCII text *)

Lemma on_object_columns_ext f g : forall cols cells,
  (forall c, In c cells -> f c = g c) ->
  on_object_columns f cols cells = on_object_columns g cols cells.
Proof.
  induction cols as [| [n d] cols IH]; intros [| x cells] H;
    try reflexivity.
  cbn [on_object_columns].
  rewrite (IH cells) by (intros c Hc; apply H; right; exact Hc).
  destruct d; try reflexivity.
  rewrite (H x (or_introl eq_refl)). reflexivity.
Qed.

(** On a table of ASCII text, normalisation does what it does when
    [nfkc] changes nothing. *)
Lemma normalize_ascii nfkc df :
  (forall s, ascii_text s -> nfkc s = s) ->
  ascii_frame df = true ->
  normalize_unicode_symbols nfkc df
  = normalize_unicode_symbols (fun s => s) df.
Proof.
  intros Hn Ha. unfold normalize_unicode_symbols, map_object_cells.
  f_equal. apply map_ext_in. intros r Hr. f_equal.
  apply on_object_columns_ext. intros c Hc.
  unfold normalize_cell, normalize_unicode_string.
  destruct (str_eqb (py_str c) (u "nan")); [reflexivity |].
  rewrite Hn; [reflexivity |].
  unfold ascii_frame in Ha. rewrite forallb_forall in Ha.
  specialize (Ha r Hr). rewrite forallb_forall in Ha.
  specialize (Ha c Hc). rewrite forallb_forall in Ha.
  apply Forall_forall. intros x Hx. apply N.ltb_lt. exact (Ha x Hx).
Qed.

(** The steps on a table that is ASCII text when it reaches the
    normalisation. *)
Lemma sanitize_steps_ascii nfkc df d :
  (forall s, ascii_text s -> nfkc s = s) ->
  fix_shifted_columns df = Ok d ->
  ascii_frame (merge_split_currency_columns d) = true ->
  sanitize_steps nfkc df = sanitize_steps (fun s => s) df.
Proof.
  intros Hn Hd Ha. unfold sanitize_steps. rewrite Hd. cbn [bind]. cbv zeta.
  rewrite (normalize_ascii nfkc _ Hn Ha). reflexivity.
Qed.
End SanitizerFacts.

(** A table with a blank cell in a column that holds text elsewhere.
    The first pass turns the blank into a missing cell; the second pass,
    which prints every cell of a text column, turns the missing cell into
    the text "nan". *)
Definition blank_cell_frame : DataFrame :=
  text_frame ["a"; "b"; "c"]%string
    [["x1"; " "; "y1"]; ["x2"; "b"; "y2"]]%string.

(** [C9], as stated, fails, whatever [nfkc] does outside ASCII: on
    [blank_cell_frame] the second pass changes the table again, and its
    change report counts one missing cell before and none after. *)
Lemma second_pass_changes :
  ~ (exists nfkc : str -> str,
       (forall s, ascii_text s -> nfkc s = s)
       /\ DataSanitizer.sanitize_csv_data nfkc
            (DataSanitizer.sanitize_csv_data nfkc blank_cell_frame)
          = DataSanitizer.sanitize_csv_data nfkc blank_cell_frame)
  /\ ~ (exists nfkc : str -> str,
          (forall s, ascii_text s -> nfkc s = s)
          /\ forall cleaned report,
               DataSanitizer.sanitize_steps nfkc
                 (DataSanitizer.sanitize_csv_data nfkc blank_cell_frame)
               = Ok (cleaned, report) ->
               DataSanitizer.empty_cells_before report
               = DataSanitizer.empty_cells_after report).
Proof.
  assert (H1 : forall nfkc, (forall s, ascii_text s -> nfkc s = s) ->
               DataSanitizer.sanitize_steps nfkc blank_cell_frame
               = DataSanitizer.sanitize_steps (fun s => s) blank_cell_frame).
  { intros nfkc Hn.
    apply (SanitizerFacts.sanitize_steps_ascii nfkc _ blank_cell_frame Hn);
      vm_compute; reflexivity. }
  set (s := DataSanitizer.sanitize_csv_data (fun s => s) blank_cell_frame).
  assert (H2 : forall nfkc, (forall s, ascii_text s -> nfkc s = s) ->
               DataSanitizer.sanitize_steps nfkc s
               = DataSanitizer.sanitize_steps (fun s => s) s).
  { intros nfkc Hn.
    apply (SanitizerFacts.sanitize_steps_ascii nfkc _ s Hn); vm_compute; reflexivity. }
  split; intros [nfkc [Hn H]].
  - unfold DataSanitizer.sanitize_csv_data in H.
    rewrite (H1 nfkc Hn) in H.
    change (match DataSanitizer.sanitize_steps (fun s => s) blank_cell_frame
            with Ok (df, _) => df | Raise _ => blank_cell_frame end)
      with s in H.
    rewrite (H2 nfkc Hn) in H. vm_compute in H. discriminate H.
  - unfold DataSanitizer.sanitize_csv_data in H.
    rewrite (H1 nfkc Hn) in H.
    change (match DataSanitizer.sanitize_steps (fun s => s) blank_cell_frame
            with Ok (df, _) => df | Raise _ => blank_cell_frame end)
      with s in H.
    rewrite (H2 nfkc Hn) in H.
    specialize (H _ _ ltac:(vm_compute; reflexivity)).
    vm_compute in H. discriminate H.
Qed.

Example second_pass_report :
  DataSanitizer.sanitize_csv_data (fun s => s) blank_cell_frame
  = mk_frame [(PStr (u "a"), DObject); (PStr (u "b"), DObject);
              (PStr (u "c"), DObject)]
             [(0%Z, [PStr (u "x1"); PFloat NaN; PStr (u "y1")]);
              (1%Z, [PStr (u "x2"); PStr (u "b"); PStr (u "y2")])]
  /\ DataSanitizer.sanitize_steps (fun s => s)
       (DataSanitizer.sanitize_csv_data (fun s => s) blank_cell_frame)
     = Ok (mk_frame [(PStr (u "a"), DObject); (PStr (u "b"), DObject);
                     (PStr (u "c"), DObject)]
                    [(0%Z, [PStr (u "x1"); PStr (u "nan"); PStr (u "y1")]);
                     (1%Z, [PStr (u "x2"); PStr (u "b"); PStr (u "y2")])],
           DataSanitizer.mk_changes 0 0 1 0).
Proof. vm_compute. split; reflexivity. Qed.

(** A column of text whose cells are all blank is left as a column of
    floats, which the second pass does not touch. *)
Example blank_column_converted :
  let s := DataSanitizer.sanitize_csv_data
             (fun s => s)
             (text_frame ["a"; "b"; "c"]%string [["x1"; " "; "y1"]]%string) in
  s = mk_frame [(PStr (u "a"), DObject); (PStr (u "b"), DFloat);
                (PStr (u "c"), DObject)]
               [(0%Z, [PStr (u "x1"); PFloat NaN; PStr (u "y1")])]
  /\ DataSanitizer.sanitize_csv_data (fun s => s) s = s.
Proof. vm_compute. split; reflexivity. Qed.

(** [C9] Sanitizing the sanitizer's own output changes nothing once that
    output is settled: when the cleaned table has no pair of numeric
    columns left to merge and its text columns hold only tidy texts in
    normal form, the second pass returns the same table, and when the
    first pass went through, the second goes through as well and reports
    no row removed, no column changed and as many missing cells after as
    before. *)
Theorem second_pass_identity nfkc t :
  let s := DataSanitizer.sanitize_csv_data nfkc t in
  settled nfkc s ->
  DataSanitizer.sanitize_csv_data nfkc s = s
  /\ (forall cleaned report,
        DataSanitizer.sanitize_steps nfkc t = Ok (cleaned, report) ->
        DataSanitizer.sanitize_steps nfkc s
        = Ok (s, DataSanitizer.mk_changes 0 0 (DataSanitizer.null_cells s)
                                          (DataSanitizer.null_cells s))).
Proof.
  intros s Hs.
  destruct (DataSanitizer.sanitize_steps nfkc t) as [[cleaned report] | e]
    eqn:E.
  - assert (Hc : s = cleaned).
    { unfold s, DataSanitizer.sanitize_csv_data. rewrite E. reflexivity. }
    assert (Hsteps : DataSanitizer.sanitize_steps nfkc s
                     = Ok (s, DataSanitizer.mk_changes
                                0 0 (DataSanitizer.null_cells s)
                                (DataSanitizer.null_cells s))).
    { clearbody s. subst cleaned.
      unfold DataSanitizer.sanitize_steps in E.
      destruct (DataSanitizer.fix_shifted_columns t) as [d1 |];
        [| discriminate].
      cbn [bind] in E. cbv zeta in E.
      destruct (DataSanitizer.fix_csv_artifacts _) as [d2 |] eqn:F;
        [| discriminate].
      cbn [bind] in E. inversion E; subst d2.
      destruct (SanitizerFacts.fix_csv_artifacts_output _ _ F) as [H Hi].
      apply SanitizerFacts.sanitize_steps_settled; assumption. }
    split; [| intros; exact Hsteps].
    unfold DataSanitizer.sanitize_csv_data at 1. rewrite Hsteps.
    reflexivity.
  - assert (Hc : s = t).
    { unfold s, DataSanitizer.sanitize_csv_data. rewrite E. reflexivity. }
    split; [| intros; discriminate].
    clearbody s. subst s.
    unfold DataSanitizer.sanitize_csv_data. rewrite E. reflexivity.
Qed.

(** A table in the shape of the repository's test data, with padding,
    wrapping quotes, a separator line and a repeated header. *)
Definition messy_frame : DataFrame :=
  text_frame ["Date"; "Description"; "Amount"]%string
    [["2024-01-15"; "  Test   Transaction  "; "€12,50"];
     ["------"; ""; " "];
     ["Date"; "Description"; "Amount"];
     ["2024-01-14"; "'Quoted Description'"; "€25.00"]]%string.

Lemma second_pass_identity_witness :
  let s := DataSanitizer.sanitize_csv_data (fun x => x) messy_frame in
  settled (fun x => x) s
  /\ DataSanitizer.sanitize_csv_data (fun x => x) s = s
  /\ DataSanitizer.sanitize_steps (fun x => x) s
     = Ok (s, DataSanitizer.mk_changes 0 0 (DataSanitizer.null_cells s)
                                       (DataSanitizer.null_cells s)).
Proof.
  intros s.
  assert (Hs : settled (fun x => x) s).
  { split.
    { intros r Hr. vm_compute in Hr.
      destruct Hr as [<- | [<- | []]]; vm_compute; reflexivity. }
    split; [vm_compute; reflexivity |].
    intros r Hr. vm_compute in Hr.
    destruct Hr as [<- | [<- | []]];
      match goal with
      | |- Forall _ ?l =>
          let l' := eval vm_compute in l in
          replace l with l' by (vm_compute; reflexivity)
      end;
      repeat (first [apply Forall_cons | apply Forall_nil]);
      eexists;
      (split; [reflexivity | split; [vm_compute |]; reflexivity]). }
  split; [exact Hs |].
  destruct (second_pass_identity (fun x => x) messy_frame Hs) as [H1 H2].
  split; [exact H1 |].
  apply (H2 s (DataSanitizer.mk_changes 2 0 0 0)).
  vm_compute. reflexivity.
Defined.

(* ================================================================= *)
(** * Part III.  Further properties *)
(* ================================================================= *)

(** ** Patterns and the texts they match *)

(** The texts a pattern can match, anchors and boundaries aside. *)
Fixpoint lang (r : regex) (w : list N) : Prop :=
  match r with
  | Eps | Bol | Eol | Wordb _ => w = []
  | Cls p => exists c, w = [c] /\ p c = true
  | Seq a b => exists w1 w2, w = w1 ++ w2 /\ lang a w1 /\ lang b w2
  | Alt a b => lang a w \/ lang b w
  | Star a => exists ws, w = concat ws /\ Forall (lang a) ws
  | Grp _ a => lang a w
  end.

Lemma rx_sound (A : Type) r : forall prev s caps
    (k : option N -> list N -> captures -> option A) x,
  rx r prev s caps k = Some x ->
  exists w s' p' c', s = w ++ s' /\ lang r w /\ k p' s' c' = Some x.
Proof.
  induction r as [| p | a IHa b IHb | a IHa b IHb | a IHa | | | w | name a IHa];
    intros prev s caps k x H.
  - exists [], s, prev, caps. simpl. auto.
  - simpl in H. destruct s as [| c s]; [discriminate |].
    destruct (p c) eqn:Hp; [| discriminate].
    exists [c], s, (Some c), caps. simpl. eauto.
  - simpl in H. apply IHa in H.
    destruct H as [w1 [s1 [p1 [c1 [-> [Hw1 H]]]]]].
    apply IHb in H. destruct H as [w2 [s2 [p2 [c2 [-> [Hw2 H]]]]]].
    exists (w1 ++ w2), s2, p2, c2. rewrite <- app_assoc. simpl. eauto 10.
  - simpl in H. destruct (rx a prev s caps k) eqn:Ea.
    + inversion H; subst. apply IHa in Ea.
      destruct Ea as [w [s' [p' [c' [-> [Hw Hk]]]]]].
      exists w, s', p', c'. simpl. auto.
    + apply IHb in H. destruct H as [w [s' [p' [c' [-> [Hw Hk]]]]]].
      exists w, s', p', c'. simpl. auto.
  - simpl in H. revert H. generalize (List.length s) at 1. intros n.
    revert prev s caps. induction n as [| n IHn]; intros prev s caps H.
    + exists [], s, prev, caps. simpl. split; [reflexivity |].
      split; [exists []; auto | exact H].
    + match type of H with
      | match ?e with _ => _ end = _ => destruct e eqn:Ea
      end.
      * inversion H; subst. apply IHa in Ea.
        destruct Ea as [w1 [s1 [p1 [c1 [-> [Hw1 Hk]]]]]].
        destruct (List.length s1 <? List.length (w1 ++ s1))%nat;
          [| discriminate].
        apply IHn in Hk.
        destruct Hk as [w2 [s2 [p2 [c2 [-> [[ws [-> Hws]] Hk]]]]]].
        exists (w1 ++ concat ws), s2, p2, c2. rewrite <- app_assoc.
        split; [reflexivity |]. split; [| exact Hk].
        exists (w1 :: ws). simpl. auto.
      * exists [], s, prev, caps. simpl. split; [reflexivity |].
        split; [exists []; auto | exact H].
  - simpl in H. destruct prev; [discriminate |].
    exists [], s, None, caps. simpl. auto.
  - simpl in H. destruct (at_eol s); [| discriminate].
    exists [], s, prev, caps. simpl. auto.
  - simpl in H. destruct (xorb _ _); [| discriminate].
    exists [], s, prev, caps. simpl. auto.
  - simpl in H. apply IHa in H.
    destruct H as [w [s' [p' [c' [-> [Hw Hk]]]]]].
    exists w, s', p', ((name, firstn (List.length (w ++ s') - List.length s')
                                  (w ++ s')) :: c').
    simpl. auto.
Qed.

Lemma firstn_app_exact (w s : list N) :
  firstn (List.length (w ++ s) - List.length s) (w ++ s) = w.
Proof.
  rewrite length_app. replace (List.length w + List.length s - List.length s)%nat
    with (List.length w + 0)%nat by lia.
  rewrite firstn_app_2. simpl. apply app_nil_r.
Qed.

(** A match of a pattern that is one group: the text of the group is the
    text matched, and it stands at the start of the text searched. *)
Lemma match_here_group g a prev s before m :
  match_here (Grp g a) prev s before = Some m ->
  lang a (group g m) /\ s = group g m ++ m_after m.
Proof.
  unfold match_here. intros H. simpl in H. apply rx_sound in H.
  destruct H as [w [s' [p' [c' [-> [Hw Hk]]]]]].
  rewrite firstn_app_exact in Hk. inversion Hk; subst m. unfold group. simpl.
  rewrite N.eqb_refl. auto.
Qed.

Lemma search_from_suffix r : forall s prev before m,
  search_from r prev s before = Some m ->
  exists skipped prev' s' before',
    s = skipped ++ s' /\ match_here r prev' s' before' = Some m.
Proof.
  induction s as [| c s IH]; intros prev before m H; simpl in H.
  - destruct (match_here r prev [] (rev before)) eqn:E; [| discriminate].
    inversion H; subst. exists [], prev, [], (rev before). auto.
  - destruct (match_here r prev (c :: s) (rev before)) eqn:E.
    + inversion H; subst. exists [], prev, (c :: s), (rev before). auto.
    + apply IH in H. destruct H as [sk [p' [s' [b' [-> Hm]]]]].
      exists (c :: sk), p', s', b'. auto.
Qed.

Lemma re_search_group g a s m :
  re_search (Grp g a) s = Some m ->
  lang a (group g m) /\ exists skipped, s = skipped ++ group g m ++ m_after m.
Proof.
  intros H. apply search_from_suffix in H.
  destruct H as [sk [p' [s' [b' [-> Hm]]]]].
  apply match_here_group in Hm. destruct Hm as [Hl Hs].
  split; [exact Hl |]. exists sk. rewrite <- Hs. reflexivity.
Qed.

(** ** Rows and digits *)

Module DigitFacts.
Import DefensiveTransactionParser.

(** Patterns every match of which holds a digit. *)
Fixpoint digitful (r : regex) : Prop :=
  match r with
  | Cls p => forall c, p c = true -> is_digit c = true
  | Seq a b => digitful a \/ digitful b
  | Alt a b => digitful a /\ digitful b
  | Grp _ a => digitful a
  | _ => False
  end.

Lemma digitful_lang r : forall w,
  digitful r -> lang r w -> existsb is_digit w = true.
Proof.
  induction r as [| p | a IHa b IHb | a IHa b IHb | a IHa | | | w0 | name a IHa];
    intros w Hd Hl; simpl in Hd, Hl; try contradiction.
  - destruct Hl as [c [-> Hp]]. simpl. rewrite (Hd c Hp). reflexivity.
  - destruct Hl as [w1 [w2 [-> [H1 H2]]]]. rewrite existsb_app.
    destruct Hd as [Hd | Hd].
    + rewrite (IHa _ Hd H1). reflexivity.
    + rewrite (IHb _ Hd H2). apply orb_true_r.
  - destruct Hd as [Ha Hb]. destruct Hl as [Hl | Hl]; auto.
  - auto.
Qed.

Lemma existsb_suffix (p : N -> bool) a b :
  existsb p (a ++ b) = false -> existsb p b = false.
Proof. rewrite existsb_app. intros H. apply orb_false_iff in H. tauto. Qed.

(** A pattern that needs a digit matches nowhere in a text without
    one. *)
Lemma digitful_here r prev s before :
  digitful r -> existsb is_digit s = false ->
  match_here r prev s before = None.
Proof.
  intros Hd Hs. destruct (match_here r prev s before) as [m |] eqn:E;
    [| reflexivity].
  unfold match_here in E. apply rx_sound in E.
  destruct E as [w [s' [p' [c' [-> [Hw _]]]]]].
  pose proof (digitful_lang _ _ Hd Hw) as H.
  rewrite existsb_app, H in Hs. discriminate.
Qed.

Lemma digitful_search r : forall s prev before,
  digitful r -> existsb is_digit s = false ->
  search_from r prev s before = None.
Proof.
  induction s as [| c s IH]; intros prev before Hd Hs; simpl;
    rewrite (digitful_here _ _ _ _ Hd Hs); [reflexivity |].
  apply IH; [exact Hd |]. simpl in Hs. apply orb_false_iff in Hs. tauto.
Qed.

Lemma digitful_times n r : digitful r -> digitful (times (S n) r).
Proof.
  intros H. induction n as [| n IH]; [exact H |].
  change (digitful (Seq r (times (S n) r))). left. exact H.
Qed.

Lemma digitful_seqs r rs : digitful r -> digitful (seqs (r :: rs)).
Proof. intros H. destruct rs; [exact H | left; exact H]. Qed.

Lemma digitful_digit : digitful digit.
Proof. intros c H. exact H. Qed.

Lemma digitful_iso : digitful iso_date.
Proof. apply digitful_seqs, (digitful_times 3), digitful_digit. Qed.

Lemma digitful_slash : digitful slash_date.
Proof. apply digitful_seqs, (digitful_times 1), digitful_digit. Qed.

Lemma digitful_dash : digitful dash_date.
Proof. apply digitful_seqs, (digitful_times 1), digitful_digit. Qed.

Lemma digitful_any_date : digitful any_date.
Proof.
  split; [apply digitful_iso |]. split; [apply digitful_slash |].
  apply digitful_dash.
Qed.

Lemma range_digit lo hi c :
  (48 <= lo)%N -> (hi <= 57)%N -> range lo hi c = true -> is_digit c = true.
Proof.
  unfold range. intros Hlo Hhi H. apply andb_true_iff in H.
  destruct H as [H1 H2]. apply N.leb_le in H1. apply N.leb_le in H2.
  apply AmountFacts.adigit_digit. unfold is_adigit, range.
  apply andb_true_iff. split; apply N.leb_le; lia.
Qed.

Lemma digitful_rng lo hi :
  (48 <= ch lo)%N -> (ch hi <= 57)%N -> digitful (rng lo hi).
Proof. intros Hlo Hhi c H. exact (range_digit _ _ _ Hlo Hhi H). Qed.

Lemma digitful_chr c : is_digit c = true -> digitful (chr c).
Proof.
  intros H x Hx. apply N.eqb_eq in Hx. subst x. exact H.
Qed.

Ltac digit_class :=
  first [ apply digitful_digit
        | apply digitful_rng; vm_compute; discriminate
        | apply digitful_chr; vm_compute; reflexivity ].

Lemma digitful_directive d :
  In d [DY; Dm; Dd] -> digitful (directive_regex d).
Proof.
  intros [<- | [<- | [<- | []]]].
  - apply (digitful_times 3), digitful_digit.
  - repeat split; try (left; digit_class); digit_class.
  - repeat split; try (left; digit_class); try digit_class.
    right. digit_class.
Qed.

Lemma digitful_format f :
  In f date_formats -> digitful (format_regex f).
Proof.
  intros H.
  assert (Hhead : exists d rest, f = d :: rest /\ In d [DY; Dm; Dd]).
  { unfold date_formats in H. simpl in H.
    repeat (destruct H as [<- | H];
            [eexists; eexists; split;
             [vm_compute; reflexivity | simpl; tauto] |]).
    destruct H. }
  destruct Hhead as [d [rest [-> Hd]]].
  unfold format_regex. cbn [map]. apply digitful_seqs.
  apply digitful_directive. exact Hd.
Qed.

Lemma strptime_digit s f :
  In f date_formats -> existsb is_digit s = false -> strptime s f = None.
Proof.
  intros Hf Hs. unfold strptime, re_match.
  rewrite (digitful_here _ None s [] (digitful_format _ Hf) Hs). reflexivity.
Qed.

Lemma existsb_false_in (p : N -> bool) s t :
  (forall x, In x t -> In x s) -> existsb p s = false -> existsb p t = false.
Proof.
  intros Hin Hs. destruct (existsb p t) eqn:E; [| reflexivity].
  apply existsb_exists in E. destruct E as [x [Hx Hp]].
  assert (existsb p s = true) by (apply existsb_exists; eauto).
  congruence.
Qed.

Lemma strip_digit s :
  existsb is_digit s = false -> existsb is_digit (strip s) = false.
Proof. apply existsb_false_in. intros x. apply AmountFacts.in_strip. Qed.

(** No date without a digit. *)
Lemma parse_date_digit v :
  existsb is_digit (py_str v) = false -> parse_date v = None.
Proof.
  intros H. unfold parse_date. destruct (_ || _); [reflexivity |].
  apply strip_digit in H. revert H.
  generalize (strip (py_str v)). intros s Hs.
  assert (Hall : forall fs, (forall f, In f fs -> In f date_formats) ->
                            first_format fs s = None).
  { induction fs as [| f fs IH]; intros Hin; simpl; [reflexivity |].
    rewrite (strptime_digit s f (Hin f (or_introl eq_refl)) Hs).
    apply IH. intros g Hg. apply Hin. right. exact Hg. }
  apply Hall. auto.
Qed.

Lemma looks_like_date_digit s :
  existsb is_digit s = false -> looks_like_date s = false.
Proof.
  intros H. unfold looks_like_date, re_match. cbn [existsb].
  rewrite (digitful_here _ None s [] digitful_iso H),
    (digitful_here _ None s [] digitful_slash H),
    (digitful_here _ None s [] digitful_dash H). reflexivity.
Qed.

Lemma digitful_plus : digitful (plus digit).
Proof. left. apply digitful_digit. Qed.

Lemma looks_like_amount_digit s :
  existsb is_digit s = false -> looks_like_amount s = false.
Proof.
  intros H. unfold looks_like_amount, re_match. cbn [existsb].
  rewrite (digitful_here (Seq currency_sign (plus digit)) None s []);
    [| right; apply digitful_plus | exact H].
  rewrite (digitful_here (seqs [plus digit; chr (ch "."); times 2 digit])
                         None s []);
    [| apply digitful_seqs, digitful_plus | exact H].
  rewrite (digitful_here (seqs [plus digit; chr (ch ","); times 2 digit])
                         None s []);
    [| apply digitful_seqs, digitful_plus | exact H].
  rewrite (digitful_here (plus digit) None s []);
    [reflexivity | apply digitful_plus | exact H].
Qed.

End DigitFacts.

Module RowFacts.
Import DefensiveTransactionParser DigitFacts.

(** The values of a row. *)
Definition row_cells (r : row) : list pyval :=
  match r with
  | Series items | Dict items => map snd items
  | Other => []
  end.

Definition digitless (v : pyval) : Prop := existsb is_digit (py_str v) = false.

(** *** Values of the dictionaries built from a row *)

Section Values.
Variables (K V : Type) (eqb : K -> K -> bool).

Lemma in_dict_set (d : list (K * V)) k v kv :
  In kv (dict_set eqb d k v) -> In kv d \/ snd kv = v.
Proof.
  induction d as [| [k0 v0] d IH]; simpl.
  - intros [<- | []]. right. reflexivity.
  - destruct (eqb k k0); simpl.
    + intros [<- | H]; auto.
    + intros [<- | H]; auto. destruct (IH H); auto.
Qed.

Lemma dict_get_in (d : list (K * V)) k v :
  dict_get eqb d k = Some v -> exists k', In (k', v) d.
Proof.
  induction d as [| [k0 v0] d IH]; simpl; [discriminate |].
  destruct (eqb k k0).
  - intros H. inversion H; subst. eauto.
  - intros H. destruct (IH H) as [k' Hk]. eauto.
Qed.

End Values.

Lemma fold_set_values {K K' V : Type} (eqb : K' -> K' -> bool)
    (key : K * V -> K') (P : V -> Prop) (items : list (K * V)) :
  forall d,
    (forall kv, In kv d -> P (snd kv)) ->
    (forall kv, In kv items -> P (snd kv)) ->
    forall kv,
      In kv (fold_left (fun d kv => dict_set eqb d (key kv) (snd kv)) items d)
      -> P (snd kv).
Proof.
  induction items as [| x items IH]; intros d Hd Hi kv; simpl; [apply Hd |].
  apply IH.
  - intros y Hy. apply in_dict_set in Hy. destruct Hy as [Hy | ->].
    + apply Hd. exact Hy.
    + apply Hi. left. reflexivity.
  - intros y Hy. apply Hi. right. exact Hy.
Qed.

Lemma to_dict_values (P : pyval -> Prop) r row_data :
  Forall P (row_cells r) -> to_dict r = Ok row_data ->
  forall kv, In kv row_data -> P (snd kv).
Proof.
  intros Hall Hr.
  assert (Hitems : forall items, Forall P (map snd items) ->
            forall kv, In kv (dict_of_items pyval_eqb items) -> P (snd kv)).
  { intros items Hf. unfold dict_of_items.
    apply (fold_set_values pyval_eqb (fun kv => fst kv) P).
    - intros kv [].
    - intros kv Hkv. rewrite Forall_forall in Hf. apply Hf.
      apply in_map. exact Hkv. }
  destruct r as [items | items |]; simpl in Hr; inversion Hr; subst;
    apply Hitems; exact Hall.
Qed.

(** *** A row without a digit *)

Section NoDigit.
Variable r : row.
Hypothesis Hr : Forall digitless (row_cells r).

Lemma digitless_strip v :
  digitless v -> existsb is_digit (strip (py_str v)) = false.
Proof. apply strip_digit. Qed.

Lemma standard_parsing_digit index :
  exists result, standard_parsing r index = Ok result
                 /\ success result = false.
Proof.
  unfold standard_parsing, try_except, bind.
  destruct (to_dict r) as [row_data | e] eqn:Hd; [| eauto].
  set (normalized := fold_left _ row_data []).
  assert (Hn : forall kv, In kv normalized -> digitless (snd kv)).
  { apply (fold_set_values str_eqb
             (fun kv => strip (lower (py_str (fst kv)))) digitless).
    - intros kv [].
    - apply (to_dict_values digitless r row_data Hr Hd). }
  assert (Hdate : digitless (dict_get_default str_eqb normalized (u "date")
                                              (PStr []))).
  { unfold dict_get_default.
    destruct (dict_get str_eqb normalized (u "date")) as [v |] eqn:E;
      [| reflexivity].
    apply dict_get_in in E. destruct E as [k' Hk]. exact (Hn _ Hk). }
  rewrite (parse_date_digit _ Hdate).
  destruct (_ || _); eauto.
Qed.

Lemma detect_fields_digit row_data :
  (forall kv, In kv row_data -> digitless (snd kv)) ->
  (List.length (detect_fields row_data) <= 1)%nat.
Proof.
  intros Hv. unfold detect_fields.
  match goal with |- context [fold_left ?f _ _] => set (step := f) end.
  assert (Hinv : forall d : list (list N * list N),
            d = [] \/ (exists v, d = [(u "description", v)]) ->
            fold_left step row_data d = []
            \/ (exists v, fold_left step row_data d
                          = [(u "description", v)])).
  { revert Hv. induction row_data as [| kv rest IH]; intros Hv d Hd;
      [exact Hd |].
    cbn [fold_left]. apply IH; [intros x Hx; apply Hv; right; exact Hx |].
    pose proof (digitless_strip _ (Hv kv (or_introl eq_refl))) as Hs.
    unfold step.
    rewrite (looks_like_date_digit _ Hs), (looks_like_amount_digit _ Hs).
    cbn [andb].
    destruct Hd as [-> | [v ->]].
    - destruct (looks_like_description _); simpl; eauto.
    - replace (dict_has str_eqb [(u "description", v)] (u "description"))
        with true by reflexivity.
      rewrite andb_false_r. eauto. }
  destruct (Hinv [] (or_introl eq_refl)) as [E | [v E]]; rewrite E;
    simpl; lia.
Qed.

Lemma fuzzy_column_matching_digit index :
  exists result, fuzzy_column_matching r index = Ok result
                 /\ success result = false.
Proof.
  unfold fuzzy_column_matching, try_except, bind.
  destruct (to_dict r) as [row_data | e] eqn:Hd; [| eauto].
  pose proof (detect_fields_digit row_data
                (to_dict_values digitless r row_data Hr Hd)) as Hlen.
  replace (List.length (detect_fields row_data) <? 3)%nat with true
    by (symmetry; apply Nat.ltb_lt; lia).
  eauto.
Qed.

Lemma join_digit sep parts :
  existsb is_digit sep = false ->
  Forall (fun p => existsb is_digit p = false) parts ->
  existsb is_digit (join sep parts) = false.
Proof.
  intros Hsep. induction 1 as [| p ps Hp _ IH]; [reflexivity |].
  destruct ps as [| q ps]; [exact Hp |].
  change (existsb is_digit (p ++ sep ++ join sep (q :: ps)) = false).
  rewrite !existsb_app, Hp, Hsep, IH. reflexivity.
Qed.

Lemma row_text_digit row_str :
  row_text r = Ok row_str -> existsb is_digit row_str = false.
Proof.
  unfold row_text, bind.
  destruct r as [items | items |]; simpl; try discriminate.
  intros H. inversion H; subst. apply join_digit; [reflexivity |].
  apply Forall_forall. intros p Hp. apply in_map_iff in Hp.
  destruct Hp as [v [<- Hv]]. apply filter_In in Hv.
  simpl in Hr. rewrite Forall_forall in Hr. apply Hr. tauto.
Qed.

Lemma pattern_based_extraction_digit index :
  exists result, pattern_based_extraction r index = Ok result
                 /\ success result = false.
Proof.
  unfold pattern_based_extraction, try_except, bind.
  destruct (row_text r) as [row_str | e] eqn:Ht; [| eauto].
  unfold re_search.
  rewrite (digitful_search (Grp 1 any_date) row_str None []
             digitful_any_date (row_text_digit _ Ht)).
  eauto.
Qed.

Lemma candidates_digit row_data :
  (forall kv, In kv row_data -> digitless (snd kv)) ->
  exists descriptions, candidates row_data = ([], [], descriptions).
Proof.
  intros Hv. unfold candidates.
  match goal with |- context [fold_left ?f _ _] => set (step := f) end.
  assert (Hinv : forall ds, exists descriptions,
            fold_left step row_data ([], [], ds) = ([], [], descriptions)).
  { revert Hv. induction row_data as [| kv rest IH]; intros Hv ds;
      [simpl; eauto |].
    cbn [fold_left].
    pose proof (digitless_strip _ (Hv kv (or_introl eq_refl))) as Hs.
    assert (Hstep : exists ds', step ([], [], ds) kv = ([], [], ds')).
    { unfold step.
      rewrite (looks_like_date_digit _ Hs), (looks_like_amount_digit _ Hs).
      destruct (looks_like_description _); eauto. }
    destruct Hstep as [ds' ->].
    apply IH. intros x Hx. apply Hv. right. exact Hx. }
  apply Hinv.
Qed.

Lemma manual_field_detection_digit index :
  exists result, manual_field_detection r index = Ok result
                 /\ success result = false.
Proof.
  unfold manual_field_detection, try_except, bind.
  destruct (to_dict r) as [row_data | e] eqn:Hd; [| eauto].
  destruct (candidates_digit row_data
              (to_dict_values digitless r row_data Hr Hd)) as [ds ->].
  eauto.
Qed.

Lemma emergency_fallback_digit now index :
  exists result, emergency_fallback now r index = Ok result
                 /\ success result = false.
Proof.
  unfold emergency_fallback, try_except, bind.
  destruct (row_text r) as [row_str | e] eqn:Ht; [| eauto].
  assert (Hd : digitful (Grp 1 (seqs [plus digit; opt (one_of (u ".,"));
                                       Star digit])))
    by (left; apply digitful_plus).
  unfold re_search.
  rewrite (digitful_search _ row_str None [] Hd (row_text_digit _ Ht)).
  eauto.
Qed.

Lemma every_strategy_digit now index name f :
  In (name, f) (strategies now) ->
  exists result, f r index = Ok result /\ success result = false.
Proof.
  intros H. simpl in H.
  destruct H as [H | [H | [H | [H | [H | []]]]]]; inversion H; subst.
  - apply standard_parsing_digit.
  - apply fuzzy_column_matching_digit.
  - apply pattern_based_extraction_digit.
  - apply manual_field_detection_digit.
  - apply emergency_fallback_digit.
Qed.

End NoDigit.
(** The loop goes through every strategy that fails. *)
Lemma try_strategies_all_fail ss r index :
  (forall name f, In (name, f) ss ->
                  exists result, f r index = Ok result
                                 /\ success result = false) ->
  try_strategies ss r index = Ok all_failed.
Proof.
  induction ss as [| [name f] rest IH]; intros H; simpl; [reflexivity |].
  destruct (H name f (or_introl eq_refl)) as [x [Hx Hs]].
  unfold attempt, try_except, bind. rewrite Hx, Hs.
  apply IH. intros n g Hin. apply (H n g). right. exact Hin.
Qed.

(** The loop stops at a strategy that succeeds. *)
Lemma try_strategies_some ss r index name f x :
  In (name, f) ss -> f r index = Ok x -> success x = true ->
  exists result, try_strategies ss r index = Ok result
                 /\ success result = true.
Proof.
  induction ss as [| [n g] rest IH]; intros Hin Hx Hs; [destruct Hin |].
  simpl. unfold attempt, try_except, bind.
  destruct (g r index) as [y | e] eqn:Hg.
  - destruct (success y) eqn:Hy; [eauto |].
    destruct Hin as [Hin | Hin];
      [inversion Hin; subst; congruence | apply IH; assumption].
  - destruct Hin as [Hin | Hin];
      [inversion Hin; subst; congruence | apply IH; assumption].
Qed.

End RowFacts.

Module EmergencyFacts.
Import DefensiveTransactionParser DigitFacts RowFacts.

(** The pattern of the emergency amount: digits, an optional dot or
    comma, and digits again, as one group. *)
Definition number_group : regex :=
  Grp 1 (seqs [plus digit; opt (one_of (u ".,")); Star digit]).

Lemma number_group_here prev s before :
  is_match (match_here number_group prev s before)
  = match s with c :: _ => is_digit c | [] => false end.
Proof.
  destruct s as [| c s]; [reflexivity |].
  set (K := fun (p' : option N) (s' : list N) (c' : captures) =>
              Some (mk_rmatch before
                      (firstn (List.length (c :: s) - List.length s')
                              (c :: s)) s' p'
                      ((1%N, firstn (List.length (c :: s) - List.length s')
                                    (c :: s)) :: c'))).
  change (is_match
            (if is_digit c
             then rx (Seq (Star digit)
                          (Seq (opt (one_of (u ".,"))) (Star digit)))
                     (Some c) s [] K
             else None) = is_digit c).
  destruct (is_digit c); [| reflexivity].
  assert (Hall : GateFacts.always
                   (Seq (Star digit)
                        (Seq (opt (one_of (u ".,"))) (Star digit)))).
  { repeat apply GateFacts.always_seq;
      auto using GateFacts.always_star, GateFacts.always_opt. }
  assert (HK : GateFacts.accepting K) by (intros p' s' c'; discriminate).
  specialize (Hall _ K HK (Some c) s []). cbv beta in Hall.
  destruct (rx _ (Some c) s [] K); [reflexivity | congruence].
Qed.

Lemma number_group_search s : forall prev before,
  is_match (search_from number_group prev s before) = existsb is_digit s.
Proof.
  induction s as [| c s IH]; intros prev before; simpl.
  - pose proof (number_group_here prev [] (rev before)) as H.
    destruct (match_here number_group prev [] (rev before));
      simpl in H; [discriminate | reflexivity].
  - pose proof (number_group_here prev (c :: s) (rev before)) as H.
    destruct (match_here number_group prev (c :: s) (rev before));
      simpl in H; rewrite <- H; simpl; [reflexivity | apply IH].
Qed.

(** What the pattern matches: digits, then a dot or a comma or
    nothing, then digits. *)
Lemma star_digits w :
  lang (Star digit) w -> forallb is_digit w = true.
Proof.
  intros [ws [-> H]]. induction H as [| x ws [c [-> Hc]] _ IH];
    [reflexivity |].
  simpl. rewrite Hc. exact IH.
Qed.

Lemma number_shape w :
  lang (seqs [plus digit; opt (one_of (u ".,")); Star digit]) w ->
  exists c d1 o d2,
    w = (c :: d1) ++ o ++ d2
    /\ is_digit c = true /\ forallb is_digit d1 = true
    /\ forallb is_digit d2 = true
    /\ (o = [] \/ o = [ch "."] \/ o = [ch ","]).
Proof.
  intros [w1 [w2 [-> [H1 [o [d2 [-> [Ho H2]]]]]]]].
  destruct H1 as [x [d1 [-> [[c [-> Hc]] Hd1]]]].
  exists c, d1, o, d2. split; [reflexivity |].
  split; [exact Hc |]. split; [apply star_digits; exact Hd1 |].
  split; [apply star_digits; exact H2 |].
  destruct Ho as [[x [-> Hx]] | ->]; [| auto].
  unfold has_char in Hx. cbn [existsb] in Hx.
  apply orb_true_iff in Hx. destruct Hx as [Hx | Hx].
  - apply N.eqb_eq in Hx. subst x. auto.
  - apply orb_true_iff in Hx. destruct Hx as [Hx | Hx]; [| discriminate].
    apply N.eqb_eq in Hx. subst x. auto.
Qed.

Lemma digits_free c s :
  is_digit c = false -> forallb is_digit s = true ->
  forall x, In x s -> x <> c.
Proof.
  intros Hc Hs x Hx ->. rewrite forallb_forall in Hs.
  rewrite (Hs c Hx) in Hc. discriminate.
Qed.

Lemma has_char_free c s :
  (forall x, In x s -> x <> c) -> has_char c s = false.
Proof.
  intros H. unfold has_char. destruct (existsb (N.eqb c) s) eqn:E;
    [| reflexivity].
  apply existsb_exists in E. destruct E as [x [Hx Hc]].
  apply N.eqb_eq in Hc. subst x. exfalso. exact (H c Hx eq_refl).
Qed.

Lemma replace_char_free c new s :
  (forall x, In x s -> x <> c) -> replace_char c new s = s.
Proof.
  intros H. unfold replace_char. induction s as [| x s IH]; [reflexivity |].
  simpl. destruct (N.eqb_spec x c) as [-> | _].
  - exfalso. exact (H c (or_introl eq_refl) eq_refl).
  - simpl. f_equal. apply IH. intros y Hy. apply H. right. exact Hy.
Qed.

Lemma replace_char_app c new a b :
  replace_char c new (a ++ b) = replace_char c new a ++ replace_char c new b.
Proof. unfold replace_char. apply flat_map_app. Qed.

Lemma rfind_from_free c s : forall i found,
  (forall x, In x s -> x <> c) -> rfind_from c s i found = found.
Proof.
  induction s as [| x s IH]; intros i found H; simpl; [reflexivity |].
  destruct (N.eqb_spec x c) as [-> | _].
  - exfalso. exact (H c (or_introl eq_refl) eq_refl).
  - apply IH. intros y Hy. apply H. right. exact Hy.
Qed.

Lemma rfind_from_last_one c a b : forall i found,
  (forall x, In x b -> x <> c) ->
  rfind_from c (a ++ c :: b) i found = (i + Z.of_nat (List.length a))%Z.
Proof.
  induction a as [| x a IH]; intros i found Hb; simpl.
  - rewrite N.eqb_refl. rewrite rfind_from_free by exact Hb. lia.
  - rewrite IH by exact Hb. lia.
Qed.

Lemma numeric_strip s :
  forallb numeric_char s = true -> strip s = s.
Proof.
  intros H. unfold strip. apply AmountFacts.strip_id.
  apply forallb_forall. intros c Hc. rewrite forallb_forall in H.
  specialize (H c Hc). unfold numeric_char in H.
  destruct (is_digit c) eqn:Hd.
  - rewrite (AmountFacts.digit_not_space _ Hd). reflexivity.
  - destruct (AmountFacts.sign_or_separator_cases c H)
      as [-> | [-> | [-> | ->]]]; reflexivity.
Qed.

Lemma filter_all (p : N -> bool) s : forallb p s = true -> filter p s = s.
Proof.
  induction s as [| c s IH]; simpl; [reflexivity |].
  intros H. apply andb_true_iff in H. destruct H as [-> H].
  rewrite (IH H). reflexivity.
Qed.

Lemma digits_numeric s :
  forallb is_digit s = true -> forallb numeric_char s = true.
Proof.
  intros H. apply forallb_forall. intros c Hc. rewrite forallb_forall in H.
  unfold numeric_char. rewrite (H c Hc). reflexivity.
Qed.

Lemma digits_or_dots s :
  forallb is_digit s = true -> forallb AmountFacts.digit_or_dot s = true.
Proof.
  intros H. apply forallb_forall. intros c Hc. rewrite forallb_forall in H.
  unfold AmountFacts.digit_or_dot. rewrite (H c Hc). reflexivity.
Qed.

Lemma float_of_digits s :
  s <> [] -> forallb is_digit s = true -> exists a, py_float s = Some a.
Proof.
  intros Hne Hs.
  pose proof (AmountFacts.py_float_numeral s (digits_or_dots _ Hs)) as H.
  unfold AmountFacts.is_numeral in H.
  rewrite (AmountFacts.span_all _ _ Hs) in H.
  destruct s; [congruence |]. simpl in H.
  destruct H as [m [e [_ H]]]. eauto.
Qed.

Lemma float_of_fraction a b :
  a <> [] -> forallb is_digit a = true -> forallb is_digit b = true ->
  exists x, py_float (a ++ ch "." :: b) = Some x.
Proof.
  intros Hne Ha Hb.
  assert (Hall : forallb AmountFacts.digit_or_dot (a ++ ch "." :: b) = true).
  { rewrite forallb_app. simpl.
    rewrite (digits_or_dots _ Ha), (digits_or_dots _ Hb). reflexivity. }
  pose proof (AmountFacts.py_float_numeral _ Hall) as H.
  unfold AmountFacts.is_numeral in H.
  rewrite (AmountFacts.span_app is_digit a (ch ".") b Ha eq_refl) in H.
  rewrite N.eqb_refl, Hb in H.
  destruct a; [congruence |]. simpl in H.
  destruct H as [m [e [_ H]]]. eauto.
Qed.

(** The amount parser reads every text the pattern matches. *)
Lemma number_read w :
  lang (seqs [plus digit; opt (one_of (u ".,")); Star digit]) w ->
  exists amount currency,
    parse_amount_with_currency w = AmountOk amount currency.
Proof.
  intros H. destruct (number_shape _ H) as [c [d1 [o [d2 [-> [Hc [H1 [H2 Ho]]]]]]]].
  assert (Ha : forallb is_digit (c :: d1) = true)
    by (simpl; rewrite Hc; exact H1).
  assert (Hne : c :: d1 <> []) by discriminate.
  set (a := c :: d1) in *.
  assert (Hnum : forallb numeric_char (a ++ o ++ d2) = true).
  { rewrite !forallb_app, (digits_numeric _ Ha), (digits_numeric _ H2).
    destruct Ho as [-> | [-> | ->]]; reflexivity. }
  unfold parse_amount_with_currency.
  rewrite (AmountFacts.digit_passes_guard (a ++ o ++ d2) c)
    by (first [left; reflexivity | exact Hc]).
  rewrite AmountFacts.re_sub_not_numeric, (numeric_strip _ Hnum),
    (filter_all _ _ Hnum).
  assert (Hcomma_a : forall x, In x a -> x <> ch ",")
    by (apply digits_free; [reflexivity | exact Ha]).
  assert (Hcomma_2 : forall x, In x d2 -> x <> ch ",")
    by (apply digits_free; [reflexivity | exact H2]).
  assert (Hdot_a : forall x, In x a -> x <> ch ".")
    by (apply digits_free; [reflexivity | exact Ha]).
  assert (Hdot_2 : forall x, In x d2 -> x <> ch ".")
    by (apply digits_free; [reflexivity | exact H2]).
  assert (Hres : exists x,
            py_float (resolve_separators (a ++ o ++ d2)) = Some x).
  { unfold resolve_separators.
    destruct Ho as [-> | [-> | ->]].
    - assert (Hc0 : has_char (ch ",") (a ++ [] ++ d2) = false).
      { apply has_char_free. intros x Hx.
        apply in_app_or in Hx.
        destruct Hx as [Hx | Hx];
          [exact (Hcomma_a _ Hx) | exact (Hcomma_2 _ Hx)]. }
      rewrite Hc0. cbn [andb].
      apply float_of_digits.
      + unfold a. discriminate.
      + rewrite forallb_app, Ha. exact H2.
    - assert (Hc0 : has_char (ch ",") (a ++ [ch "."] ++ d2) = false).
      { apply has_char_free. intros x Hx.
        apply in_app_or in Hx. destruct Hx as [Hx | [<- | Hx]]; auto.
        discriminate. }
      rewrite Hc0. cbn [andb].
      apply float_of_fraction; assumption.
    - assert (Hc0 : has_char (ch ",") (a ++ [ch ","] ++ d2) = true).
      { unfold has_char. rewrite existsb_app. simpl.
        apply orb_true_r. }
      assert (Hd0 : has_char (ch ".") (a ++ [ch ","] ++ d2) = false).
      { apply has_char_free. intros x Hx.
        apply in_app_or in Hx. destruct Hx as [Hx | [<- | Hx]]; auto.
        discriminate. }
      rewrite Hc0, Hd0. cbn [andb].
      assert (Hafter : slice_from (rfind (ch ",") (a ++ [ch ","] ++ d2) + 1)
                                  (a ++ [ch ","] ++ d2) = d2).
      { unfold rfind. cbn [app].
        rewrite (rfind_from_last_one (ch ",") a d2 0 (-1) Hcomma_2).
        unfold slice_from.
        replace (Z.to_nat (0 + Z.of_nat (List.length a) + 1))
          with (S (List.length a)) by lia.
        clear. induction a as [| y a IH]; [reflexivity | exact IH]. }
      rewrite Hafter.
      rewrite !replace_char_app, !(replace_char_free _ _ a Hcomma_a),
        !(replace_char_free _ _ d2 Hcomma_2).
      destruct (List.length d2 <=? 2)%nat.
      + change (replace_char (ch ",") (u ".") [ch ","]) with [ch "."].
        apply float_of_fraction; assumption.
      + change (replace_char (ch ",") [] [ch ","]) with (@nil N).
        apply float_of_digits.
        * unfold a. discriminate.
        * rewrite forallb_app, Ha. exact H2. }
  destruct Hres as [x Hx]. rewrite Hx.
  destruct (a ++ o ++ d2) eqn:E; [destruct a; discriminate |].
  eauto.
Qed.

End EmergencyFacts.

Module FallbackFacts.
Import DefensiveTransactionParser DigitFacts RowFacts EmergencyFacts.

Lemma in_join sep parts p x :
  In p parts -> In x p -> In x (join sep parts).
Proof.
  induction parts as [| q ps IH]; intros Hp Hx; [destruct Hp |].
  destruct ps as [| q' ps].
  - destruct Hp as [-> | []]. exact Hx.
  - change (In x (q ++ sep ++ join sep (q' :: ps))).
    apply in_or_app. destruct Hp as [-> | Hp]; [left; exact Hx |].
    right. apply in_or_app. right. apply IH; assumption.
Qed.

Lemma missing_digitless v : isna v = true -> holds_digit v = false.
Proof.
  destruct v as [| b | z | f | s]; try discriminate; [reflexivity |].
  destruct f; try discriminate. reflexivity.
Qed.

Lemma row_text_has_digit items :
  existsb holds_digit (map snd items) = true ->
  exists row_str,
    row_text (Series items) = Ok row_str
    /\ existsb is_digit row_str = true.
Proof.
  intros H. eexists. split; [reflexivity |].
  apply existsb_exists in H. destruct H as [v [Hv Hd]].
  unfold holds_digit in Hd. apply existsb_exists in Hd.
  destruct Hd as [x [Hx Hdx]].
  apply existsb_exists. exists x. split; [| exact Hdx].
  apply (in_join _ _ (py_str v)); [| exact Hx].
  apply in_map. apply filter_In. split; [exact Hv |].
  unfold notna. destruct (isna v) eqn:E; [| reflexivity].
  apply missing_digitless in E. unfold holds_digit in E.
  assert (existsb is_digit (py_str v) = true)
    by (apply existsb_exists; eauto).
  congruence.
Qed.

(** The emergency fallback reads every [Series] with a digit. *)
Lemma emergency_fallback_reads now items index :
  existsb holds_digit (map snd items) = true ->
  exists result,
    emergency_fallback now (Series items) index = Ok result
    /\ success result = true.
Proof.
  intros H. destruct (row_text_has_digit _ H) as [row_str [Ht Hd]].
  unfold emergency_fallback, try_except, bind. rewrite Ht.
  fold number_group.
  pose proof (number_group_search row_str None []) as Hs.
  rewrite Hd in Hs. fold (re_search number_group row_str) in Hs.
  destruct (re_search number_group row_str) as [m |] eqn:Em;
    [| discriminate].
  destruct (re_search_group _ _ _ _ Em) as [Hl _].
  destruct (number_read _ Hl) as [amount [currency ->]].
  eauto.
Qed.

End FallbackFacts.

(** [X1] [parse_transaction_row] and the digits of a row.  When no
    value of the row holds a digit, every strategy fails and the result
    is [all_failed].  A [Series] is parsed exactly when one of its values
    holds a digit: the emergency fallback reads the first run of digits
    as the amount. *)
Theorem row_parsed_by_digit now r index :
  exists result,
    DefensiveTransactionParser.parse_transaction_row now r index = Ok result
    /\ (existsb holds_digit (RowFacts.row_cells r) = false ->
        result = DefensiveTransactionParser.all_failed)
    /\ (forall items,
          r = DefensiveTransactionParser.Series items ->
          DefensiveTransactionParser.success result
          = existsb holds_digit (map snd items)).
Proof.
  unfold DefensiveTransactionParser.parse_transaction_row.
  destruct (existsb holds_digit (RowFacts.row_cells r)) eqn:Hd.
  - destruct (LadderFacts.try_strategies_total
                (DefensiveTransactionParser.strategies now) r index)
      as [x [Hx _]].
    exists x. split; [exact Hx |]. split; [discriminate |].
    intros items ->. simpl in Hd. rewrite Hd.
    destruct (FallbackFacts.emergency_fallback_reads now items index Hd)
      as [y [Hy Hs]].
    destruct (RowFacts.try_strategies_some
                (DefensiveTransactionParser.strategies now)
                (DefensiveTransactionParser.Series items) index
                (u "emergency_fallback")
                (DefensiveTransactionParser.emergency_fallback now) y)
      as [z [Hz Hzs]]; [do 4 right; left; reflexivity | exact Hy | exact Hs |].
    congruence.
  - exists DefensiveTransactionParser.all_failed.
    assert (Hr : Forall RowFacts.digitless (RowFacts.row_cells r)).
    { apply Forall_forall. intros v Hv.
      destruct (existsb is_digit (py_str v)) eqn:E; [| exact E].
      assert (existsb holds_digit (RowFacts.row_cells r) = true)
        by (apply existsb_exists; eauto).
      congruence. }
    split.
    + apply RowFacts.try_strategies_all_fail. intros name f Hin.
      exact (RowFacts.every_strategy_digit r Hr now index name f Hin).
    + split; [reflexivity |]. intros items ->. simpl in Hd. rewrite Hd.
      reflexivity.
Qed.

(** ** Values that look like amounts *)

Module ShapeFacts.
Import DefensiveTransactionParser DigitFacts.

Definition head_digit (s : list N) : bool :=
  match s with c :: _ => is_digit c | [] => false end.

Definition currency_sign_char (c : N) : bool := has_char c (u "€$₹£¥₽₱₩").

(** A pattern that starts with a digit matches only where one stands. *)
Lemma lang_head_digit r rest s prev before :
  (forall w, lang r w -> head_digit w = true) ->
  is_match (match_here (seqs (r :: rest)) prev s before) = true ->
  head_digit s = true.
Proof.
  intros Hr H. destruct (match_here _ prev s before) as [m |] eqn:E;
    [| discriminate].
  unfold match_here in E. apply rx_sound in E.
  destruct E as [w [s' [p' [c' [-> [Hw _]]]]]].
  assert (Hh : head_digit w = true \/ exists w1 w2, w = w1 ++ w2
                                                   /\ head_digit w1 = true).
  { destruct rest as [| r2 rest]; [left; apply Hr; exact Hw |].
    right. destruct Hw as [w1 [w2 [-> [H1 _]]]]. eauto. }
  destruct Hh as [Hh | [w1 [w2 [-> Hh]]]].
  - destruct w; [discriminate | exact Hh].
  - destruct w1; [discriminate | exact Hh].
Qed.

Lemma plus_digit_head w : lang (plus digit) w -> head_digit w = true.
Proof. intros [w1 [w2 [-> [[c [-> Hc]] _]]]]. exact Hc. Qed.

Lemma times_digit_head n w :
  lang (times (S n) digit) w -> head_digit w = true.
Proof.
  destruct n as [| n].
  - intros [c [-> Hc]]. exact Hc.
  - intros [w1 [w2 [-> [[c [-> Hc]] _]]]]. exact Hc.
Qed.

Lemma plus_digit_here prev s before :
  is_match (match_here (plus digit) prev s before) = head_digit s.
Proof.
  destruct s as [| c s]; [reflexivity |].
  set (K := fun (p' : option N) (s' : list N) (c' : captures) =>
              Some (mk_rmatch before
                      (firstn (List.length (c :: s) - List.length s')
                              (c :: s)) s' p' c')).
  change (is_match (if is_digit c then rx (Star digit) (Some c) s [] K
                    else None) = is_digit c).
  destruct (is_digit c); [| reflexivity].
  assert (HK : GateFacts.accepting K) by (intros p' s' c'; discriminate).
  pose proof (@GateFacts.always_star digit _ K HK (Some c) s []) as Hall.
  cbv beta in Hall.
  destruct (rx _ (Some c) s [] K); [reflexivity | congruence].
Qed.

Lemma sign_digits_here prev s before :
  is_match (match_here (Seq currency_sign (plus digit)) prev s before)
  = match s with
    | c :: rest => currency_sign_char c && head_digit rest
    | [] => false
    end.
Proof.
  destruct s as [| c s]; [reflexivity |].
  destruct s as [| d s].
  { unfold match_here. cbn [rx currency_sign one_of plus digit].
    fold (currency_sign_char c).
    destruct (currency_sign_char c); reflexivity. }
  set (K := fun (p' : option N) (s' : list N) (c' : captures) =>
              Some (mk_rmatch before
                      (firstn (List.length (c :: d :: s) - List.length s')
                              (c :: d :: s)) s' p' c')).
  change (is_match
            (if currency_sign_char c
             then if is_digit d then rx (Star digit) (Some d) s [] K
                  else None
             else None)
          = currency_sign_char c && is_digit d).
  destruct (currency_sign_char c); [| reflexivity].
  destruct (is_digit d); [| reflexivity].
  assert (HK : GateFacts.accepting K) by (intros p' s' c'; discriminate).
  pose proof (@GateFacts.always_star digit _ K HK (Some d) s []) as Hall.
  cbv beta in Hall.
  destruct (rx _ (Some d) s [] K); [reflexivity | congruence].
Qed.

(** [looks_like_amount] looks at the start of the value only. *)
Lemma looks_like_amount_head value :
  looks_like_amount value
  = head_digit value
    || match value with
       | c :: rest => currency_sign_char c && head_digit rest
       | [] => false
       end.
Proof.
  unfold looks_like_amount, re_match. cbn [existsb].
  rewrite sign_digits_here, plus_digit_here, orb_false_r.
  destruct (head_digit value) eqn:Hh.
  - rewrite !orb_true_r. reflexivity.
  - rewrite orb_false_r.
    destruct (is_match (match_here
                (seqs [plus digit; chr (ch "."); times 2 digit])
                None value [])) eqn:E2.
    { apply (lang_head_digit _ _ _ _ _ plus_digit_head) in E2. congruence. }
    destruct (is_match (match_here
                (seqs [plus digit; chr (ch ","); times 2 digit])
                None value [])) eqn:E3.
    { apply (lang_head_digit _ _ _ _ _ plus_digit_head) in E3. congruence. }
    rewrite !orb_false_r. reflexivity.
Qed.

Lemma looks_like_date_head value :
  looks_like_date value = true -> head_digit value = true.
Proof.
  unfold looks_like_date, re_match. cbn [existsb]. intros H.
  repeat (apply orb_true_iff in H; destruct H as [H | H]);
    [| | | discriminate];
    revert H; apply lang_head_digit; apply times_digit_head.
Qed.

End ShapeFacts.

(** [X2] [looks_like_amount] is decided by the start of the value: it
    holds exactly when the value starts with a digit, or with a currency
    sign followed by a digit; what follows is not looked at.  So every
    value that [looks_like_date] accepts looks like an amount too. *)
Theorem amount_like_by_first_characters value :
  DefensiveTransactionParser.looks_like_amount value
  = ShapeFacts.head_digit value
    || match value with
       | c :: rest =>
           ShapeFacts.currency_sign_char c && ShapeFacts.head_digit rest
       | [] => false
       end
  /\ (DefensiveTransactionParser.looks_like_date value = true ->
      DefensiveTransactionParser.looks_like_amount value = true).
Proof.
  split; [apply ShapeFacts.looks_like_amount_head |].
  intros H. rewrite ShapeFacts.looks_like_amount_head.
  rewrite (ShapeFacts.looks_like_date_head _ H). reflexivity.
Qed.

(** ** Currencies, and the order of the strategies *)

(** The currencies of the entries [C$], [A$], [R$], [S$], [HK$] and
    [NZ$]. *)
Definition dollar_prefix_currencies : list (list N) :=
  [u "CAD"; u "AUD"; u "BRL"; u "SGD"; u "HKD"; u "NZD"].

(** [X3] [parse_amount_with_currency] never reports CAD, AUD, BRL, SGD,
    HKD or NZD: a text with one of their prefixes holds a dollar sign, and
    the dollar sign (or the euro sign) is found first. *)
Theorem dollar_prefixes_never_reported amount_str amount currency :
  DefensiveTransactionParser.parse_amount_with_currency amount_str
  = AmountOk amount currency ->
  ~ In currency dollar_prefix_currencies.
Proof.
  unfold DefensiveTransactionParser.parse_amount_with_currency.
  destruct (_ || _); [discriminate |].
  destruct (re_sub not_numeric [] (strip amount_str)); [discriminate |].
  destruct (py_float _); [| discriminate].
  intros H. inversion H; subst. clear H.
  generalize (strip amount_str). intros s.
  unfold DefensiveTransactionParser.currency_symbols.
  cbn [DefensiveTransactionParser.detect_currency].
  destruct (contains (u "€") s); [vm_compute; intuition discriminate |].
  destruct (contains (u "$") s) eqn:Ed; [vm_compute; intuition discriminate |].
  assert (Hno : forall p, contains (p ++ u "$") s = true -> False).
  { intros p Hp. induction p as [| c p IH].
    - simpl in Hp. congruence.
    - apply IH. apply (contains_tail c). exact Hp. }
  repeat match goal with
         | |- context [if contains ?p s then _ else _] =>
             destruct (contains p s) eqn:?
         end;
    try (vm_compute; intuition discriminate).
  - exfalso. apply (Hno (u "C")). assumption.
  - exfalso. apply (Hno (u "A")). assumption.
  - exfalso. apply (Hno (u "R")). assumption.
  - exfalso. apply (Hno (u "S")). assumption.
  - exfalso. apply (Hno (u "HK")). assumption.
  - exfalso. apply (Hno (u "NZ")). assumption.
Qed.

Lemma dollar_prefixes_never_reported_witness :
  DefensiveTransactionParser.parse_amount_with_currency (u "HK$ 1,250.00")
  = AmountOk (dec 125000 (-2)) (u "USD")
  /\ ~ In (u "USD") dollar_prefix_currencies.
Proof.
  assert (H : DefensiveTransactionParser.parse_amount_with_currency
                (u "HK$ 1,250.00")
              = AmountOk (dec 125000 (-2)) (u "USD"))
    by (vm_compute; reflexivity).
  split; [exact H |].
  exact (dollar_prefixes_never_reported _ _ _ H).
Defined.

Section PrefixFirst.
Variable is_word : N -> bool.

(** The first prefix of the table that stands in the text. *)
Definition first_prefix (text : list N) : option (string * string) :=
  find (fun pc => contains (u (fst pc)) text)
       TransactionProcessor.prefix_table.

Lemma first_pattern_prefixes table rest text default :
  TransactionProcessor.first_pattern
    (map (fun pc => (TransactionProcessor.symbol (fst pc), u (snd pc))) table
     ++ rest) text default
  = match find (fun pc => contains (u (fst pc)) text) table with
    | Some pc => u (snd pc)
    | None => TransactionProcessor.first_pattern rest text default
    end.
Proof.
  induction table as [| [p c] table IH]; [reflexivity |].
  cbn [map app TransactionProcessor.first_pattern find fst snd].
  unfold TransactionProcessor.symbol at 1. rewrite re_search_lit.
  destruct (contains (u p) text); [reflexivity | exact IH].
Qed.

(** [X4] In [detect_currency_from_amount] the prefixes come first: the
    currency of a text is the one of the first prefix of the table that
    stands in it, whatever symbols and codes it holds besides. *)
Theorem prefix_decides_currency amount_str prefix currency :
  first_prefix (strip amount_str) = Some (prefix, currency) ->
  TransactionProcessor.detect_currency_from_amount is_word amount_str
  = u currency.
Proof.
  intros H. unfold TransactionProcessor.detect_currency_from_amount.
  destruct amount_str as [| c s]; [vm_compute in H; discriminate |].
  cbn [truthy negb]. cbv iota.
  unfold TransactionProcessor.currency_patterns,
    TransactionProcessor.prefix_patterns.
  rewrite first_pattern_prefixes. fold (first_prefix (strip (c :: s))).
  rewrite H. reflexivity.
Qed.

End PrefixFirst.

Lemma prefix_decides_currency_witness :
  first_prefix (strip (u " R$ 250,50 USD")) = Some ("R$", "BRL")%string
  /\ TransactionProcessor.detect_currency_from_amount
       ascii_word (u " R$ 250,50 USD") = u "BRL".
Proof.
  assert (H : first_prefix (strip (u " R$ 250,50 USD"))
              = Some ("R$", "BRL")%string) by (vm_compute; reflexivity).
  split; [exact H |].
  exact (prefix_decides_currency ascii_word _ _ _ H).
Defined.

(** [X5] The result of [parse_transaction_row] is the result of the
    first strategy of the list that succeeds: every strategy before it
    failed or raised, and [strategy_used] is its name. *)
Theorem first_success_wins now r index result :
  DefensiveTransactionParser.parse_transaction_row now r index = Ok result ->
  DefensiveTransactionParser.success result = true ->
  exists earlier name f later,
    DefensiveTransactionParser.strategies now
    = earlier ++ (name, f) :: later
    /\ f r index = Ok result
    /\ DefensiveTransactionParser.strategy_used result = name
    /\ Forall (fun s => forall x, snd s r index = Ok x ->
                 DefensiveTransactionParser.success x = false) earlier.
Proof.
  unfold DefensiveTransactionParser.parse_transaction_row.
  intros Hrun Hs.
  assert (Hgen : forall ss,
            DefensiveTransactionParser.try_strategies ss r index = Ok result ->
            exists earlier name f later,
              ss = earlier ++ (name, f) :: later
              /\ f r index = Ok result
              /\ Forall (fun s => forall x, snd s r index = Ok x ->
                           DefensiveTransactionParser.success x = false)
                        earlier).
  { induction ss as [| [n g] rest IH]; simpl.
    - intros H. inversion H; subst. discriminate.
    - unfold DefensiveTransactionParser.attempt, try_except, bind.
      destruct (g r index) as [y | e] eqn:Hg.
      + destruct (DefensiveTransactionParser.success y) eqn:Hy.
        * intros H. inversion H; subst.
          exists [], n, g, rest. auto.
        * intros H. destruct (IH H) as [ea [nm [f [la [-> [Hf Hall]]]]]].
          exists ((n, g) :: ea), nm, f, la. split; [reflexivity |].
          split; [exact Hf |]. constructor; [| exact Hall].
          simpl. intros x Hx. congruence.
      + intros H. destruct (IH H) as [ea [nm [f [la [-> [Hf Hall]]]]]].
        exists ((n, g) :: ea), nm, f, la. split; [reflexivity |].
        split; [exact Hf |]. constructor; [| exact Hall].
        simpl. intros x Hx. congruence. }
  destruct (Hgen _ Hrun) as [ea [nm [f [la [E [Hf Hall]]]]]].
  exists ea, nm, f, la. split; [exact E |]. split; [exact Hf |].
  split; [| exact Hall].
  assert (Hin : In (nm, f) (DefensiveTransactionParser.strategies now))
    by (rewrite E; apply in_elt).
  destruct (LadderFacts.each_strategy_outcome r index Hin)
    as [label [score [x [-> [_ [Hfx Hout]]]]]].
  rewrite Hf in Hfx. inversion Hfx; subst x.
  destruct (LadderFacts.successful_outcome Hout Hs)
    as [d [ds [a [c [ty [cat [-> _]]]]]]].
  reflexivity.
Qed.

(** ** The validator on its own output *)

Module SurvivorFacts.
Import TransactionProcessor ValidatorFacts.

(** Assigning to a key the value it has changes nothing. *)
Lemma set_same (t : record) k v : get t k = Some v -> set t k v = t.
Proof.
  unfold get, set. generalize (u k). intros key.
  induction t as [| [k0 v0] t IH]; simpl; [discriminate |].
  destruct (str_eqb_spec key k0) as [-> | Hne].
  - intros H. inversion H; subst. reflexivity.
  - intros H. rewrite (IH H). reflexivity.
Qed.

Lemma default_same (t : record) k v : has t k = true -> default t k v = t.
Proof. intros H. unfold default. rewrite H. reflexivity. Qed.

(** [strip] removes nothing from a stripped text. *)
Lemma drop_while_suffix (p : N -> bool) s :
  exists skipped, s = skipped ++ drop_while p s.
Proof.
  induction s as [| c s [sk IH]]; simpl; [exists []; reflexivity |].
  destruct (p c).
  - exists (c :: sk). simpl. rewrite <- IH. reflexivity.
  - exists []. reflexivity.
Qed.

Lemma drop_while_head (p : N -> bool) s :
  match drop_while p s with c :: _ => p c = false | [] => True end.
Proof.
  induction s as [| c s IH]; simpl; [exact I |].
  destruct (p c) eqn:E; [exact IH | exact E].
Qed.

Lemma strip_strip s : strip (strip s) = strip s.
Proof.
  unfold strip.
  set (a := drop_while is_space s).
  set (b := drop_while is_space (rev a)).
  assert (Hb : match b with c :: _ => is_space c = false | [] => True end)
    by apply drop_while_head.
  assert (Hrb : match rev b with c :: _ => is_space c = false | [] => True
                end).
  { destruct (drop_while_suffix is_space (rev a)) as [sk Hsk]. fold b in Hsk.
    assert (Ha : a = rev b ++ rev sk).
    { rewrite <- rev_app_distr, <- Hsk, rev_involutive. reflexivity. }
    pose proof (drop_while_head is_space s) as Hh. fold a in Hh.
    rewrite Ha in Hh. destruct (rev b); [exact I | exact Hh]. }
  rewrite (AmountFacts.drop_while_id is_space (rev b) Hrb), rev_involutive.
  rewrite (AmountFacts.drop_while_id is_space b Hb). reflexivity.
Qed.

Lemma converted_number a x : converted a = Some x -> is_number x = true.
Proof.
  unfold converted. destruct (is_number a) eqn:E.
  - intros H. inversion H; subst. exact E.
  - destruct (py_float (py_str a)); [| discriminate].
    intros H. inversion H. reflexivity.
Qed.

Lemma converted_again x : is_number x = true -> converted x = Some x.
Proof. intros H. unfold converted. rewrite H. reflexivity. Qed.

Lemma field_get (t : record) k v : get t k = Some v -> field t k = v.
Proof.
  unfold field, dict_get_default, get. intros ->. reflexivity.
Qed.

(** The amount and the description of a survivor. *)
Lemma completed_values t :
  accepts t = true ->
  exists a,
    converted (field t "amount") = Some a
    /\ get (completed t) "amount" = Some a
    /\ get (completed t) "description" = Some (PStr (description_text t))
    /\ blank (description_text t) = false
    /\ present t "date" = true.
Proof.
  unfold accepts. intros H.
  repeat (apply andb_true_iff in H; destruct H as [H ?]).
  unfold completed.
  destruct (converted (field t "amount")) as [a |] eqn:Ea; [| discriminate].
  exists a. split; [reflexivity |].
  set (t1 := set t "amount" a).
  assert (Hd1 : description_text t1 = description_text t).
  { unfold description_text, field, dict_get_default, t1, set.
    rewrite get_set_other by (vm_compute; reflexivity). reflexivity. }
  rewrite Hd1.
  set (t2 := set t1 "description" (PStr (description_text t))).
  assert (Ha2 : get t2 "amount" = Some a).
  { unfold t2. rewrite get_set_neq by (vm_compute; reflexivity).
    apply get_set_eq. }
  assert (Hs2 : get t2 "description" = Some (PStr (description_text t)))
    by apply get_set_eq.
  assert (Hkeep : forall k v, get t2 k = Some v ->
            get (default
                   (default
                      (default (default t2 "currency" (PStr (u "USD")))
                               "confidence_score" (PFloat (dec 7 (-1))))
                      "type" (PStr (if negative a then u "debit"
                                    else u "credit")))
                   "category" (PStr (u "other"))) k = Some v).
  { intros k v Hk.
    assert (Hh : has t2 k = true) by (rewrite has_get, Hk; reflexivity).
    rewrite !get_default_kept; try exact Hk;
      repeat (first [exact Hh | apply has_default_kept]). }
  split; [apply Hkeep; exact Ha2 |]. split; [apply Hkeep; exact Hs2 |].
  split; [apply negb_true_iff; assumption | assumption].
Qed.

Lemma present_get (t : record) k v :
  get t k = Some v -> present t k = truthy v.
Proof.
  unfold present, dict_get_default, get. intros ->. reflexivity.
Qed.

Lemma blank_truthy d : blank d = false -> truthy (PStr d) = true.
Proof.
  unfold blank. intros H. apply orb_false_iff in H. destruct H as [H _].
  apply negb_false_iff in H. exact H.
Qed.

Lemma has_present (t : record) k : present t k = true -> has t k = true.
Proof.
  unfold present, has, dict_has, dict_get_default.
  destruct (dict_get str_eqb t (u k)); [reflexivity | discriminate].
Qed.

(** A survivor whose amount is not zero is accepted as it is. *)
Lemma completed_stable t :
  accepts t = true -> zero_amount (completed t) = false ->
  accepts (completed t) = true /\ completed (completed t) = completed t.
Proof.
  intros Ha Hz.
  destruct (completed_values t Ha) as [a [Hc [Hga [Hgd [Hb Hdate]]]]].
  destruct (completed_fields t Ha) as [Hall [Hgdate _]].
  pose proof (converted_number _ _ Hc) as Hnum.
  assert (Hta : truthy a = true).
  { unfold zero_amount in Hz. rewrite Hga in Hz.
    destruct a as [| b | z | f | s]; try discriminate Hnum; simpl in *.
    - apply negb_false_iff in Hz. exact Hz.
    - apply negb_true_iff. exact Hz.
    - apply negb_false_iff in Hz. exact Hz. }
  assert (Hdt : description_text (completed t) = description_text t).
  { unfold description_text at 1. rewrite (field_get _ _ _ Hgd).
    cbn [py_str]. unfold description_text. apply strip_strip. }
  assert (Hfa : field (completed t) "amount" = a) by (apply field_get; exact Hga).
  split.
  - unfold accepts.
    rewrite (present_get _ _ _ Hga), (present_get _ _ _ Hgd), Hta.
    rewrite (blank_truthy _ Hb).
    assert (Hpd : present (completed t) "date" = true).
    { unfold present, dict_get_default in *. unfold get in Hgdate.
      rewrite Hgdate. exact Hdate. }
    rewrite Hpd, Hfa, (converted_again _ Hnum), Hdt, Hb. reflexivity.
  - unfold completed at 1. rewrite Hfa, (converted_again _ Hnum).
    rewrite (set_same _ _ _ Hga).
    rewrite Hdt, (set_same _ _ _ Hgd).
    inversion Hall as [| ? ? Hh1 Hall1]; subst.
    inversion Hall1 as [| ? ? Hh2 Hall2]; subst.
    inversion Hall2 as [| ? ? Hh3 Hall3]; subst.
    inversion Hall3 as [| ? ? Hh4 Hall4]; subst.
    inversion Hall4 as [| ? ? Hh5 Hall5]; subst.
    inversion Hall5 as [| ? ? Hh6 Hall6]; subst.
    inversion Hall6 as [| ? ? Hh7 Hall7]; subst.
    rewrite (default_same (completed t) "currency") by assumption.
    rewrite (default_same (completed t) "confidence_score") by assumption.
    rewrite (default_same (completed t) "type") by assumption.
    rewrite (default_same (completed t) "category") by assumption.
    reflexivity.
Qed.

Lemma returned_ok ts vs :
  returned (_validate_transactions ts) = Ok vs ->
  vs = map completed (filter accepts ts) /\ vs <> [].
Proof.
  unfold _validate_transactions.
  destruct (validate_loop_spec ts 0 [] []) as [more [E _]].
  rewrite E. cbn [app].
  destruct (map completed (filter accepts ts)) eqn:Em.
  - discriminate.
  - intros H. inversion H; subst. split; [reflexivity | discriminate].
Qed.

End SurvivorFacts.

(** [X6] The validator accepts what it returned: when no amount of the
    returned transactions is zero, a second run returns the same list
    unchanged, rejects nothing and logs no warning.  (A text amount that
    reads as zero is kept by the first run as the number 0.0, which a
    second run rejects.) *)
Theorem validation_is_stable ts vs :
  TransactionProcessor.returned (TransactionProcessor._validate_transactions ts)
  = Ok vs ->
  Forall (fun t => ValidatorFacts.zero_amount t = false) vs ->
  TransactionProcessor._validate_transactions vs
  = TransactionProcessor.mk_validation
      [(TransactionProcessor.Info,
        ValidatorFacts.success_message (List.length vs) 0)]
      (Ok vs).
Proof.
  intros Hrun Hz.
  destruct (SurvivorFacts.returned_ok ts vs Hrun) as [-> Hne].
  set (kept := filter ValidatorFacts.accepts ts) in *.
  assert (Hk : Forall (fun t => ValidatorFacts.accepts t = true) kept).
  { apply Forall_forall. intros t Ht. apply filter_In in Ht. tauto. }
  assert (Hloop : forall l i valid errors,
            Forall (fun t => ValidatorFacts.accepts t = true) l ->
            Forall (fun t => ValidatorFacts.zero_amount t = false)
                   (map ValidatorFacts.completed l) ->
            TransactionProcessor.validate_loop
              i (map ValidatorFacts.completed l) valid errors
            = (valid ++ map ValidatorFacts.completed l, errors)).
  { induction l as [| t l IH]; intros i valid errors Ha Hzz; simpl.
    - rewrite app_nil_r. reflexivity.
    - inversion Ha; subst. inversion Hzz; subst.
      destruct (SurvivorFacts.completed_stable t) as [Hacc Hsame];
        [assumption | assumption |].
      rewrite (ValidatorFacts.validate_one_accepts i _ Hacc), Hsame.
      rewrite IH by assumption. rewrite <- app_assoc. reflexivity. }
  unfold TransactionProcessor._validate_transactions.
  rewrite (Hloop kept 0%nat [] [] Hk Hz). cbn [app].
  unfold ValidatorFacts.success_message, TransactionProcessor.count.
  destruct (map ValidatorFacts.completed kept) eqn:Em; [congruence |].
  cbn [app List.length]. reflexivity.
Qed.

(** [X7] Every transaction that [_validate_transactions] returns passes
    [validate_transaction]. *)
Theorem survivors_are_valid ts vs :
  TransactionProcessor.returned (TransactionProcessor._validate_transactions ts)
  = Ok vs ->
  Forall (fun t => TransactionProcessor.validate_transaction t
                   = Ok (true, u "Transaction is valid")) vs.
Proof.
  intros Hrun.
  destruct (SurvivorFacts.returned_ok ts vs Hrun) as [-> _].
  apply Forall_forall. intros t' Hin. apply in_map_iff in Hin.
  destruct Hin as [t [<- Ht]]. apply filter_In in Ht. destruct Ht as [_ Ha].
  destruct (SurvivorFacts.completed_values t Ha)
    as [a [Hc [Hga [Hgd [Hb Hdate]]]]].
  destruct (ValidatorFacts.completed_fields t Ha) as [Hall [Hgdate _]].
  unfold TransactionProcessor.validate_transaction.
  inversion Hall as [| ? ? Hh1 Hall1]; subst.
  inversion Hall1 as [| ? ? Hh2 Hall2]; subst.
  inversion Hall2 as [| ? ? Hh3 Hall3]; subst.
  inversion Hall3 as [| ? ? Hh4 Hall4]; subst.
  inversion Hall4 as [| ? ? Hh5 Hall5]; subst.
  inversion Hall5 as [| ? ? Hh6 Hall6]; subst.
  cbn [find]. rewrite Hh1, Hh2, Hh3, Hh5, Hh6. cbn [negb].
  unfold TransactionProcessor.item, bind.
  rewrite Hgdate, Hgd, Hga.
  unfold ValidatorFacts.present, dict_get_default in Hdate.
  unfold get. destruct (dict_get str_eqb t (u "date")) as [d |];
    [| discriminate].
  rewrite Hdate, (SurvivorFacts.blank_truthy _ Hb). cbn [negb orb].
  pose proof (SurvivorFacts.converted_number _ _ Hc) as Hnum.
  destruct a; try discriminate Hnum; reflexivity.
Qed.

(** ** Rows of the processor *)

Module ProcessorRowFacts.
Import TransactionProcessor.

Section Rows.
Variable is_word : N -> bool.
Variable now : datetime.
Variable ml : list N -> list N * pyfloat.
Variable rule : list N -> res (list N * pyfloat).

(** A date of [_parse_date] is a date of the calendar, without a time
    of day. *)
Lemma first_format_valid formats date_str d :
  first_format now formats date_str = Some d ->
  valid_datetime d = true /\ hour d = 0%N /\ minute d = 0%N /\ second d = 0%N.
Proof.
  induction formats as [| f rest IH]; simpl; [discriminate |].
  destruct (strptime date_str (fmt f)) as [p |]; [| exact IH].
  match goal with
  | |- (if valid_datetime ?x then _ else _) = _ -> _ =>
      destruct (valid_datetime x) eqn:Hv; [| exact IH]
  end.
  intros H. inversion H; subst. cbn [hour minute second].
  split; [| auto].
  unfold valid_datetime in *. cbn [year month day hour minute second] in *.
  repeat (apply andb_true_iff in Hv; destruct Hv as [Hv ?]).
  repeat (apply andb_true_iff; split); try assumption; reflexivity.
Qed.

Lemma parse_date_valid date_str d :
  _parse_date is_word now date_str = Some d -> valid_datetime d = true.
Proof.
  unfold _parse_date. destruct (_ || _); [discriminate |].
  intros H. exact (proj1 (first_format_valid _ _ _ H)).
Qed.

Lemma parse_amount_range s a c :
  _parse_amount is_word s = (Some a, c) -> out_of_range a = false.
Proof.
  intros H. pose proof (AmountFacts.parse_amount_fst is_word s) as Hf.
  rewrite H in Hf. cbn [fst] in Hf.
  destruct (AmountFacts.guard s); [discriminate |].
  destruct (py_float (AmountFacts.body s)) as [x |]; [| discriminate].
  cbv zeta in Hf.
  destruct (out_of_range _) eqn:E; [discriminate |].
  inversion Hf; subst. exact E.
Qed.

(** What the [try] block returns. *)
Lemma parse_row_shape row t :
  parse_row is_word now ml rule row = Ok t ->
  exists date description amount currency type category confidence,
    t = DefensiveTransactionParser.make_transaction
          (strftime_ymd date) description amount currency type category
          confidence
    /\ valid_datetime date = true
    /\ strip description = description
    /\ out_of_range amount = false
    /\ (type = u "debit" \/ type = u "credit")
    /\ ((confidence = dec 7 (-1) /\ category <> [] /\ category <> u "other")
        \/ _categorize_transaction ml rule description
           = Ok (category, confidence)).
Proof.
  unfold parse_row, bind.
  destruct (DefensiveTransactionParser.to_dict row) as [row_data |];
    [| discriminate].
  set (normalized := fold_left _ row_data []).
  destruct (_parse_date is_word now _) as [d |] eqn:Hd; [| discriminate].
  destruct (_ || _); [discriminate |].
  destruct (_parse_amount is_word _) as [[a |] c] eqn:Ha; [| discriminate].
  set (description := strip (py_str (dict_get_default str_eqb normalized
                                       (u "description") (PStr [])))).
  set (category := lower (strip (py_str (dict_get_default str_eqb normalized
                                           (u "category")
                                           (PStr (u "Other")))))).
  set (type := if existsb _ _ then u "debit" else u "credit").
  assert (Htype : type = u "debit" \/ type = u "credit")
    by (unfold type; destruct (existsb _ _); auto).
  assert (Hstrip : strip description = description)
    by apply SurvivorFacts.strip_strip.
  pose proof (parse_date_valid _ _ Hd) as Hvalid.
  pose proof (parse_amount_range _ _ _ Ha) as Hrange.
  destruct (existsb (str_eqb category) [u ""; u "other"]) eqn:Hc.
  - destruct (_categorize_transaction ml rule description)
      as [[cat conf] |] eqn:Hcat; [| discriminate].
    intros H. inversion H; subst t. clear H.
    exists d, description, a, c, type, cat, conf.
    split; [reflexivity |]. auto 10.
  - intros H. inversion H; subst t. clear H.
    exists d, description, a, c, type, category, (dec 7 (-1)).
    split; [reflexivity |].
    split; [exact Hvalid |]. split; [exact Hstrip |].
    split; [exact Hrange |]. split; [exact Htype |]. left.
    split; [reflexivity |].
    cbn [existsb] in Hc. apply orb_false_iff in Hc. destruct Hc as [H1 H2].
    apply orb_false_iff in H2. destruct H2 as [H2 _].
    split; intros E; rewrite E in *; discriminate.
Qed.

End Rows.
End ProcessorRowFacts.

Module ParsedFacts.
Import TransactionProcessor ValidatorFacts.

Lemma strftime_truthy d : truthy (PStr (strftime_ymd d)) = true.
Proof.
  unfold strftime_ymd. destruct (pad 4 (year d)); reflexivity.
Qed.

Section Shape.
Variables (date description : list N) (amount : pyfloat)
          (currency type category : list N) (confidence : pyfloat).
Let t := DefensiveTransactionParser.make_transaction
           date description amount currency type category confidence.
Hypothesis Hstrip : strip description = description.

Lemma description_text_parsed : description_text t = description.
Proof. exact Hstrip. Qed.

Lemma completed_parsed : completed t = t.
Proof.
  unfold completed.
  change (converted (field t "amount")) with (Some (PFloat amount)).
  cbv iota beta zeta.
  rewrite (SurvivorFacts.set_same t "amount" (PFloat amount) eq_refl).
  rewrite description_text_parsed.
  rewrite (SurvivorFacts.set_same t "description" (PStr description)
             eq_refl).
  rewrite (SurvivorFacts.default_same t "currency") by reflexivity.
  rewrite (SurvivorFacts.default_same t "confidence_score") by reflexivity.
  rewrite (SurvivorFacts.default_same t "type") by reflexivity.
  rewrite (SurvivorFacts.default_same t "category") by reflexivity.
  reflexivity.
Qed.

Lemma accepts_parsed :
  truthy (PStr date) = true ->
  accepts t = float_nonzero amount && negb (blank description).
Proof.
  intros Hd. unfold accepts.
  change (present t "date") with (truthy (PStr date)).
  change (present t "description") with (truthy (PStr description)).
  change (present t "amount") with (float_nonzero amount).
  change (converted (field t "amount")) with (Some (PFloat amount)).
  rewrite description_text_parsed, Hd. cbv iota.
  unfold blank.
  destruct (truthy (PStr description)); cbn [andb negb orb];
    [| rewrite andb_false_r; reflexivity].
  rewrite andb_true_r. reflexivity.
Qed.

End Shape.
End ParsedFacts.

Section ProcessorRows.
Variable is_word : N -> bool.
Variable now : datetime.
Variable _ml_categorize : list N -> list N * pyfloat.
Variable _rule_based_categorize : list N -> res (list N * pyfloat).

Let parse_transaction_row :=
  TransactionProcessor.parse_transaction_row
    is_word now _ml_categorize _rule_based_categorize.

(** [X8] A transaction that the processor's [parse_transaction_row]
    returns has the seven fields in the order of the dictionary literal.
    Its date is a date of the calendar written as YYYY-MM-DD, its
    description is stripped, its amount is within the bound of
    [_parse_amount], its type is "debit" or "credit", and its category
    and confidence are those of the row with 0.7, or what
    [_categorize_transaction] answers for the description. *)
Theorem processor_row_shape row index t :
  parse_transaction_row row index = Ok (Some t) ->
  exists date description amount currency type category confidence,
    t = DefensiveTransactionParser.make_transaction
          (strftime_ymd date) description amount currency type category
          confidence
    /\ valid_datetime date = true
    /\ strip description = description
    /\ TransactionProcessor.out_of_range amount = false
    /\ (type = u "debit" \/ type = u "credit")
    /\ ((confidence = dec 7 (-1) /\ category <> [] /\ category <> u "other")
        \/ TransactionProcessor._categorize_transaction
             _ml_categorize _rule_based_categorize description
           = Ok (category, confidence)).
Proof.
  unfold parse_transaction_row, TransactionProcessor.parse_transaction_row.
  destruct (TransactionProcessor.parse_row _ _ _ _ row) as [t0 |] eqn:E.
  - intros H. inversion H; subst t0.
    exact (ProcessorRowFacts.parse_row_shape _ _ _ _ _ _ E).
  - destruct index; destruct row; discriminate.
Qed.

(** The rows that [parse_transaction_row] made. *)
Definition parsed (t : record) : Prop :=
  exists row index, parse_transaction_row row index = Ok (Some t).

(** [X9] Rows from [parse_transaction_row] through
    [_validate_transactions]: a parsed row is kept exactly when its amount
    is not zero and its description is not blank, "nan" or "null" (the
    parser does not test the description), and the rows that are kept
    come back unchanged. *)
Theorem parsed_rows_validated ts :
  Forall parsed ts ->
  let kept := filter ValidatorFacts.accepts ts in
  Forall (fun t =>
            exists description amount,
              get t "description" = Some (PStr description)
              /\ get t "amount" = Some (PFloat amount)
              /\ ValidatorFacts.accepts t
                 = float_nonzero amount
                   && negb (ValidatorFacts.blank description)) ts
  /\ (kept <> [] ->
      TransactionProcessor.returned
        (TransactionProcessor._validate_transactions ts) = Ok kept).
Proof.
  intros Hp kept.
  assert (Hshape : Forall (fun t =>
            exists date description amount currency type category confidence,
              t = DefensiveTransactionParser.make_transaction
                    (strftime_ymd date) description amount currency type
                    category confidence
              /\ strip description = description) ts).
  { apply Forall_forall. intros t Ht. rewrite Forall_forall in Hp.
    destruct (Hp t Ht) as [row [index Hrun]].
    destruct (processor_row_shape _ _ _ Hrun)
      as [d [ds [a [c [ty [cat [conf [E [_ [Hs _]]]]]]]]]].
    exists d, ds, a, c, ty, cat, conf. auto. }
  split.
  - apply Forall_forall. intros t Ht. rewrite Forall_forall in Hshape.
    destruct (Hshape t Ht) as [d [ds [a [c [ty [cat [conf [-> Hs]]]]]]]].
    exists ds, a. split; [reflexivity |]. split; [reflexivity |].
    apply ParsedFacts.accepts_parsed;
      [exact Hs | apply ParsedFacts.strftime_truthy].
  - intros Hne.
    destruct (ValidatorFacts.validate_loop_spec ts 0 [] []) as [more [E _]].
    unfold TransactionProcessor._validate_transactions. rewrite E.
    cbn [app]. fold kept.
    assert (Hsame : map ValidatorFacts.completed kept = kept).
    { apply SanitizerFacts.map_id_on. intros t Ht.
      apply filter_In in Ht. destruct Ht as [Ht _].
      rewrite Forall_forall in Hshape.
      destruct (Hshape t Ht) as [d [ds [a [c [ty [cat [conf [-> Hs]]]]]]]].
      apply ParsedFacts.completed_parsed. exact Hs. }
    rewrite Hsame. destruct kept; [congruence | reflexivity].
Qed.

End ProcessorRows.

(** ** Detected columns *)

(** The lowered name of the column holds the word "date". *)
Definition date_named (c : pyval * dtype) : bool :=
  contains (u "date") (strip (lower (py_str (fst c)))).

Module ColumnFacts.
Import ColumnDetector.

Definition date_patterns : list string :=
  ["date"; "transaction_date"; "posted_date"; "post_date"; "trans_date";
   "effective_date"; "settlement_date"]%string.

Lemma contains_suffix p q s :
  contains (p ++ q) s = true -> contains q s = true.
Proof.
  induction p as [| c p IH]; [exact (fun H => H) |].
  intros H. apply IH. apply (contains_tail c). exact H.
Qed.

(** Every pattern of a date ends with "date", and "date" is one. *)
Lemma matches_date_patterns s :
  matches_patterns date_patterns s = contains (u "date") s.
Proof.
  unfold matches_patterns, date_patterns. cbn [existsb].
  rewrite !re_search_lit.
  destruct (contains (u "date") s) eqn:E; [reflexivity |].
  cbn [orb].
  repeat match goal with
         | |- context [contains (u ?p) s] =>
             lazymatch p with
             | "date"%string => fail
             | _ =>
                 let H := fresh in
                 destruct (contains (u p) s) eqn:H;
                 [exfalso;
                  match type of H with
                  | contains ?w s = true =>
                      let pre := eval vm_compute in
                        (firstn (List.length w - 4) w) in
                      apply (contains_suffix pre (u "date")) in H
                  end; congruence |]
             end
         end.
  reflexivity.
Qed.

Definition step (detected : list (list N * pyval)) (c : pyval * dtype) :=
  detect_column column_patterns (fst c) (strip (lower (py_str (fst c))))
                detected.

Lemma has_set_key (d : list (list N * pyval)) k v :
  dict_has str_eqb (dict_set str_eqb d k v) k = true.
Proof.
  unfold dict_has. rewrite ValidatorFacts.get_set_same. reflexivity.
Qed.

(** Once a date is detected, a column can only take its place. *)
Lemma step_after_date detected c :
  dict_has str_eqb detected (u "date") = true ->
  step detected c
  = if date_named c then dict_set str_eqb detected (u "date") (fst c)
    else detected.
Proof.
  intros H. unfold step, column_patterns. cbn [detect_column].
  fold date_patterns. rewrite matches_date_patterns. fold (date_named c).
  destruct (date_named c).
  - rewrite has_set_key. reflexivity.
  - rewrite H. reflexivity.
Qed.

Lemma step_date detected c :
  date_named c = true ->
  step detected c = dict_set str_eqb detected (u "date") (fst c).
Proof.
  intros H. unfold step, column_patterns. cbn [detect_column].
  fold date_patterns. rewrite matches_date_patterns. fold (date_named c).
  rewrite H, has_set_key. reflexivity.
Qed.

Lemma keys_set (d : list (list N * pyval)) k v :
  dict_has str_eqb d k = true ->
  map fst (dict_set str_eqb d k v) = map fst d.
Proof.
  unfold dict_has. induction d as [| [k0 v0] d IH]; simpl; [discriminate |].
  destruct (str_eqb k k0); [reflexivity |].
  intros H. simpl. rewrite (IH H). reflexivity.
Qed.

Lemma keys_after_date after : forall detected,
  dict_has str_eqb detected (u "date") = true ->
  map fst (fold_left step after detected) = map fst detected.
Proof.
  induction after as [| x after IH]; intros detected H; [reflexivity |].
  cbn [fold_left]. rewrite (step_after_date _ _ H).
  destruct (date_named x).
  - rewrite IH by apply has_set_key. apply keys_set. exact H.
  - apply IH. exact H.
Qed.

Lemma last_nonempty {A : Type} (l : list A) d d' :
  l <> [] -> last l d = last l d'.
Proof.
  induction l as [| a l IH]; [congruence |].
  intros _. destruct l as [| b l]; [reflexivity |].
  apply IH. discriminate.
Qed.

Lemma only_date_after after : forall cur,
  fold_left step after [(u "date", fst cur)]
  = [(u "date", fst (last (cur :: filter date_named after) cur))].
Proof.
  induction after as [| x after IH]; intros cur; [reflexivity |].
  cbn [fold_left filter].
  rewrite (step_after_date [(u "date", fst cur)] x eq_refl).
  destruct (date_named x).
  - change (dict_set str_eqb [(u "date", fst cur)] (u "date") (fst x))
      with [(u "date", fst x)].
    rewrite IH.
    change (last (cur :: x :: filter date_named after) cur)
      with (last (x :: filter date_named after) cur).
    rewrite (last_nonempty (x :: filter date_named after) cur x)
      by discriminate.
    reflexivity.
  - apply IH.
Qed.

End ColumnFacts.

(** [X10] [detect_columns] stops its loop over the field types at the
    first one that is detected already.  So the columns to the right of a
    column whose name holds "date" add no field; when that column is the
    first one, "date" is the only field detected, and it is mapped to the
    last column whose name holds "date". *)
Theorem date_column_hides_the_rest before c after rows :
  date_named c = true ->
  map fst (ColumnDetector.detect_columns
             (mk_frame (before ++ c :: after) rows))
  = map fst (ColumnDetector.detect_columns (mk_frame (before ++ [c]) rows))
  /\ (before = [] ->
      ColumnDetector.detect_columns (mk_frame (c :: after) rows)
      = [(u "date", fst (last (c :: filter date_named after) c))]).
Proof.
  intros Hc. unfold ColumnDetector.detect_columns. cbn [columns].
  fold ColumnFacts.step. split.
  - rewrite !fold_left_app. cbn [fold_left].
    rewrite (ColumnFacts.step_date _ _ Hc).
    apply ColumnFacts.keys_after_date. apply ColumnFacts.has_set_key.
  - intros _. cbn [fold_left]. rewrite (ColumnFacts.step_date _ _ Hc).
    apply ColumnFacts.only_date_after.
Qed.

Lemma date_column_hides_the_rest_witness :
  let date := (PStr (u "Date"), DObject) in
  let description := (PStr (u "Description"), DObject) in
  let amount := (PStr (u "Amount"), DObject) in
  date_named date = true
  /\ ColumnDetector.detect_columns (mk_frame [date; description; amount] [])
     = [(u "date", PStr (u "Date"))]
  /\ ColumnDetector.detect_columns (mk_frame [amount; description; date] [])
     = [(u "amount", PStr (u "Amount"));
        (u "description", PStr (u "Description"));
        (u "date", PStr (u "Date"))].
Proof.
  intros date description amount.
  assert (H : date_named date = true) by (vm_compute; reflexivity).
  split; [exact H |]. split; [| vm_compute; reflexivity].
  exact (proj2 (date_column_hides_the_rest [] date [description; amount] [] H)
               eq_refl).
Defined.

(** ** The sanitized table *)

Module ShapeOfOutput.
Import DataSanitizer SanitizerFacts.

Lemma fix_shifted_columns_same df d :
  fix_shifted_columns df = Ok d -> d = df.
Proof.
  unfold fix_shifted_columns.
  destruct (List.length (columns df) <? 3)%nat.
  - intros H. inversion H. reflexivity.
  - destruct (shifted_labels (rows df)); [| discriminate].
    cbn [bind]. rewrite fold_realign. intros H. inversion H. reflexivity.
Qed.

Lemma length_remove_nth {A : Type} : forall (l : list A) j,
  (j < List.length l)%nat ->
  S (List.length (remove_nth j l)) = List.length l.
Proof.
  induction l as [| a l IH]; intros [| j] H; simpl in *; try lia.
  rewrite IH by lia. reflexivity.
Qed.

Lemma last_two_in l a b : last_two l = Some (a, b) -> In b l.
Proof.
  unfold last_two. destruct (rev l) as [| y [| x t]] eqn:E; try discriminate.
  intros H. inversion H; subst. apply in_rev. rewrite E. left. reflexivity.
Qed.

Lemma split_position df a b :
  split_currency_columns df = Some (a, b) ->
  (b < List.length (columns df))%nat.
Proof.
  unfold split_currency_columns.
  destruct (last_two (numeric_positions df)) as [[x y] |] eqn:E;
    [| discriminate].
  destruct (_ && _); [| discriminate].
  intros H. inversion H; subst. apply last_two_in in E.
  unfold numeric_positions in E. apply filter_In in E. destruct E as [E _].
  unfold positions in E. apply in_seq in E. lia.
Qed.

(** The merge keeps the rows and takes away one column at most. *)
Lemma merge_shape df :
  List.length (rows (merge_split_currency_columns df))
  = List.length (rows df)
  /\ (List.length (columns (merge_split_currency_columns df))
      = List.length (columns df)
      \/ S (List.length (columns (merge_split_currency_columns df)))
         = List.length (columns df)).
Proof.
  unfold merge_split_currency_columns.
  destruct (split_currency_columns df) as [[a b] |] eqn:E; [| auto].
  unfold drop_column, assign_merged. cbn [columns rows].
  rewrite !length_map. split; [reflexivity |]. right.
  rewrite length_remove_nth; rewrite ObjectFacts.length_set_nth;
    [reflexivity |].
  exact (split_position _ _ _ E).
Qed.

Lemma length_retype df : forall cols j,
  List.length (retype df j cols) = List.length cols.
Proof.
  induction cols as [| [n t] cols IH]; intros j; [reflexivity |].
  destruct t; cbn [retype List.length]; rewrite IH; reflexivity.
Qed.

Lemma drop_artifacts_length : forall rs df df',
  drop_artifacts rs df = Ok df' ->
  columns df' = columns df
  /\ (List.length (rows df') <= List.length (rows df))%nat.
Proof.
  induction rs as [| [idx cells] rs IH]; intros df df' H.
  - inversion H; subst. auto.
  - cbn [drop_artifacts] in H. destruct (artifact cells).
    + unfold drop in H.
      destruct (existsb _ (rows df)); [| discriminate].
      cbn [bind] in H. apply IH in H. cbn [columns rows] in H.
      destruct H as [Hc Hl]. split; [exact Hc |].
      pose proof (filter_length_le (fun r => negb (fst r =? idx)%Z) (rows df)).
      lia.
    + apply IH. exact H.
Qed.

Lemma fix_csv_artifacts_shape df s :
  fix_csv_artifacts df = Ok s ->
  columns s = columns df
  /\ (List.length (rows s) <= List.length (rows df))%nat.
Proof.
  unfold fix_csv_artifacts. intros H.
  destruct (drop_artifacts (rows (dropna_all df)) (dropna_all df))
    as [d |] eqn:E; [| discriminate].
  cbn [bind] in H. inversion H; subst s. clear H.
  apply drop_artifacts_length in E. destruct E as [Hc Hl].
  unfold reset_index. cbn [columns rows]. split; [exact Hc |].
  rewrite length_combine, !length_map, length_seq, Nat.min_id.
  unfold dropna_all in Hl. cbn [rows] in Hl.
  pose proof (filter_length_le (fun r => negb (forallb isna (snd r)))
                               (rows df)).
  lia.
Qed.

End ShapeOfOutput.

(** [X11] The table that the steps of the sanitizer return: its index
    is 0, 1, 2, ...; no row has missing values only; no row is a separator
    or header row; no row was added, and all columns are there or one
    less (the merged one). *)
Theorem sanitized_table_shape nfkc df out report :
  DataSanitizer.sanitize_steps nfkc df = Ok (out, report) ->
  reset_index out = out
  /\ (forall r, In r (rows out) ->
        forallb isna (snd r) = false
        /\ DataSanitizer.artifact (snd r) = false)
  /\ (0 <= DataSanitizer.rows_removed report)%Z
  /\ (DataSanitizer.columns_changed report = 0%Z
      \/ DataSanitizer.columns_changed report = 1%Z)
  /\ report = DataSanitizer.validate_sanitization df out.
Proof.
  unfold DataSanitizer.sanitize_steps. intros H.
  destruct (DataSanitizer.fix_shifted_columns df) as [d1 |] eqn:E1;
    [| discriminate].
  apply ShapeOfOutput.fix_shifted_columns_same in E1. subst d1.
  cbn [bind] in H. cbv zeta in H.
  set (d2 := DataSanitizer.merge_split_currency_columns df) in *.
  set (d4 := DataSanitizer.clean_whitespace_and_quotes
               (DataSanitizer.normalize_unicode_symbols nfkc d2)) in *.
  destruct (DataSanitizer.fix_csv_artifacts d4) as [d5 |] eqn:E5;
    [| discriminate].
  cbn [bind] in H. inversion H; subst out report. clear H.
  destruct (SanitizerFacts.fix_csv_artifacts_output _ _ E5) as [Hrows Hidx].
  destruct (ShapeOfOutput.fix_csv_artifacts_shape _ _ E5) as [Hc Hl].
  destruct (ShapeOfOutput.merge_shape df) as [Hr2 Hc2]. fold d2 in Hr2, Hc2.
  assert (Hr4 : List.length (rows d4) = List.length (rows d2)).
  { unfold d4, DataSanitizer.clean_whitespace_and_quotes,
      DataSanitizer.normalize_unicode_symbols, map_object_cells.
    cbn [rows]. rewrite !length_map. reflexivity. }
  assert (Hc4 : List.length (columns d4) = List.length (columns d2)).
  { unfold d4, DataSanitizer.clean_whitespace_and_quotes,
      DataSanitizer.normalize_unicode_symbols, map_object_cells.
    cbn [columns]. apply ShapeOfOutput.length_retype. }
  split; [exact Hidx |]. split; [exact Hrows |].
  unfold DataSanitizer.validate_sanitization.
  cbn [DataSanitizer.rows_removed DataSanitizer.columns_changed].
  rewrite Hc, Hc4. split; [lia |]. split; [| reflexivity].
  destruct Hc2 as [Hc2 | Hc2]; [left | right]; lia.
Qed.

(** ** The caller's table *)

Module InPlaceFacts.
Import DataSanitizer DataSanitizer.Objects ObjectFacts.



End InPlaceFacts.


(** ** Worked cases *)

(** A row without the usual labels: the standard strategy fails on it
    and fuzzy column matching reads it. *)
Definition unlabelled_row : DefensiveTransactionParser.row :=
  DefensiveTransactionParser.Series
    [(PStr (u "When"), PStr (u "2024-01-14"));
     (PStr (u "What"), PStr (u "Coffee Shop"));
     (PStr (u "How much"), PStr (u "€5,50"))].

Definition unlabelled_result : DefensiveTransactionParser.ParsingResult :=
  DefensiveTransactionParser.succeeded "fuzzy_column_matching"
    (DefensiveTransactionParser.make_transaction
       (u "2024-01-14") (u "Coffee Shop") (dec 550 (-2)) (u "EUR")
       (u "credit") (u "other") (dec 7 (-1)))
    (dec 7 (-1)).

Lemma first_success_wins_witness :
  DefensiveTransactionParser.parse_transaction_row today unlabelled_row None
  = Ok unlabelled_result
  /\ exists earlier name f later,
       DefensiveTransactionParser.strategies today
       = earlier ++ (name, f) :: later
       /\ f unlabelled_row None = Ok unlabelled_result
       /\ DefensiveTransactionParser.strategy_used unlabelled_result = name
       /\ Forall (fun s => forall x, snd s unlabelled_row None = Ok x ->
                    DefensiveTransactionParser.success x = false) earlier.
Proof.
  assert (H : DefensiveTransactionParser.parse_transaction_row
                today unlabelled_row None = Ok unlabelled_result)
    by (vm_compute; reflexivity).
  split; [exact H |].
  exact (first_success_wins today unlabelled_row None unlabelled_result
                            H eq_refl).
Defined.

(** What the validator makes of [undated_purchase]. *)
Definition validated_purchase : record :=
  [(u "date", PStr (u "99/99/9999")); (u "description", PStr (u "Lunch"));
   (u "amount", PFloat (dec 125 (-1))); (u "currency", PStr (u "USD"));
   (u "confidence_score", PFloat (dec 7 (-1)));
   (u "type", PStr (u "credit")); (u "category", PStr (u "other"))].

Lemma validation_is_stable_witness :
  TransactionProcessor.returned
    (TransactionProcessor._validate_transactions [undated_purchase])
  = Ok [validated_purchase]
  /\ Forall (fun t => ValidatorFacts.zero_amount t = false)
            [validated_purchase]
  /\ TransactionProcessor._validate_transactions [validated_purchase]
     = TransactionProcessor.mk_validation
         [(TransactionProcessor.Info, ValidatorFacts.success_message 1 0)]
         (Ok [validated_purchase]).
Proof.
  assert (H : TransactionProcessor.returned
                (TransactionProcessor._validate_transactions
                   [undated_purchase])
              = Ok [validated_purchase]) by (vm_compute; reflexivity).
  assert (Hz : Forall (fun t => ValidatorFacts.zero_amount t = false)
                      [validated_purchase]) by (repeat constructor).
  split; [exact H |]. split; [exact Hz |].
  exact (validation_is_stable [undated_purchase] [validated_purchase] H Hz).
Defined.

Lemma survivors_are_valid_witness :
  TransactionProcessor.returned
    (TransactionProcessor._validate_transactions [undated_purchase])
  = Ok [validated_purchase]
  /\ Forall (fun t => TransactionProcessor.validate_transaction t
                      = Ok (true, u "Transaction is valid"))
            [validated_purchase].
Proof.
  assert (H : TransactionProcessor.returned
                (TransactionProcessor._validate_transactions
                   [undated_purchase])
              = Ok [validated_purchase]) by (vm_compute; reflexivity).
  split; [exact H |].
  exact (survivors_are_valid [undated_purchase] [validated_purchase] H).
Defined.

(** A processor without a model, whose rules find food. *)
Definition no_model (description : list N) : list N * pyfloat :=
  (u "other", dec 0 0).
Definition food_rule (description : list N) : res (list N * pyfloat) :=
  Ok (u "food", dec 6 (-1)).

Definition lunch_row : DefensiveTransactionParser.row :=
  DefensiveTransactionParser.Series
    [(PStr (u "Date"), PStr (u "01/15/2024"));
     (PStr (u "Description"), PStr (u " Lunch "));
     (PStr (u "Amount"), PStr (u "$12.50"))].

Definition lunch : record :=
  DefensiveTransactionParser.make_transaction
    (u "2024-01-15") (u "Lunch") (dec 1250 (-2)) (u "USD") (u "debit")
    (u "food") (dec 6 (-1)).

Lemma processor_row_shape_witness :
  TransactionProcessor.parse_transaction_row
    ascii_word today no_model food_rule lunch_row None = Ok (Some lunch)
  /\ exists date description amount currency type category confidence,
       lunch = DefensiveTransactionParser.make_transaction
                 (strftime_ymd date) description amount currency type
                 category confidence
       /\ valid_datetime date = true
       /\ strip description = description
       /\ TransactionProcessor.out_of_range amount = false
       /\ (type = u "debit" \/ type = u "credit")
       /\ ((confidence = dec 7 (-1) /\ category <> []
            /\ category <> u "other")
           \/ TransactionProcessor._categorize_transaction
                no_model food_rule description
              = Ok (category, confidence)).
Proof.
  assert (H : TransactionProcessor.parse_transaction_row
                ascii_word today no_model food_rule lunch_row None
              = Ok (Some lunch)) by (vm_compute; reflexivity).
  split; [exact H |].
  exact (processor_row_shape ascii_word today no_model food_rule
                             lunch_row None lunch H).
Defined.

Lemma parsed_rows_validated_witness :
  Forall (parsed ascii_word today no_model food_rule) [lunch]
  /\ TransactionProcessor.returned
       (TransactionProcessor._validate_transactions [lunch]) = Ok [lunch].
Proof.
  assert (H : Forall (parsed ascii_word today no_model food_rule) [lunch]).
  { constructor; [| constructor]. exists lunch_row, None.
    vm_compute. reflexivity. }
  split; [exact H |].
  apply (proj2 (parsed_rows_validated ascii_word today no_model food_rule
                                      [lunch] H)).
  vm_compute. discriminate.
Defined.

Definition exported_frame : DataFrame :=
  text_frame ["Date"; "Description"; "Amount"]%string
    [["2024-01-15"; "  Test   Transaction  "; "€12,50"];
     ["------"; ""; " "];
     ["Date"; "Description"; "Amount"];
     ["2024-01-14"; "'Quoted Description'"; "€25.00"]]%string.

Lemma sanitized_table_shape_witness :
  match DataSanitizer.sanitize_steps (fun s => s) exported_frame with
  | Ok (out, report) =>
      List.length (rows out) = 2%nat
      /\ reset_index out = out
      /\ (forall r, In r (rows out) ->
            forallb isna (snd r) = false
            /\ DataSanitizer.artifact (snd r) = false)
      /\ (0 <= DataSanitizer.rows_removed report)%Z
      /\ (DataSanitizer.columns_changed report = 0%Z
          \/ DataSanitizer.columns_changed report = 1%Z)
      /\ report = DataSanitizer.validate_sanitization exported_frame out
  | Raise _ => False
  end.
Proof.
  destruct (DataSanitizer.sanitize_steps (fun s => s) exported_frame)
    as [[out report] | e] eqn:E.
  - split.
    + vm_compute in E. inversion E. reflexivity.
    + exact (sanitized_table_shape (fun s => s) exported_frame out report E).
  - vm_compute in E. discriminate E.
Defined.

